(** * The libcamera input plugin of mjpg-streamer: a shallow embedding

    The plugin source ([plugins/input_libcamera/input_libcamera.cpp]) exists
    in two variants that share [copy_frame], [worker_cleanup], [input_stop],
    [input_run], [input_cmd] and the capture loop of [worker_thread]:
    - the software-encoding variant asks the camera for RGB888 frames and
      encodes them with libjpeg ([rgb_to_jpeg]);
    - the MJPEG variant asks the camera for JPEG frames and publishes the
      bytes the camera reports as used.

    The state the plugin works on is modelled explicitly: the host's
    [globals] object, the C heap, the plugin's file-scope statics, the
    worker thread's program point and a log of the library calls made.
    Every operation is a function in a state-and-error monad; [None] stands
    for undefined behaviour of the C++ program (null or out-of-range
    access, freeing a block that is not live). *)

From Stdlib Require Import ZArith List Lia.
From Stdlib.Strings Require Import Byte.
From stdpp Require Import base gmap list strings.

Open Scope Z_scope.

(** ** Data model *)

(** Heap addresses; a pointer is [None] (NULL) or the address of a block. *)
Definition addr := N.
Definition ptr := option addr.

Record timeval := mk_timeval { tv_sec : Z; tv_usec : Z }.

(** Modelled from the spec: [struct _input], one per input channel, is
    declared in the host's header [mjpg_streamer.h].  The record holds the
    members the plugin reads or writes ([buf], [size], [timestamp]) and,
    as one opaque value, all the others; the mutex [db] and the condition
    [db_update] appear through the events [EvLock], [EvUnlock] and
    [EvBroadcast].  The spec describes the size member as the frame's
    byte length, so it is an integer here with no narrowing. *)
Record input := mk_input {
  buf : ptr;
  size : Z;
  timestamp : timeval;
  in_other : list byte        (* the members the plugin never touches *)
}.

(** Modelled from the spec: [struct _globals], the process-wide state
    declared in the same header: the stop flag, the array of input
    channels, and everything else as one opaque value. *)
Record globals := mk_globals {
  stop : Z;
  in_ : list input;
  g_other : list byte         (* the members the plugin never touches *)
}.

(** Calls into pthread, libc and the sleep primitive, in program order.
    The entry of a [pthread_join] carries the value the stop flag had when
    the call was made, so that the log shows whether the worker had been
    told to stop before it was waited for. *)
Inductive event :=
| EvLock (i : Z)
| EvUnlock (i : Z)
| EvBroadcast (i : Z)
| EvMalloc (n : Z) (r : ptr)
| EvFree (a : addr)
| EvUsleep (us : Z)
| EvCreate (ok : bool)
| EvDetach
| EvJoin (stop_then : Z).

(** One plane of a libcamera frame buffer: its [length] member, which is
    what [mmap] and [munmap] are given; the memory the [mmap] of its file
    descriptor yields; and the [bytesused] of its metadata.  A mapping is
    made of whole pages, so [plane_mem], the bytes that can be read
    through the pointer [mmap] returns, reaches to the end of the last
    page and is in general longer than [plane_length]; a read inside
    [plane_mem] is served, a read beyond it is not defined. *)
Record plane := mk_plane {
  plane_length : Z;
  plane_mem : list byte;
  bytesused : Z
}.

Inductive request_status := RequestComplete | RequestCancelled.

Record request := mk_request {
  req_status : request_status;
  planes : list plane
}.

(** [class CameraContext], reduced to the members the capture loop uses. *)
Record CameraContext := mk_ctx {
  completed_requests : list request;
  running : bool
}.

(** Program points of [worker_thread]. *)
Inductive worker_pc :=
| PcInit                 (* before init_camera() *)
| PcStart                (* before start_camera() *)
| PcCheck                (* loop head: while (!pglobal->stop) *)
| PcPop                  (* take a completed request under queue_mutex *)
| PcProcess (r : request)(* process_frame(buffer) *)
| PcRequeue (r : request)(* request->reuse(); camera->queueRequest() *)
| PcSleep                (* usleep(1000) *)
| PcCleanup              (* after the loop: stop_camera() *)
| PcDone.                (* return NULL *)

(** A thread created by [pthread_create(&worker, 0, worker_thread, NULL)]:
    where it stands in [worker_thread] and whether it was detached. *)
Record thread := mk_thread {
  pc : worker_pc;
  detached : bool
}.

(** The plugin's file-scope parameters with their defaults. *)
Record parameters := mk_parameters {
  width : Z;
  height : Z;
  fps : Z;
  quality : Z;
  camera_id : Z
}.

Definition default_parameters : parameters := mk_parameters 640 480 30 85 0.

Record world := mk_world {
  global : globals;             (* the host's object that [pglobal] points to *)
  heap : gmap addr (list byte); (* live malloc blocks *)
  pglobal : bool;               (* false: [pglobal] is still NULL *)
  plugin_number : Z;
  first_run : Z;                (* static of worker_cleanup *)
  frame_num : Z;                (* static of process_frame, software variant *)
  params : parameters;
  ctx : option CameraContext;   (* None: [ctx] is nullptr *)
  threads : list thread;        (* the threads pthread_create has made *)
  worker : option nat;          (* the handle [worker]; None: never written *)
  trace : list event
}.

(** Field updates. *)
Definition set_global (g : globals) (w : world) : world :=
  mk_world g (heap w) (pglobal w) (plugin_number w) (first_run w)
           (frame_num w) (params w) (ctx w) (threads w) (worker w) (trace w).
Definition set_heap (h : gmap addr (list byte)) (w : world) : world :=
  mk_world (global w) h (pglobal w) (plugin_number w) (first_run w)
           (frame_num w) (params w) (ctx w) (threads w) (worker w) (trace w).
Definition set_pglobal (b : bool) (w : world) : world :=
  mk_world (global w) (heap w) b (plugin_number w) (first_run w) (frame_num w)
           (params w) (ctx w) (threads w) (worker w) (trace w).
Definition set_plugin_number (n : Z) (w : world) : world :=
  mk_world (global w) (heap w) (pglobal w) n (first_run w) (frame_num w)
           (params w) (ctx w) (threads w) (worker w) (trace w).
Definition set_first_run (n : Z) (w : world) : world :=
  mk_world (global w) (heap w) (pglobal w) (plugin_number w) n (frame_num w)
           (params w) (ctx w) (threads w) (worker w) (trace w).
Definition set_frame_num (n : Z) (w : world) : world :=
  mk_world (global w) (heap w) (pglobal w) (plugin_number w) (first_run w) n
           (params w) (ctx w) (threads w) (worker w) (trace w).
Definition set_params (p : parameters) (w : world) : world :=
  mk_world (global w) (heap w) (pglobal w) (plugin_number w) (first_run w)
           (frame_num w) p (ctx w) (threads w) (worker w) (trace w).
Definition set_ctx (c : option CameraContext) (w : world) : world :=
  mk_world (global w) (heap w) (pglobal w) (plugin_number w) (first_run w)
           (frame_num w) (params w) c (threads w) (worker w) (trace w).
Definition set_threads (ts : list thread) (w : world) : world :=
  mk_world (global w) (heap w) (pglobal w) (plugin_number w) (first_run w)
           (frame_num w) (params w) (ctx w) ts (worker w) (trace w).
Definition set_worker (t : option nat) (w : world) : world :=
  mk_world (global w) (heap w) (pglobal w) (plugin_number w) (first_run w)
           (frame_num w) (params w) (ctx w) (threads w) t (trace w).
Definition set_trace (t : list event) (w : world) : world :=
  mk_world (global w) (heap w) (pglobal w) (plugin_number w) (first_run w)
           (frame_num w) (params w) (ctx w) (threads w) (worker w) t.

(** ** The state-and-error monad *)

Definition M (A : Type) : Type := world -> option (A * world).

Definition ret {A} (a : A) : M A := fun w => Some (a, w).
Definition bind {A B} (m : M A) (k : A -> M B) : M B :=
  fun w => match m w with
           | Some (a, w') => k a w'
           | None => None
           end.
Definition fault {A} : M A := fun _ => None.

Notation "x <~ m ;; k" := (bind m (fun x => k))
  (at level 100, m at next level, right associativity).
Notation "m ;;; k" := (bind m (fun _ => k))
  (at level 100, right associativity).

Definition log (e : event) : M unit :=
  fun w => Some (tt, set_trace (trace w ++ [e]) w).

(** [pglobal->...]: dereferencing a null [pglobal] is undefined. *)
Definition get_globals : M globals :=
  fun w => if pglobal w then Some (global w, w) else None.
Definition put_globals (g : globals) : M unit :=
  fun w => if pglobal w then Some (tt, set_global g w) else None.

(** [pglobal->in[i]]: an index outside the array is undefined. *)
Definition get_in (i : Z) : M input :=
  g <~ get_globals ;;
  if 0 <=? i then
    match in_ g !! Z.to_nat i with
    | Some c => ret c
    | None => fault
    end
  else fault.

Definition put_in (i : Z) (c : input) : M unit :=
  _ <~ get_in i ;;
  g <~ get_globals ;;
  put_globals (mk_globals (stop g) (<[Z.to_nat i := c]> (in_ g)) (g_other g)).

(** libc's allocator.  [ok] is the environment's choice between a null
    result and a fresh block of [n] bytes. *)
Definition malloc (ok : bool) (n : Z) : M ptr :=
  fun w =>
    if ok then
      let a := fresh (dom (heap w)) in
      let blk := replicate (Z.to_nat n) x00 in
      Some (Some a, set_trace (trace w ++ [EvMalloc n (Some a)])
                              (set_heap (<[a := blk]> (heap w)) w))
    else Some (None, set_trace (trace w ++ [EvMalloc n None]) w).

(** [free(p)] for a non-null [p]: only a live block may be freed. *)
Definition free (a : addr) : M unit :=
  fun w =>
    match heap w !! a with
    | Some _ => Some (tt, set_trace (trace w ++ [EvFree a])
                                    (set_heap (delete a (heap w)) w))
    | None => None
    end.

(** [memcpy(dst, src, n)] where [src] is the readable region behind the
    source pointer: reading past it, or writing past the destination
    block, is undefined. *)
Definition memcpy (dst : addr) (src : list byte) (n : Z) : M unit :=
  fun w =>
    match heap w !! dst with
    | Some blk =>
        if (0 <=? n) && (n <=? Z.of_nat (length src))
           && (n <=? Z.of_nat (length blk))
        then Some (tt, set_heap (<[dst := take (Z.to_nat n) src
                                          ++ drop (Z.to_nat n) blk]> (heap w)) w)
        else None
    | None => None
    end.

(** ** copy_frame *)

Definition get_first_run : M Z := fun w => Some (first_run w, w).
Definition get_plugin_number : M Z := fun w => Some (plugin_number w, w).

(** [static void copy_frame(const uint8_t *buffer, size_t length)].
    [malloc_ok] and [now] are what [malloc] and [gettimeofday] answer. *)
Definition copy_frame (malloc_ok : bool) (now : timeval)
    (buffer : list byte) (len : Z) : M unit :=
  i <~ get_plugin_number ;;
  _ <~ get_in i ;;                 (* &pglobal->in[plugin_number].db *)
  log (EvLock i) ;;;
  c <~ get_in i ;;
  (* Free old buffer *)
  (match buf c with
   | Some a => free a
   | None => ret tt
   end) ;;;
  (* Allocate new buffer *)
  p <~ malloc malloc_ok len ;;
  put_in i (mk_input p (size c) (timestamp c) (in_other c)) ;;;
  match p with
  | None =>
      log (EvUnlock i)
  | Some a =>
      (* Copy frame data *)
      memcpy a buffer len ;;;
      put_in i (mk_input p len (timestamp c) (in_other c)) ;;;
      (* Update timestamp *)
      put_in i (mk_input p len now (in_other c)) ;;;
      (* Signal fresh frame *)
      log (EvBroadcast i) ;;;
      log (EvUnlock i)
  end.

(** ** worker_cleanup, input_run, input_stop, input_cmd *)

(** [void worker_cleanup(void *arg)], with its one-shot static
    [first_run] (initially 1). *)
Definition worker_cleanup : M unit :=
  fr <~ get_first_run ;;
  if fr =? 0 then
    ret tt                                   (* Already cleaned up *)
  else
    (fun w => Some (tt, set_first_run 0 w)) ;;;
    i <~ get_plugin_number ;;
    c <~ get_in i ;;
    match buf c with
    | Some a =>
        free a ;;;
        put_in i (mk_input None (size c) (timestamp c) (in_other c))
    | None => ret tt
    end.

(** [pthread_create(&worker, 0, worker_thread, NULL)]: on success a new
    thread stands at the entry of [worker_thread] and [worker] names it.
    On failure no thread is made and POSIX leaves the contents of
    [worker] undefined: [junk] is what the call happens to leave there. *)
Definition pthread_create (ok : bool) (junk : option nat) : M bool :=
  log (EvCreate ok) ;;;
  if ok then
    fun w => Some (true, set_worker (Some (length (threads w)))
                           (set_threads (threads w ++ [mk_thread PcInit false]) w))
  else
    fun w => Some (false, set_worker junk w).

(** [pthread_detach(worker)]. *)
Definition pthread_detach : M unit :=
  log EvDetach ;;;
  fun w =>
    match worker w with
    | Some tid =>
        match threads w !! tid with
        | Some t =>
            Some (tt, set_threads (<[tid := mk_thread (pc t) true]> (threads w)) w)
        | None => None
        end
    | None => None
    end.

(** [pthread_join(worker, NULL)].  Only the call itself is recorded,
    together with the value of the stop flag at that moment.  The handle
    it is given was detached by [input_run]; what the call does then
    (POSIX leaves it undefined) is outside this model. *)
Definition pthread_join : M unit :=
  fun w => log (EvJoin (stop (global w))) w.

(** [extern "C" int input_run(int id)]. *)
Definition input_run (create_ok : bool) (junk : option nat) (id : Z) : M Z :=
  c <~ get_in id ;;
  put_in id (mk_input None (size c) (timestamp c) (in_other c)) ;;;
  put_in id (mk_input None 0 (timestamp c) (in_other c)) ;;;
  ok <~ pthread_create create_ok junk ;;
  if negb ok then
    worker_cleanup ;;;
    ret (-1)
  else
    pthread_detach ;;;
    ret 0.

(** [extern "C" int input_stop(int id)]. *)
Definition input_stop (id : Z) : M Z :=
  g <~ get_globals ;;
  if negb (stop g =? 0) then
    ret 0
  else
    (* Signal worker thread to stop *)
    put_globals (mk_globals 1 (in_ g) (g_other g)) ;;;
    (* Wait for worker thread *)
    pthread_join ;;;
    ret 0.

(** [extern "C" int input_cmd(int plugin, unsigned int control_id,
    unsigned int group, int value, char *value_str)]: the body is a debug
    print and [return 0]. *)
Definition input_cmd (plugin : Z) (control_id group : Z) (value : Z)
    (value_str : option string) : M Z :=
  ret 0.

(** The status convention the plugin documents for its operations
    ("0 if everything is OK, other values signal an error"). *)
Definition status_ok (r : Z) : bool := r =? 0.

(** ** The camera side: requests, the capture loop, encoding *)

Inductive variant := Software | Mjpeg.

(** What the environment answers during one step of the worker. *)
(** What [config->validate()] answers; when it adjusts the
    configuration, the size it changed the stream to. *)
Inductive validation :=
| ConfigValid
| ConfigAdjusted (aw ah : Z)
| ConfigInvalid.

Record oracle := mk_oracle {
  o_cm_ok : bool;       (* ctx->cm->start() returns 0 *)
  o_cameras : nat;      (* cameras.size() *)
  o_camera_ok : bool;   (* cm->get(), acquire(), generateConfiguration() succeed *)
  o_validation : validation;
  o_configure_ok : bool;(* camera->configure() and allocator->allocate() succeed *)
  o_buffers : nat;      (* buffers.size() *)
  o_request_fail : option nat;
                        (* the first buffer for which createRequest() or
                           addBuffer() fails, if there is one *)
  o_start_ok : bool;    (* start_camera() succeeds *)
  o_mmap_ok : bool;     (* mmap != MAP_FAILED *)
  o_line_ok : bool;     (* malloc of the line buffer succeeds *)
  o_frame_ok : bool;    (* malloc of the frame buffer succeeds *)
  o_now : timeval;      (* gettimeofday *)
  o_queue_ok : bool     (* camera->queueRequest(request) returns 0 *)
}.

(** [struct jpeg_compress_struct], reduced to what the plugin sets and
    reads, plus the scanlines handed over so far. *)
Record jpeg_compress_struct := mk_cinfo {
  image_width : Z;
  image_height : Z;
  input_components : Z;
  jpeg_quality : Z;
  next_scanline : Z;
  scanlines : list (list byte)
}.

(** [jpeg_write_scanlines(&cinfo, row_pointer, 1)]: one row of
    [image_width * input_components] bytes is consumed. *)
Definition jpeg_write_scanlines (cinfo : jpeg_compress_struct) (row : list byte)
    : jpeg_compress_struct :=
  mk_cinfo (image_width cinfo) (image_height cinfo) (input_components cinfo)
           (jpeg_quality cinfo) (next_scanline cinfo + 1)
           (scanlines cinfo
              ++ [take (Z.to_nat (image_width cinfo * input_components cinfo)) row]).

(** libjpeg's limit on either image dimension. *)
Definition JPEG_MAX_DIMENSION : Z := 65500.

(** [jpeg_start_compress]: with the default error manager
    ([jpeg_std_error]) libjpeg ends the process on an empty or oversized
    image; that is a fault here. *)
Definition jpeg_start_compress (cinfo : jpeg_compress_struct) : M unit :=
  if (1 <=? image_width cinfo) && (image_width cinfo <=? JPEG_MAX_DIMENSION)
     && (1 <=? image_height cinfo) && (image_height cinfo <=? JPEG_MAX_DIMENSION)
  then ret tt else fault.

(** A read of [p[k]] from the region behind a pointer. *)
Definition rd (data : list byte) (k : Z) : option byte :=
  if 0 <=? k then data !! Z.to_nat k else None.

(** A write of [p[k] = b] into the block behind a pointer; outside the
    block it is undefined. *)
Definition wr (blk : list byte) (k : Z) (b : byte) : option (list byte) :=
  if (0 <=? k) && (k <? Z.of_nat (length blk))
  then Some (<[Z.to_nat k := b]> blk) else None.

(** The inner loop of [rgb_to_jpeg]:
    [for (x = 0; x < img_width; x++) { dst[0] = src[2]; dst[1] = src[1];
    dst[2] = src[0]; src += 3; dst += 3; }], with [src] and [dst] as
    offsets into the input region and the line buffer. *)
Fixpoint swap_loop (n : nat) (src dst : Z) (data line : list byte)
    : option (list byte) :=
  match n with
  | O => Some line
  | S n' =>
      match rd data (src + 2), rd data (src + 1), rd data src with
      | Some b2, Some b1, Some b0 =>
          match wr line dst b2 with
          | Some line =>
              match wr line (dst + 1) b1 with
              | Some line =>
                  match wr line (dst + 2) b0 with
                  | Some line => swap_loop n' (src + 3) (dst + 3) data line
                  | None => None
                  end
              | None => None
              end
          | None => None
          end
      | _, _, _ => None
      end
  end.

(** The scanline loop:
    [while (cinfo.next_scanline < cinfo.image_height)].  The row offset
    [cinfo.next_scanline * img_width * 3] is computed in [unsigned int].
    [fuel] bounds the number of iterations. *)
Fixpoint scan_loop (fuel : nat) (data : list byte) (img_width : Z)
    (cinfo : jpeg_compress_struct) (line : list byte)
    : option (jpeg_compress_struct * list byte) :=
  if next_scanline cinfo <? image_height cinfo then
    match fuel with
    | O => None
    | S fuel' =>
        let src := (next_scanline cinfo * img_width * 3) mod 2 ^ 32 in
        match swap_loop (Z.to_nat img_width) src 0 data line with
        | Some line' =>
            scan_loop fuel' data img_width (jpeg_write_scanlines cinfo line') line'
        | None => None
        end
    end
  else Some (cinfo, line).

Definition get_params : M parameters := fun w => Some (params w, w).
Definition get_heap : M (gmap addr (list byte)) := fun w => Some (heap w, w).

(** [jpeg_mem_dest] with [jpeg_finish_compress]: libjpeg leaves the
    encoded image in a block of its own making and reports its length. *)
Definition jpeg_finish_compress (enc : list byte) : M (addr * Z) :=
  fun w =>
    let a := fresh (dom (heap w)) in
    Some ((a, Z.of_nat (length enc)), set_heap (<[a := enc]> (heap w)) w).

Section External.

(** libjpeg's encoder, as a function of the compression object at
    [jpeg_finish_compress]; and libc's [atoi]. *)
Variable jpeg_encode : jpeg_compress_struct -> list byte.
Variable atoi : string -> Z.

(** [static int rgb_to_jpeg(const uint8_t *rgb_data, int img_width,
    int img_height, uint8_t **jpeg_data, size_t *jpeg_size)].  The result
    is the return value with the two out-parameters, which stay as the
    caller initialised them (NULL, 0) on failure.  The line buffer is
    private to the call; its contents are carried as a local value. *)
Definition rgb_to_jpeg (line_ok : bool) (rgb_data : option (list byte))
    (img_width img_height : Z) : M (Z * ptr * Z) :=
  match rgb_data with
  | None => ret (-1, None, 0)
  | Some data =>
      lb <~ malloc line_ok (img_width * 3) ;;
      match lb with
      | None => ret (-1, None, 0)
      | Some line_buffer =>
          p <~ get_params ;;
          let cinfo := mk_cinfo img_width img_height 3 (quality p) 0 [] in
          jpeg_start_compress cinfo ;;;
          match scan_loop (Z.to_nat img_height) data img_width cinfo
                          (replicate (Z.to_nat (img_width * 3)) x00) with
          | None => fault
          | Some (cinfo', _) =>
              out <~ jpeg_finish_compress (jpeg_encode cinfo') ;;
              free line_buffer ;;;
              ret (0, Some (fst out), snd out)
          end
      end
  end.

Definition get_frame_num : M Z := fun w => Some (frame_num w, w).

(** [static void process_frame(FrameBuffer *fb)], software variant.
    [rgb_mem] is the mapping [mmap(NULL, rgb_plane.length, ...)] returns:
    whole pages, of which [plane_mem] holds the bytes. *)
Definition process_frame_software (o : oracle) (fb : list plane) : M unit :=
  n <~ get_frame_num ;;
  (fun w => Some (tt, set_frame_num (n + 1) w)) ;;;
  if negb (length fb =? 1)%nat then ret tt
  else
    match fb !! 0%nat with
    | None => fault
    | Some rgb_plane =>
        if negb (o_mmap_ok o) then ret tt
        else
          let rgb_mem := plane_mem rgb_plane in
          (* the first frame prints the first 10 pixels of the mapping *)
          (if (n + 1 =? 1) && negb (30 <=? Z.of_nat (length rgb_mem))
           then fault else ret tt) ;;;
          p <~ get_params ;;
          r <~ rgb_to_jpeg (o_line_ok o) (Some rgb_mem) (width p) (height p) ;;
          let '(status, jpeg_data, jpeg_size) := r in
          if status =? 0 then
            match jpeg_data with
            | Some a =>
                h <~ get_heap ;;
                copy_frame (o_frame_ok o) (o_now o) (default [] (h !! a)) jpeg_size ;;;
                free a
            | None =>
                copy_frame (o_frame_ok o) (o_now o) [] jpeg_size
            end
          else ret tt
    end.

(** [static void process_frame(FrameBuffer *fb)], MJPEG variant.  The
    copy reads [bytesused] bytes from the mapping; [plane.length] is used
    for [mmap] and [munmap] only and is compared with nothing. *)
Definition process_frame_mjpeg (o : oracle) (fb : list plane) : M unit :=
  match fb !! 0%nat with
  | None => fault
  | Some plane =>
      if negb (o_mmap_ok o) then ret tt
      else copy_frame (o_frame_ok o) (o_now o) (plane_mem plane) (bytesused plane)
  end.

Definition process_frame (v : variant) (o : oracle) (fb : list plane) : M unit :=
  match v with
  | Software => process_frame_software o fb
  | Mjpeg => process_frame_mjpeg o fb
  end.

Definition put_params (p : parameters) : M unit :=
  fun w => Some (tt, set_params p w).

(** The assignments [fps = ...], [width = ...] and so on. *)
Definition store_fps (n : Z) (p : parameters) : parameters :=
  mk_parameters (width p) (height p) n (quality p) (camera_id p).
Definition store_width (n : Z) (p : parameters) : parameters :=
  mk_parameters n (height p) (fps p) (quality p) (camera_id p).
Definition store_height (n : Z) (p : parameters) : parameters :=
  mk_parameters (width p) n (fps p) (quality p) (camera_id p).
Definition store_quality (n : Z) (p : parameters) : parameters :=
  mk_parameters (width p) (height p) (fps p) n (camera_id p).
Definition store_camera_id (n : Z) (p : parameters) : parameters :=
  mk_parameters (width p) (height p) (fps p) (quality p) n.

Definition get_ctx : M (option CameraContext) := fun w => Some (ctx w, w).
Definition put_ctx (c : option CameraContext) : M unit :=
  fun w => Some (tt, set_ctx c w).

(** [ctx->...] where [ctx] must not be null. *)
Definition deref_ctx : M CameraContext :=
  fun w => match ctx w with Some c => Some (c, w) | None => None end.

(** [static void requestComplete(Request *request)], the callback
    libcamera runs when a capture request completes. *)
Definition requestComplete (r : request) : M unit :=
  c <~ get_ctx ;;
  match c with
  | None => ret tt
  | Some c =>
      match req_status r with
      | RequestCancelled => ret tt
      | RequestComplete =>
          put_ctx (Some (mk_ctx (completed_requests c ++ [r]) (running c)))
      end
  end.

(** [static void stop_camera()]: releases the camera and deletes [ctx].
    [worker_thread] calls it only after [init_camera] has returned 0, when
    [ctx->camera] is set; the early return on a context without a camera
    cannot be taken there and [CameraContext] does not record the camera. *)
Definition stop_camera : M unit :=
  c <~ get_ctx ;;
  match c with
  | None => ret tt
  | Some _ => put_ctx None
  end.

Definition get_thread (tid : nat) : M thread :=
  fun w => match threads w !! tid with Some t => Some (t, w) | None => None end.
Definition goto (tid : nat) (l : worker_pc) : M unit :=
  t <~ get_thread tid ;;
  fun w => Some (tt, set_threads (<[tid := mk_thread l (detached t)]> (threads w)) w).

(** The loop of [init_camera] that makes one request per buffer:
    [for (i = 0; i < buffers.size(); ++i)], with [n] buffers left.  The
    frame duration [1000000 / fps] is an integer division. *)
Fixpoint create_requests (o : oracle) (n i : nat) : M bool :=
  match n with
  | O => ret true
  | S n' =>
      if match o_request_fail o with Some k => Nat.eqb k i | None => false end
      then ret false                         (* Failed to create request *)
      else
        p <~ get_params ;;
        (if fps p =? 0 then fault else ret tt) ;;;   (* 1000000 / fps *)
        create_requests o n' (S i)
  end.

(** [static int init_camera()].  [ctx] is allocated first and no failure
    path deletes it. *)
Definition init_camera (o : oracle) : M Z :=
  put_ctx (Some (mk_ctx [] false)) ;;;
  if negb (o_cm_ok o) then ret (-1)          (* Failed to start camera manager *)
  else if (o_cameras o =? 0)%nat then ret (-1)   (* No cameras available *)
  else
    p <~ get_params ;;
    if Z.of_nat (o_cameras o) <=? camera_id p then ret (-1)
    else if camera_id p <? 0 then fault      (* cameras[camera_id] *)
    else if negb (o_camera_ok o) then ret (-1)
    else
      let finish : M Z :=
        if negb (o_configure_ok o) then ret (-1)
        else
          ok <~ create_requests o (o_buffers o) 0 ;;
          if ok then ret 0 else ret (-1) in
      match o_validation o with
      | ConfigInvalid => ret (-1)
      | ConfigAdjusted aw ah =>
          put_params (store_height ah (store_width aw p)) ;;;
          finish
      | ConfigValid => finish
      end.

(** One step of [void *worker_thread(void *arg)] for thread [tid].  The
    frame counter of the software variant only feeds log messages and is
    left out. *)
Definition worker_step (v : variant) (tid : nat) (o : oracle) : M unit :=
  t <~ get_thread tid ;;
  match pc t with
  | PcInit =>
      r <~ init_camera o ;;
      if r <? 0 then goto tid PcDone         (* Failed to initialize camera *)
      else goto tid PcStart
  | PcStart =>
      c <~ get_ctx ;;
      match c with
      | Some c =>
          if o_start_ok o then
            put_ctx (Some (mk_ctx (completed_requests c) true)) ;;;
            goto tid PcCheck
          else stop_camera ;;; goto tid PcDone
      | None => stop_camera ;;; goto tid PcDone
      end
  | PcCheck =>
      g <~ get_globals ;;
      if negb (stop g =? 0) then goto tid PcCleanup else goto tid PcPop
  | PcPop =>
      c <~ deref_ctx ;;
      match completed_requests c with
      | r :: rest =>
          put_ctx (Some (mk_ctx rest (running c))) ;;;
          goto tid (PcProcess r)
      | [] => goto tid PcSleep
      end
  | PcProcess r =>
      process_frame v o (planes r) ;;;
      goto tid (PcRequeue r)
  | PcRequeue r =>
      _ <~ deref_ctx ;;
      if o_queue_ok o then goto tid PcCheck else goto tid PcCleanup
  | PcSleep =>
      (* No frames available, sleep briefly *)
      log (EvUsleep 1000) ;;;
      goto tid PcCheck
  | PcCleanup =>
      stop_camera ;;;
      goto tid PcDone
  | PcDone => ret tt
  end.

(** ** input_init *)

(** [input_parameter]: the argument vector (an entry may be NULL) and the
    pointer to the host's globals ([false]: NULL). *)
Record input_parameter := mk_param {
  argv : list (option string);
  param_global : bool
}.

Definition is_opt (arg a b : string) : bool := String.eqb arg a || String.eqb arg b.

(** [atoi(param->argv[++i])] followed by the store into the parameter.
    [i] is the index of the option; the value is at [i + 1]. *)
Definition take_value (argv : list (option string)) (argc i : Z)
    (store : Z -> parameters -> parameters) : M (option Z) :=
  if argc <=? i + 1 then ret None           (* No value specified: return 1 *)
  else
    match argv !! Z.to_nat (i + 1) with
    | Some (Some s) =>
        p <~ get_params ;;
        put_params (store (atoi s) p) ;;;
        ret (Some (i + 1))
    | _ => fault
    end.

(** The argument loop [for (i = 0; i < param->argc; i++)]. *)
Fixpoint parse_loop (fuel : nat) (v : variant) (argv : list (option string))
    (argc i : Z) : M Z :=
  if i <? argc then
    match fuel with
    | O => fault
    | S fuel' =>
        match argv !! Z.to_nat i with
        | None => fault
        | Some None =>
            match v with
            | Software => parse_loop fuel' v argv argc (i + 1)  (* Skip NULL *)
            | Mjpeg => fault                                  (* strcmp(NULL, ..) *)
            end
        | Some (Some arg) =>
            let continue (r : option Z) :=
              match r with
              | None => ret 1
              | Some i' => parse_loop fuel' v argv argc (i' + 1)
              end in
            if is_opt arg "-h" "--help" then ret 1
            else if is_opt arg "-fps" "--framerate" then
              r <~ take_value argv argc i store_fps ;;
              continue r
            else if is_opt arg "-x" "--width" then
              r <~ take_value argv argc i store_width ;;
              continue r
            else if is_opt arg "-y" "--height" then
              r <~ take_value argv argc i store_height ;;
              continue r
            else if String.eqb arg "-quality" then
              r <~ take_value argv argc i store_quality ;;
              continue r
            else if String.eqb arg "-camera" then
              r <~ take_value argv argc i store_camera_id ;;
              continue r
            else parse_loop fuel' v argv argc (i + 1)
        end
    end
  else ret 0.

(** [extern "C" int input_init(input_parameter *param, int id)]. *)
Definition input_init (v : variant) (param : input_parameter) (id : Z) : M Z :=
  (fun w => Some (tt, set_plugin_number id w)) ;;;
  (fun w => Some (tt, set_pglobal (param_global param) w)) ;;;
  let argc := Z.of_nat (length (argv param)) in
  parse_loop (length (argv param)) v (argv param) argc 0.

(** ** Operations and runs *)

(** What can happen to the plugin: the four entry points the host calls,
    a step of a worker thread, and libcamera's completion callback. *)
Inductive op :=
| OpInit (param : input_parameter) (id : Z)
| OpRun (create_ok : bool) (junk : option nat) (id : Z)
| OpStop (id : Z)
| OpCmd (plugin control_id group value : Z) (value_str : option string)
| OpWorker (tid : nat) (o : oracle)
| OpRequestComplete (r : request).

Definition discard {A} (m : M A) : M unit := _ <~ m ;; ret tt.

Definition exec_op (v : variant) (o : op) : M unit :=
  match o with
  | OpInit param id => discard (input_init v param id)
  | OpRun create_ok junk id => discard (input_run create_ok junk id)
  | OpStop id => discard (input_stop id)
  | OpCmd plugin control_id group value value_str =>
      discard (input_cmd plugin control_id group value value_str)
  | OpWorker tid o => worker_step v tid o
  | OpRequestComplete r => requestComplete r
  end.

Fixpoint exec_ops (v : variant) (os : list op) : M unit :=
  match os with
  | [] => ret tt
  | o :: os' => exec_op v o ;;; exec_ops v os'
  end.

End External.

(** * Specification-side definitions *)

(** The world with channel [i] replaced by [c]. *)
Definition with_in (i : Z) (c : input) (w : world) : world :=
  set_global (mk_globals (stop (global w)) (<[Z.to_nat i := c]> (in_ (global w)))
                         (g_other (global w))) w.

Definition heap_free (p : ptr) (h : gmap addr (list byte)) : gmap addr (list byte) :=
  match p with Some a => delete a h | None => h end.
Definition ev_free (p : ptr) : list event :=
  match p with Some a => [EvFree a] | None => [] end.

(** A pointer that may be passed to [free]: null or a live block. *)
Definition live (w : world) (p : ptr) : Prop :=
  match p with Some a => is_Some (heap w !! a) | None => True end.

(** The plugin is bound to the host's globals, its channel index is inside
    the channel array, [c] is that channel and its buffer is null or live. *)
Definition channel_ready (w : world) (c : input) : Prop :=
  pglobal w = true /\ 0 <= plugin_number w /\
  in_ (global w) !! Z.to_nat (plugin_number w) = Some c /\ live w (buf c).

(** The plugin's channel, as a reader finds it. *)
Definition channel (w : world) : option input :=
  in_ (global w) !! Z.to_nat (plugin_number w).

(** The bytes behind a channel's buffer pointer. *)
Definition stored_bytes (w : world) (c : input) : option (list byte) :=
  match buf c with Some a => heap w !! a | None => None end.

(** The store holds the frame [bs]: its buffer holds exactly these bytes
    and its size is their length. *)
Definition holds_frame (w : world) (bs : list byte) : Prop :=
  exists c, channel w = Some c /\ stored_bytes w c = Some bs
            /\ size c = Z.of_nat (length bs).

(** Closed forms of the two outcomes of [copy_frame]. *)
Definition after_failed_publish (w : world) (c : input) (len : Z) : world :=
  let i := plugin_number w in
  set_trace (trace w ++ EvLock i :: ev_free (buf c) ++ [EvMalloc len None; EvUnlock i])
    (set_heap (heap_free (buf c) (heap w))
       (with_in i (mk_input None (size c) (timestamp c) (in_other c)) w)).

Definition after_publish (w : world) (c : input) (now : timeval)
    (buffer : list byte) (len : Z) : world :=
  let i := plugin_number w in
  let h1 := heap_free (buf c) (heap w) in
  let a := fresh (dom h1) in
  set_trace (trace w ++ EvLock i :: ev_free (buf c)
               ++ [EvMalloc len (Some a); EvBroadcast i; EvUnlock i])
    (set_heap (<[a := take (Z.to_nat len) buffer]> h1)
       (with_in i (mk_input (Some a) len now (in_other c)) w)).

(** Counting in a log: wake-ups of waiters, calls of [free], and the
    total time asked of [usleep], in microseconds. *)
Fixpoint broadcasts (t : list event) : nat :=
  match t with
  | [] => 0%nat
  | EvBroadcast _ :: t' => S (broadcasts t')
  | _ :: t' => broadcasts t'
  end.
Fixpoint frees (t : list event) : nat :=
  match t with
  | [] => 0%nat
  | EvFree _ :: t' => S (frees t')
  | _ :: t' => frees t'
  end.
Fixpoint slept (t : list event) : Z :=
  match t with
  | [] => 0
  | EvUsleep us :: t' => us + slept t'
  | _ :: t' => slept t'
  end.

(** A computation leaves an observation of the world as it was. *)
Definition preserves {X A} (f : world -> X) (m : M A) : Prop :=
  forall w a w', m w = Some (a, w') -> f w' = f w.

Definition stop_flag (w : world) : Z := stop (global w).

(** [n] calls in a row. *)
Fixpoint repeat_m (n : nat) (m : M unit) : M unit :=
  match n with
  | O => ret tt
  | S n' => m ;;; repeat_m n' m
  end.

(** ** Sample states and inputs *)

Definition t0 : timeval := mk_timeval 0 0.

(** A host with two channels, the plugin bound to channel 0, nothing
    published yet. *)
Definition idle_world : world :=
  mk_world (mk_globals 0 [mk_input None 0 t0 []; mk_input None 0 t0 []] [])
           ∅ true 0 1 0 default_parameters None [] None [].

(** The same with the frame 01 02 03 published at time 5.6. *)
Definition one_frame_world : world :=
  mk_world (mk_globals 0 [mk_input (Some 0%N) 3 (mk_timeval 5 6) [];
                          mk_input None 0 t0 []] [])
           {[ 0%N := [x01; x02; x03] ]} true 0 1 0 default_parameters
           None [] None [].

(** Modelled from the spec: the host program, which owns the globals and
    calls the plugin's entry points.  At shutdown it "sets the stop flag,
    then calls deactivate on every channel"; this is the first of the
    two. *)
Definition host_sets_stop (w : world) : world :=
  set_global (mk_globals 1 (in_ (global w)) (g_other (global w))) w.

(** The state [input_stop] leaves when it finds the flag clear. *)
Definition after_input_stop (w : world) : world :=
  set_trace (trace w ++ [EvJoin 1])
    (set_global (mk_globals 1 (in_ (global w)) (g_other (global w))) w).

Fixpoint usleeps (t : list event) : nat :=
  match t with
  | [] => 0%nat
  | EvUsleep _ :: t' => S (usleeps t')
  | _ :: t' => usleeps t'
  end.

(** A computation that leaves the thread table alone, wakes waiters at
    most [n] times and never sleeps. *)
Definition quiet (n : nat) {A} (m : M A) : Prop :=
  forall w a w', m w = Some (a, w') ->
    threads w' = threads w /\
    exists evs, trace w' = trace w ++ evs /\
                (broadcasts evs <= n)%nat /\ usleeps evs = 0%nat.

(** With the stop flag set, the number of steps the worker still takes
    from a program point before it has returned. *)
Definition rank (l : worker_pc) : nat :=
  match l with
  | PcDone => 0
  | PcCleanup => 1
  | PcCheck => 2
  | PcSleep | PcRequeue _ | PcStart => 3
  | PcProcess _ | PcInit => 4
  | PcPop => 5
  end.

(** Whether the iteration under way may still publish or sleep. *)
Definition budget (l : worker_pc) : nat :=
  match l with
  | PcPop | PcProcess _ | PcSleep => 1
  | _ => 0
  end.

(** What may run while worker [tid] winds down: its own steps, completion
    callbacks, and the host's calls of [input_stop] and [input_cmd]. *)
Definition concurrent_with (tid : nat) (o : op) : bool :=
  match o with
  | OpWorker t _ => Nat.eqb t tid
  | OpRequestComplete _ | OpStop _ | OpCmd _ _ _ _ _ => true
  | OpInit _ _ | OpRun _ _ _ => false
  end.

Fixpoint worker_steps (os : list op) : nat :=
  match os with
  | [] => 0%nat
  | OpWorker _ _ :: os' => S (worker_steps os')
  | _ :: os' => worker_steps os'
  end.

(** A computation that ends by moving thread [tid] to a program point in
    [P], having woken waiters at most [n] times and never slept. *)
Definition lands (tid : nat) (n : nat) (P : worker_pc -> Prop) (m : M unit) : Prop :=
  forall w t u w', threads w !! tid = Some t -> m w = Some (u, w') ->
    exists l evs,
      P l /\ threads w' !! tid = Some (mk_thread l (detached t)) /\
      trace w' = trace w ++ evs /\
      (broadcasts evs <= n)%nat /\ usleeps evs = 0%nat.

(** From [l], a step that wakes waiters at most [n] times may go to [l']. *)
Definition closer (l : worker_pc) (n : nat) (l' : worker_pc) : Prop :=
  (rank l' < rank l)%nat /\ (n + budget l' <= budget l)%nat.

(** ** The image the encoder is to receive *)

(** A row with bytes 0 and 2 of each 3-byte pixel exchanged. *)
Fixpoint swap_rb (row : list byte) : list byte :=
  match row with
  | b0 :: b1 :: b2 :: rest => b2 :: b1 :: b0 :: swap_rb rest
  | _ => []
  end.

(** Row [y] of a packed RGB888 image of width [w]. *)
Definition image_row (data : list byte) (w y : nat) : list byte :=
  take (3 * w) (drop (y * (3 * w)) data).




(** The offset at which the scanline loop reads row [y]: the product
    [next_scanline * img_width * 3] is formed in [unsigned int]. *)
Definition row_offset (iw y : Z) : Z := (y * iw * 3) mod 2 ^ 32.


(** An image of [w] by [n + 1] pixels whose rows are black except the
    last, which is white; and the one of 65500 by 21860 pixels, for which
    the offset of the last row, [21859 * 65500 * 3], exceeds [2 ^ 32]. *)
Definition black_then_white (w n : nat) : list byte :=
  replicate (n * (3 * w)) x00 ++ replicate (3 * w) xff.

(** ** Stand-ins for the external functions, and sample runs *)

(** An encoder that keeps the rows it was given, one after the other. *)
Definition rows_encoder (cinfo : jpeg_compress_struct) : list byte :=
  concat (scanlines cinfo).

(** A number parser that knows one numeral. *)
Definition toy_atoi (s : string) : Z := if String.eqb s "15" then 15 else 0.

Definition all_ok : oracle :=
  mk_oracle true 1 true ConfigValid true 4 None
            true true true true (mk_timeval 7 0) true.

(** A 2 by 2 image: red, green / blue, grey. *)
Definition sample_image : list byte :=
  [xff; x00; x00; x00; xff; x00;
   x00; x00; xff; x80; x80; x80].

(** A camera frame as the MJPEG variant receives it: 4 bytes used of a
    6-byte plane. *)
Definition sample_request : request :=
  mk_request RequestComplete [mk_plane 6 [xff; xd8; xff; xd9; x00; x00] 4].

(** Start-up followed by a stop, and some activity after it. *)
Definition startup_and_stop : list op :=
  [OpInit (mk_param [Some "-fps"; Some "15"]%string true) 0;
   OpRun true None 0;
   OpWorker 0 all_ok;
   OpStop 0].
Definition later_activity : list op :=
  [OpWorker 0 all_ok; OpCmd 0 1 2 3 None; OpRequestComplete sample_request;
   OpWorker 0 all_ok].

(** The worker has just passed the loop head, a completed request is
    queued, and the stop flag has been set. *)
Definition stopping_world : world :=
  mk_world (mk_globals 1 [mk_input None 0 t0 []; mk_input None 0 t0 []] [])
           ∅ true 0 1 0 default_parameters
           (Some (mk_ctx [sample_request] true))
           [mk_thread PcPop true] (Some 0%nat) [].

Definition five_steps : list op :=
  [OpWorker 0 all_ok; OpRequestComplete sample_request; OpWorker 0 all_ok;
   OpStop 0; OpWorker 0 all_ok; OpWorker 0 all_ok; OpWorker 0 all_ok].

Definition world_after (r : option (unit * world)) : world :=
  match r with Some (_, w) => w | None => idle_world end.
Definition after_startup : world :=
  world_after (exec_ops rows_encoder toy_atoi Mjpeg startup_and_stop idle_world).
Definition after_activity : world :=
  world_after (exec_ops rows_encoder toy_atoi Mjpeg later_activity after_startup).

(** * Further specification-side definitions *)

(** Events that take or release a channel's mutex. *)
Definition is_lock_event (e : event) : bool :=
  match e with
  | EvLock _ | EvUnlock _ => true
  | _ => false
  end.

(** A publish attempt: what [malloc] answers, the time of day, and the
    bytes, published whole. *)
Definition attempt : Type := bool * timeval * list byte.

Definition publish (a : attempt) : M unit :=
  let '(ok, now, bs) := a in
  copy_frame ok now bs (Z.of_nat (length bs)).

(** Publish attempts one after the other, as the capture loop makes them. *)
Fixpoint publish_all (fs : list attempt) : M unit :=
  match fs with
  | [] => ret tt
  | a :: fs' => publish a ;;; publish_all fs'
  end.

(** The heap without the block the channel's buffer points to: everything
    the plugin's frame store does not own. *)
Definition foreign_heap (w : world) (c : input) : gmap addr (list byte) :=
  heap_free (buf c) (heap w).

(** The completion callback run for each request of a list, in order. *)
Fixpoint run_callbacks (rs : list request) : M unit :=
  match rs with
  | [] => ret tt
  | r :: rs' => requestComplete r ;;; run_callbacks rs'
  end.

Definition is_complete (r : request) : bool :=
  match req_status r with
  | RequestComplete => true
  | RequestCancelled => false
  end.


(** The arguments [input_init] recognises. *)
Definition is_help (s : string) : bool := is_opt s "-h" "--help".

Definition takes_value (s : string) : bool :=
  is_opt s "-fps" "--framerate" || is_opt s "-x" "--width" ||
  is_opt s "-y" "--height" || String.eqb s "-quality" || String.eqb s "-camera".

(** An argument that is a string and is none of the recognised options. *)
Definition plain (a : option string) : bool :=
  match a with
  | Some s => negb (is_help s) && negb (takes_value s)
  | None => false
  end.

(** The program points of the capture loop of [worker_thread]. *)
Definition in_loop (l : worker_pc) : bool :=
  match l with
  | PcCheck | PcPop | PcProcess _ | PcRequeue _ | PcSleep => true
  | PcInit | PcStart | PcCleanup | PcDone => false
  end.

(** Steps of worker [tid] in which libcamera accepts the request that is
    queued again, completion callbacks and calls of [input_cmd]. *)
Definition loop_op (tid : nat) (o : op) : bool :=
  match o with
  | OpWorker t o => Nat.eqb t tid && o_queue_ok o
  | OpRequestComplete _ | OpCmd _ _ _ _ _ => true
  | OpInit _ _ | OpRun _ _ _ | OpStop _ => false
  end.

(** ** Sample states for the properties above *)

(** [input_run] has just created and detached the worker. *)
Definition started_world : world :=
  mk_world (mk_globals 0 [mk_input None 0 t0 []; mk_input None 0 t0 []] [])
           ∅ true 0 1 0 default_parameters None
           [mk_thread PcInit true] (Some 0%nat) [].

(** The worker is inside the capture loop at [l] with [q] queued and the
    stop flag clear. *)
Definition looping_world (l : worker_pc) (q : list request) : world :=
  mk_world (mk_globals 0 [mk_input None 0 t0 []; mk_input None 0 t0 []] [])
           ∅ true 0 1 0 default_parameters (Some (mk_ctx q true))
           [mk_thread l true] (Some 0%nat) [].

(** The parameters ask for 2 by 2 frames. *)
Definition small_world : world :=
  set_params (mk_parameters 2 2 30 85 0) idle_world.


Definition cancelled_request : request :=
  mk_request RequestCancelled [mk_plane 1 [x00] 1].

Definition refusing : oracle :=
  mk_oracle true 1 true ConfigValid true 4 None
            true true true true (mk_timeval 7 0) false.

Definition loop_run : list op :=
  [OpWorker 0 all_ok; OpRequestComplete sample_request; OpWorker 0 all_ok;
   OpWorker 0 all_ok; OpWorker 0 all_ok; OpCmd 0 1 2 3 None; OpWorker 0 all_ok].

(** The state in which [input_run] has just started the worker for
    channel 0 of [idle_world]. *)
Definition activated_world : world :=
  world_after (exec_ops rows_encoder toy_atoi Mjpeg [OpRun true None 0] idle_world).

(** A plane of 12 bytes and the page its mapping consists of. *)
Definition page_of_sample : list byte := sample_image ++ replicate 4084 x00.

(** Whether every answer [init_camera] gets from libcamera lets it go on:
    the camera manager starts, camera number [camera_id] exists and can
    be acquired and configured, and a request can be made for each
    buffer. *)
Definition no_request_fails (o : oracle) : bool :=
  match o_request_fail o with
  | Some k => (o_buffers o <=? k)%nat
  | None => true
  end.

Definition init_answers_ok (o : oracle) (p : parameters) : bool :=
  o_cm_ok o && (camera_id p <? Z.of_nat (o_cameras o)) && o_camera_ok o &&
  match o_validation o with ConfigInvalid => false | _ => true end &&
  o_configure_ok o && no_request_fails o.

(** * Properties *)

(** ** Stepping through the monad *)

Lemma bind_eq {A B} (m : M A) (k : A -> M B) w a w' :
  m w = Some (a, w') -> bind m k w = k a w'.
Proof. unfold bind. intros ->. reflexivity. Qed.

Lemma bind_inv {A B} (m : M A) (k : A -> M B) w r :
  bind m k w = Some r -> exists a w', m w = Some (a, w') /\ k a w' = Some r.
Proof.
  unfold bind. destruct (m w) as [[a w']|]; [|discriminate].
  intros H. exists a, w'. split; [reflexivity|exact H].
Qed.

Lemma get_in_eq w i c :
  pglobal w = true -> 0 <= i -> in_ (global w) !! Z.to_nat i = Some c ->
  get_in i w = Some (c, w).
Proof.
  intros Hp Hi Hc. unfold get_in, get_globals, bind. rewrite Hp.
  destruct (0 <=? i) eqn:E; [|lia]. rewrite Hc. reflexivity.
Qed.

Lemma get_in_inv w i c w' :
  get_in i w = Some (c, w') ->
  w' = w /\ pglobal w = true /\ 0 <= i /\ in_ (global w) !! Z.to_nat i = Some c.
Proof.
  unfold get_in, get_globals, bind. destruct (pglobal w); [|discriminate].
  destruct (0 <=? i) eqn:E; [|discriminate].
  destruct (in_ (global w) !! Z.to_nat i) eqn:L; [|discriminate].
  unfold ret. intros [= <- <-]. repeat split; auto. lia.
Qed.

Lemma put_in_eq w i c c0 :
  pglobal w = true -> 0 <= i -> in_ (global w) !! Z.to_nat i = Some c0 ->
  put_in i c w = Some (tt, with_in i c w).
Proof.
  intros Hp Hi Hc. unfold put_in. rewrite (bind_eq _ _ _ _ _ (get_in_eq _ _ _ Hp Hi Hc)).
  unfold get_globals, put_globals, bind. cbn. rewrite !Hp. reflexivity.
Qed.

Lemma free_step w c :
  live w (buf c) ->
  (match buf c with Some a => free a | None => ret tt end) w
  = Some (tt, set_trace (trace w ++ ev_free (buf c))
                (set_heap (heap_free (buf c) (heap w)) w)).
Proof.
  unfold live. destruct (buf c) as [a|]; simpl.
  - intros [blk Hb]. unfold free. rewrite Hb. reflexivity.
  - intros _. unfold ret. rewrite app_nil_r. destruct w; reflexivity.
Qed.

Lemma memcpy_fresh w a n src blk :
  heap w !! a = Some blk -> 0 <= n -> n <= Z.of_nat (length src) ->
  length blk = Z.to_nat n ->
  memcpy a src n w = Some (tt, set_heap (<[a := take (Z.to_nat n) src]> (heap w)) w).
Proof.
  intros Hb H0 H1 H2. unfold memcpy. rewrite Hb.
  replace (0 <=? n) with true by lia.
  replace (n <=? Z.of_nat (length src)) with true by lia.
  replace (n <=? Z.of_nat (length blk)) with true by lia.
  cbn. rewrite drop_ge by lia. rewrite app_nil_r. reflexivity.
Qed.

(** ** copy_frame in closed form *)

(** Normalises the projections of an explicit world. *)
Ltac wsimpl :=
  cbv beta iota delta
      [global heap pglobal plugin_number first_run frame_num params ctx threads
       worker trace
       set_global set_heap set_pglobal set_plugin_number set_first_run
       set_frame_num set_params set_ctx set_threads set_worker set_trace
       with_in] in *;
  cbn [stop in_ g_other buf size timestamp in_other] in *.

Ltac step_with lem := erewrite bind_eq by (lem; wsimpl; eauto); wsimpl.

Lemma copy_frame_failed w c now buffer len :
  channel_ready w c ->
  copy_frame false now buffer len w = Some (tt, after_failed_publish w c len).
Proof.
  intros (Hp & Hi & Hc & Hl). unfold copy_frame, after_failed_publish.
  destruct w as [g h pg i fr fn ps cx ths wk tr]. unfold live in Hl. wsimpl.
  unfold bind at 1, get_plugin_number. wsimpl.
  step_with ltac:(apply get_in_eq).
  unfold bind at 1, log at 1. wsimpl.
  step_with ltac:(apply get_in_eq).
  step_with ltac:(apply free_step). unfold bind at 1, malloc. wsimpl.
  step_with ltac:(eapply put_in_eq).
  unfold log. wsimpl.
  repeat rewrite <- app_assoc. reflexivity.
Qed.

Lemma copy_frame_published w c now buffer len :
  channel_ready w c -> 0 <= len <= Z.of_nat (length buffer) ->
  copy_frame true now buffer len w = Some (tt, after_publish w c now buffer len).
Proof.
  intros (Hp & Hi & Hc & Hl) Hlen. unfold copy_frame, after_publish.
  destruct w as [g h pg i fr fn ps cx ths wk tr]. unfold live in Hl. wsimpl.
  assert (Hlt : (Z.to_nat i < length (in_ g))%nat) by (eapply lookup_lt_Some; eauto).
  unfold bind at 1, get_plugin_number. wsimpl.
  step_with ltac:(apply get_in_eq).
  unfold bind at 1, log at 1. wsimpl.
  step_with ltac:(apply get_in_eq).
  step_with ltac:(apply free_step). unfold bind at 1, malloc. wsimpl.
  step_with ltac:(eapply put_in_eq).
  erewrite bind_eq.
  2:{ apply memcpy_fresh with (blk := replicate (Z.to_nat len) x00); wsimpl.
      - apply lookup_insert_eq.
      - lia.
      - lia.
      - apply length_replicate. }
  wsimpl.
  erewrite bind_eq.
  2:{ eapply put_in_eq; wsimpl; auto. apply list_lookup_insert_eq. exact Hlt. }
  wsimpl.
  erewrite bind_eq.
  2:{ eapply put_in_eq; wsimpl; auto. apply list_lookup_insert_eq.
      rewrite length_insert. exact Hlt. }
  wsimpl.
  unfold log, bind. wsimpl.
  rewrite !list_insert_insert_eq, insert_insert_eq.
  repeat rewrite <- app_assoc. reflexivity.
Qed.

(** A call of [copy_frame] that is defined was made on a ready channel. *)
Lemma copy_frame_defined ok now buffer len w r :
  copy_frame ok now buffer len w = Some r -> exists c, channel_ready w c.
Proof.
  unfold copy_frame. intros H.
  apply bind_inv in H as (i & w1 & [= <- <-] & H).
  apply bind_inv in H as (c0 & w2 & Hg & H).
  apply get_in_inv in Hg as (-> & Hp & Hi & _).
  apply bind_inv in H as ([] & w3 & [= <-] & H).
  apply bind_inv in H as (c & w4 & Hg & H).
  apply get_in_inv in Hg as (-> & _ & _ & Hc). cbn in Hc.
  apply bind_inv in H as ([] & w5 & Hf & _).
  exists c. repeat split; auto.
  unfold live. destruct (buf c) as [a|]; [|exact I].
  unfold free in Hf. cbn in Hf. destruct (heap w !! a); [eauto|discriminate].
Qed.

Lemma broadcasts_app t1 t2 : broadcasts (t1 ++ t2) = (broadcasts t1 + broadcasts t2)%nat.
Proof.
  induction t1 as [|e t1 IH]; [reflexivity|].
  destruct e; cbn; rewrite IH; reflexivity.
Qed.

Lemma frees_app t1 t2 : frees (t1 ++ t2) = (frees t1 + frees t2)%nat.
Proof.
  induction t1 as [|e t1 IH]; [reflexivity|].
  destruct e; cbn; rewrite IH; reflexivity.
Qed.

Lemma slept_app t1 t2 : slept (t1 ++ t2) = slept t1 + slept t2.
Proof.
  induction t1 as [|e t1 IH]; [reflexivity|].
  destruct e; cbn; rewrite IH; lia.
Qed.

Lemma broadcasts_ev_free p : broadcasts (ev_free p) = 0%nat.
Proof. destruct p; reflexivity. Qed.

(** After a publish whose allocation succeeded the store holds the
    published bytes, with the size member equal to their number. *)
Lemma after_publish_holds w c now buffer len :
  channel_ready w c -> 0 <= len <= Z.of_nat (length buffer) ->
  channel (after_publish w c now buffer len)
    = Some (mk_input (Some (fresh (dom (heap_free (buf c) (heap w))))) len now (in_other c)) /\
  holds_frame (after_publish w c now buffer len) (take (Z.to_nat len) buffer).
Proof.
  intros (Hp & Hi & Hc & Hl) Hlen.
  assert (Hch : channel (after_publish w c now buffer len)
    = Some (mk_input (Some (fresh (dom (heap_free (buf c) (heap w))))) len now (in_other c))).
  { unfold channel, after_publish. cbn. apply list_lookup_insert_eq.
    eapply lookup_lt_Some; eauto. }
  split; [exact Hch|].
  eexists. split; [exact Hch|]. split.
  - unfold stored_bytes, after_publish. cbn. apply lookup_insert_eq.
  - cbn. rewrite length_take. lia.
Qed.

(** ** C1: a failed allocation destroys the stored frame *)

(** C1 (the code departs from the specification).  The store holds the frame
    01 02 03; a publish of the one byte FF is attempted and malloc returns
    NULL.  The old block has been freed before the allocation was tried:
    afterwards the buffer pointer is null while the size member still says
    3, so the store holds neither the previous frame nor the new one. *)
Theorem C1_failed_allocation_loses_frame :
  holds_frame one_frame_world [x01; x02; x03] /\
  exists w',
    copy_frame false (mk_timeval 9 9) [xff] 1 one_frame_world = Some (tt, w') /\
    channel w' = Some (mk_input None 3 (mk_timeval 5 6) []) /\
    heap w' !! 0%N = None /\
    ~ holds_frame w' [x01; x02; x03] /\
    ~ holds_frame w' [xff].
Proof.
  split.
  - exists (mk_input (Some 0%N) 3 (mk_timeval 5 6) []). repeat split.
  - eexists. split; [vm_compute; reflexivity|].
    split; [reflexivity|]. split; [reflexivity|].
    split; intros (c & Hc & Hb & _); vm_compute in Hc;
      injection Hc as <-; discriminate Hb.
Qed.

(** The other half of C1 holds: when the allocation succeeds the
    store holds exactly the published bytes and their length. *)
Lemma copy_frame_success_holds_new_frame w c now buffer len :
  channel_ready w c -> 0 <= len <= Z.of_nat (length buffer) ->
  exists w', copy_frame true now buffer len w = Some (tt, w') /\
             holds_frame w' (take (Z.to_nat len) buffer).
Proof.
  intros Hr Hlen. eexists. split.
  - apply copy_frame_published; eauto.
  - apply after_publish_holds; auto.
Qed.

(** On every ready channel that holds a buffer, a failed allocation leaves
    a null buffer pointer next to the old size. *)
Lemma copy_frame_failure_state w c now buffer len :
  channel_ready w c ->
  exists w', copy_frame false now buffer len w = Some (tt, w') /\
             channel w' = Some (mk_input None (size c) (timestamp c) (in_other c)) /\
             heap w' = heap_free (buf c) (heap w).
Proof.
  intros Hr. eexists. split; [apply copy_frame_failed; exact Hr|].
  destruct Hr as (Hp & Hi & Hc & Hl). split; [|reflexivity].
  unfold channel, after_failed_publish. cbn. apply list_lookup_insert_eq.
  eapply lookup_lt_Some; eauto.
Qed.

(** ** C2: the frame store carries no sequence number *)

Lemma idle_world_ready : channel_ready idle_world (mk_input None 0 t0 []).
Proof. repeat split. cbn. lia. Qed.

(** C2 (counterexample).  No integer read off the channel's record can be
    a sequence number that every publish increases by one: publishing
    02 03 at time 5 leads to the same record whether or not the frame 01
    was published before it. *)
Lemma C2_counterexample :
  ~ exists seq : input -> Z,
      forall w c now buffer len w' c',
        channel_ready w c -> 0 <= len <= Z.of_nat (length buffer) ->
        copy_frame true now buffer len w = Some (tt, w') ->
        channel w' = Some c' ->
        seq c' = seq c + 1.
Proof.
  intros [seq H].
  set (c0 := mk_input None 0 t0 []).
  set (w1 := after_publish idle_world c0 (mk_timeval 1 0) [x01] 1).
  set (c1 := mk_input (Some 0%N) 1 (mk_timeval 1 0) []).
  set (c2 := mk_input (Some 0%N) 2 (mk_timeval 5 0) []).
  assert (Hr1 : channel_ready w1 c1).
  { repeat split. - cbn. lia. - eexists. vm_compute. reflexivity. }
  assert (E1 : seq c1 = seq c0 + 1).
  { apply (H idle_world c0 (mk_timeval 1 0) [x01] 1 w1 c1).
    - apply idle_world_ready.
    - cbn. lia.
    - apply copy_frame_published; [apply idle_world_ready|cbn; lia].
    - vm_compute. reflexivity. }
  assert (E2 : seq c2 = seq c1 + 1).
  { apply (H w1 c1 (mk_timeval 5 0) [x02; x03] 2
             (after_publish w1 c1 (mk_timeval 5 0) [x02; x03] 2) c2).
    - exact Hr1.
    - cbn. lia.
    - apply copy_frame_published; [exact Hr1|cbn; lia].
    - vm_compute. reflexivity. }
  assert (E3 : seq c2 = seq c0 + 1).
  { apply (H idle_world c0 (mk_timeval 5 0) [x02; x03] 2
             (after_publish idle_world c0 (mk_timeval 5 0) [x02; x03] 2) c2).
    - apply idle_world_ready.
    - cbn. lia.
    - apply copy_frame_published; [apply idle_world_ready|cbn; lia].
    - vm_compute. reflexivity. }
  lia.
Qed.

(** C2 (amended).  A publish whose allocation succeeds leaves in the
    channel's record a pointer to a newly allocated block (one that was
    not in use once the old buffer had been freed) holding a copy of the
    published bytes, their length as size and the time of day read during
    the call as timestamp, and leaves the other members of the record as
    they were.  The record carries nothing over from the frame that is
    replaced: started in any other state of the same channel, with
    whatever frame, size and timestamp stored and after however many
    publishes, the same publish leaves the same record, provided the
    allocator finds the same blocks in use and the untouched members are
    the same. *)
Theorem C2_publish_stores_no_sequence_number w c now buffer len :
  channel_ready w c -> 0 <= len <= Z.of_nat (length buffer) ->
  exists w' a,
    copy_frame true now buffer len w = Some (tt, w') /\
    heap_free (buf c) (heap w) !! a = None /\
    channel w' = Some (mk_input (Some a) len now (in_other c)) /\
    heap w' !! a = Some (take (Z.to_nat len) buffer) /\
    forall w0 c0,
      channel_ready w0 c0 -> in_other c0 = in_other c ->
      dom (heap_free (buf c0) (heap w0)) = dom (heap_free (buf c) (heap w)) ->
      exists w0',
        copy_frame true now buffer len w0 = Some (tt, w0') /\
        channel w0' = channel w'.
Proof.
  intros Hr Hlen. eexists _, _. split; [apply copy_frame_published; eauto|].
  split; [apply (not_elem_of_dom (heap_free (buf c) (heap w))); apply is_fresh|].
  destruct (after_publish_holds w c now buffer len Hr Hlen) as [Hch _].
  split; [exact Hch|].
  split; [unfold after_publish; cbn; apply lookup_insert_eq|].
  intros w0 c0 Hr0 Ho Hd. eexists. split; [apply copy_frame_published; eauto|].
  destruct (after_publish_holds w0 c0 now buffer len Hr0 Hlen) as [Hch0 _].
  rewrite Hch0, Hch, Ho, Hd. reflexivity.
Qed.

(** ** C4: there is no liveness gate on a publish *)

(** C4 (counterexample).  No state-dependent flag, however it is read off
    the plugin's state, can make every publish attempt a no-op: wherever
    [copy_frame] is defined, an attempt whose allocation succeeds wakes
    the waiters. *)
Lemma C4_counterexample :
  ~ exists alive : world -> bool,
      (exists w, alive w = false) /\
      forall w ok now buffer len,
        alive w = false -> 0 <= len <= Z.of_nat (length buffer) ->
        exists w', copy_frame ok now buffer len w = Some (tt, w') /\
                   channel w' = channel w /\
                   broadcasts (trace w') = broadcasts (trace w).
Proof.
  intros (alive & [w Hw] & H).
  destruct (H w true t0 [] 0 Hw) as (w' & Hc & _ & Hb); [cbn; lia|].
  destruct (copy_frame_defined _ _ _ _ _ _ Hc) as [c Hr].
  rewrite (copy_frame_published w c t0 [] 0 Hr) in Hc by (cbn; lia).
  injection Hc as <-. unfold after_publish in Hb. cbn in Hb.
  rewrite !broadcasts_app in Hb. cbn in Hb.
  rewrite broadcasts_app, broadcasts_ev_free in Hb. cbn in Hb. lia.
Qed.

(** C4 (amended).  [copy_frame] consults no liveness flag and returns no
    value: on every ready channel a publish whose allocation succeeds
    replaces the stored frame by the published bytes and broadcasts on the
    channel's condition exactly once. *)
Theorem C4_publish_is_unconditional w c now buffer len :
  channel_ready w c -> 0 <= len <= Z.of_nat (length buffer) ->
  exists w',
    copy_frame true now buffer len w = Some (tt, w') /\
    holds_frame w' (take (Z.to_nat len) buffer) /\
    broadcasts (trace w') = S (broadcasts (trace w)).
Proof.
  intros Hr Hlen. eexists. split; [apply copy_frame_published; eauto|].
  split; [apply after_publish_holds; auto|].
  unfold after_publish. cbn. rewrite !broadcasts_app. cbn.
  rewrite broadcasts_app, broadcasts_ev_free. cbn. lia.
Qed.

(** ** C5: input_cmd *)

(** C5 (counterexample).  A command is answered with 0, which is the
    status the plugin's operations use for success. *)
Lemma C5_counterexample :
  input_cmd 0 1 2 3 None idle_world = Some (0, idle_world) /\ status_ok 0 = true.
Proof. split; reflexivity. Qed.

(** C5 (amended).  For every plugin number, control identifier, group,
    value and value string, [input_cmd] changes nothing and returns 0; it
    is defined in every state. *)
Theorem C5_input_cmd_returns_zero plugin control_id group value value_str w :
  input_cmd plugin control_id group value value_str w = Some (0, w).
Proof. reflexivity. Qed.

(** ** C8: the footprint of a publish *)

Lemma heap_free_other (p : ptr) (h : gmap addr (list byte)) (a : addr) :
  p <> Some a -> heap_free p h !! a = h !! a.
Proof.
  destruct p as [b|]; cbn; [|reflexivity].
  intros Hne. apply lookup_delete_ne. congruence.
Qed.

Lemma elem_of_ev_free e p : e ∈ ev_free p -> exists a, e = EvFree a.
Proof.
  destruct p as [a|]; cbn.
  - intros ->%list_elem_of_singleton. eauto.
  - intros H. inversion H.
Qed.

(** C8.  A publish by the plugin bound to channel [i] locks, unlocks and
    signals only channel [i]'s mutex and condition, and changes only the
    buffer, size and timestamp members of channel [i]'s record: that
    record's other members, every other channel, the number of channels,
    the stop flag and the rest of the globals, the plugin's own statics
    and every heap block other than channel [i]'s old buffer are as
    before.  This holds whether or not the allocation succeeds. *)
Theorem C8_publish_touches_only_its_channel ok now buffer len w c :
  channel_ready w c -> 0 <= len <= Z.of_nat (length buffer) ->
  exists w' evs,
    copy_frame ok now buffer len w = Some (tt, w') /\
    trace w' = trace w ++ evs /\
    (forall j, EvLock j ∈ evs \/ EvUnlock j ∈ evs \/ EvBroadcast j ∈ evs ->
               j = plugin_number w) /\
    (forall j, j <> Z.to_nat (plugin_number w) ->
               in_ (global w') !! j = in_ (global w) !! j) /\
    (exists c', channel w' = Some c' /\ in_other c' = in_other c) /\
    length (in_ (global w')) = length (in_ (global w)) /\
    stop (global w') = stop (global w) /\
    g_other (global w') = g_other (global w) /\
    (forall a blk, buf c <> Some a -> heap w !! a = Some blk ->
                   heap w' !! a = Some blk) /\
    (pglobal w', plugin_number w', first_run w', frame_num w', params w',
     ctx w', threads w', worker w')
    = (pglobal w, plugin_number w, first_run w, frame_num w, params w,
       ctx w, threads w, worker w).
Proof.
  intros Hr Hlen.
  assert (Hlt : (Z.to_nat (plugin_number w) < length (in_ (global w)))%nat).
  { destruct Hr as (_ & _ & Hc & _). eapply lookup_lt_Some; eauto. }
  assert (Hev : forall (l : list event) j,
             (forall e, e ∈ l ->
                        match e with
                        | EvLock k | EvUnlock k | EvBroadcast k => k = plugin_number w
                        | _ => True
                        end) ->
             EvLock j ∈ l \/ EvUnlock j ∈ l \/ EvBroadcast j ∈ l ->
             j = plugin_number w).
  { intros l j Hall [H|[H|H]]; exact (Hall _ H). }
  destruct ok.
  - eexists _, _. split; [apply copy_frame_published; eauto|].
    unfold after_publish, channel. cbn. split; [reflexivity|].
    split; [|split; [|split; [|split; [|split; [|split; [|split]]]]]].
    + intros j. apply Hev. intros e.
      rewrite elem_of_cons, elem_of_app, !elem_of_cons.
      intros [->|[He|[->|[->|[->|He]]]]]; try reflexivity; try exact I.
      * apply elem_of_ev_free in He as [a ->]. exact I.
      * inversion He.
    + intros j Hj. apply list_lookup_insert_ne. congruence.
    + eexists. split; [apply list_lookup_insert_eq; exact Hlt|reflexivity].
    + apply length_insert.
    + reflexivity.
    + reflexivity.
    + intros a blk Hne Hb.
      rewrite lookup_insert_ne.
      * rewrite heap_free_other by exact Hne. exact Hb.
      * intros <-.
        assert (Hin : fresh (dom (heap_free (buf c) (heap w)))
                        ∈ dom (heap_free (buf c) (heap w))).
        { apply elem_of_dom. rewrite heap_free_other by exact Hne. eauto. }
        exact (is_fresh _ Hin).
    + reflexivity.
  - eexists _, _. split; [apply copy_frame_failed; eauto|].
    unfold after_failed_publish, channel. cbn. split; [reflexivity|].
    split; [|split; [|split; [|split; [|split; [|split; [|split]]]]]].
    + intros j. apply Hev. intros e.
      rewrite elem_of_cons, elem_of_app, !elem_of_cons.
      intros [->|[He|[->|[->|He]]]]; try reflexivity; try exact I.
      * apply elem_of_ev_free in He as [a ->]. exact I.
      * inversion He.
    + intros j Hj. apply list_lookup_insert_ne. congruence.
    + eexists. split; [apply list_lookup_insert_eq; exact Hlt|reflexivity].
    + apply length_insert.
    + reflexivity.
    + reflexivity.
    + intros a blk Hne Hb. rewrite heap_free_other by exact Hne. exact Hb.
    + reflexivity.
Qed.

(** ** C10: worker_cleanup runs once *)

Lemma worker_cleanup_done w :
  first_run w = 0 -> worker_cleanup w = Some (tt, w).
Proof.
  intros H. unfold worker_cleanup, get_first_run, bind. rewrite H. reflexivity.
Qed.

Lemma repeat_m_noop (m : M unit) w n :
  m w = Some (tt, w) -> repeat_m n m w = Some (tt, w).
Proof.
  intros H. induction n as [|n IH]; [reflexivity|].
  cbn. rewrite (bind_eq _ _ _ _ _ H). exact IH.
Qed.

Lemma worker_cleanup_first w c :
  channel_ready w c -> first_run w <> 0 ->
  worker_cleanup w
  = Some (tt,
          match buf c with
          | Some a =>
              set_trace (trace w ++ [EvFree a])
                (set_heap (delete a (heap w))
                   (with_in (plugin_number w) (mk_input None (size c) (timestamp c) (in_other c))
                      (set_first_run 0 w)))
          | None => set_first_run 0 w
          end).
Proof.
  intros (Hp & Hi & Hc & Hl) Hf. unfold worker_cleanup.
  rewrite (bind_eq _ _ w (first_run w) w eq_refl).
  destruct (first_run w =? 0) eqn:E; [lia|].
  rewrite (bind_eq _ _ w tt (set_first_run 0 w) eq_refl).
  rewrite (bind_eq _ _ (set_first_run 0 w) (plugin_number w) (set_first_run 0 w) eq_refl).
  erewrite bind_eq by (apply get_in_eq; cbn; eauto).
  destruct (buf c) as [a|] eqn:Hb; [|reflexivity].
  destruct Hl as [blk Hblk].
  erewrite bind_eq by (unfold free; cbn; rewrite Hblk; reflexivity).
  erewrite put_in_eq by (cbn; eauto). reflexivity.
Qed.

(** C10.  Starting with the one-shot flag as the program initialises it,
    the first call of [worker_cleanup] frees the channel's buffer when
    there is one and leaves the buffer pointer null; a further call changes
    nothing; hence any number of calls, one or more, ends in the state the
    first call left, with a null buffer pointer and at most one call of
    [free] made over all of them. *)
Theorem C10_worker_cleanup_idempotent n w c :
  channel_ready w c -> first_run w <> 0 ->
  exists w1,
    worker_cleanup w = Some (tt, w1) /\
    heap w1 = heap_free (buf c) (heap w) /\
    trace w1 = trace w ++ ev_free (buf c) /\
    channel w1 = Some (mk_input None (size c) (timestamp c) (in_other c)) /\
    worker_cleanup w1 = Some (tt, w1) /\
    repeat_m (S n) worker_cleanup w = Some (tt, w1) /\
    (frees (trace w1) <= frees (trace w) + 1)%nat.
Proof.
  intros Hr Hf. pose proof (worker_cleanup_first w c Hr Hf) as H1.
  destruct Hr as (Hp & Hi & Hc & Hl).
  eexists. split; [exact H1|].
  assert (Hdone : forall w1, w1 = match buf c with
          | Some a =>
              set_trace (trace w ++ [EvFree a])
                (set_heap (delete a (heap w))
                   (with_in (plugin_number w) (mk_input None (size c) (timestamp c) (in_other c))
                      (set_first_run 0 w)))
          | None => set_first_run 0 w
          end -> first_run w1 = 0).
  { intros w1 ->. destruct (buf c); reflexivity. }
  split; [destruct (buf c); reflexivity|].
  split; [destruct (buf c); cbn; [reflexivity|rewrite app_nil_r; reflexivity]|].
  split.
  { unfold channel. destruct (buf c) as [a|] eqn:Hb; cbn.
    - apply list_lookup_insert_eq. eapply lookup_lt_Some; eauto.
    - rewrite Hc. destruct c; cbn in *. congruence. }
  split; [apply worker_cleanup_done, Hdone; reflexivity|].
  split.
  { cbn [repeat_m]. rewrite (bind_eq _ _ _ _ _ H1).
    apply repeat_m_noop, worker_cleanup_done, Hdone; reflexivity. }
  destruct (buf c); cbn; [rewrite frees_app; cbn|]; lia.
Qed.

(** ** C3: input_stop *)

(** [input_run], when the thread could be created, leaves a detached
    worker at the entry of [worker_thread]. *)
Lemma input_run_started junk id w c :
  pglobal w = true -> 0 <= id -> in_ (global w) !! Z.to_nat id = Some c ->
  exists w1,
    input_run true junk id w = Some (0, w1) /\
    worker w1 = Some (length (threads w)) /\
    threads w1 = threads w ++ [mk_thread PcInit true] /\
    stop (global w1) = stop (global w).
Proof.
  intros Hp Hi Hc. unfold input_run.
  rewrite (bind_eq _ _ _ _ _ (get_in_eq _ _ _ Hp Hi Hc)).
  erewrite bind_eq by (eapply put_in_eq; eauto).
  erewrite bind_eq.
  2:{ eapply put_in_eq; cbn; eauto. apply list_lookup_insert_eq.
      eapply lookup_lt_Some; eauto. }
  unfold pthread_create, pthread_detach, log, bind, ret. cbn.
  rewrite lookup_app_r by lia. rewrite Nat.sub_diag. cbn.
  eexists. split; [reflexivity|]. cbn. split; [reflexivity|]. split; [|reflexivity].
  rewrite insert_app_r_alt by lia. rewrite Nat.sub_diag. reflexivity.
Qed.

(** C3 (counterexample).  [input_run] has started the worker; the host then
    begins shutdown by setting the stop flag and calls [input_stop].  The
    call finds the flag set and returns 0 at once: no [pthread_join] is
    made, and the worker thread, still at its entry, has not terminated. *)
Lemma C3_counterexample :
  exists w1 w2,
    input_run true None 0 idle_world = Some (0, w1) /\
    worker w1 = Some 0%nat /\
    w2 = host_sets_stop w1 /\
    input_stop 0 w2 = Some (0, w2) /\
    threads w2 !! 0%nat = Some (mk_thread PcInit true) /\
    forall z, EvJoin z ∉ trace w2.
Proof.
  eexists _, _. split; [vm_compute; reflexivity|].
  split; [reflexivity|]. split; [reflexivity|].
  split; [reflexivity|]. split; [reflexivity|].
  intros z. cbn. rewrite !elem_of_cons.
  intros [H|[H|H]]; [discriminate H ..|inversion H].
Qed.

(** C3 (amended).  Whenever the plugin is bound to the host's globals,
    as it is in every state in which [input_run] has started the worker,
    [input_stop] returns 0.  When the stop flag is already set
    it returns at once and changes nothing, so it neither signals nor
    waits for the worker; when the flag is clear it sets the flag to 1 and
    only then calls [pthread_join] on the worker handle: the call is the
    one entry the log gains, and it records that the flag was 1 when the
    call was made. *)
Theorem C3_input_stop_behaviour id w :
  pglobal w = true ->
  (stop (global w) <> 0 -> input_stop id w = Some (0, w)) /\
  (stop (global w) = 0 ->
   exists w',
     input_stop id w = Some (0, w') /\
     stop (global w') = 1 /\
     trace w' = trace w ++ [EvJoin 1] /\
     w' = after_input_stop w).
Proof.
  intros Hp.
  unfold input_stop, get_globals, put_globals, pthread_join, log, bind, ret.
  rewrite Hp. split; intros H.
  - destruct (stop (global w) =? 0) eqn:E; [lia|]. reflexivity.
  - rewrite H. cbn. rewrite Hp. eexists. split; [reflexivity|].
    split; [reflexivity|]. split; reflexivity.
Qed.

(** ** The pixel and scanline loops of rgb_to_jpeg *)

Lemma rd_app (pre l : list byte) (k : nat) :
  rd (pre ++ l) (Z.of_nat (length pre) + Z.of_nat k) = l !! k.
Proof.
  unfold rd. rewrite (proj2 (Z.leb_le _ _)) by lia.
  replace (Z.to_nat (Z.of_nat (length pre) + Z.of_nat k)) with (length pre + k)%nat by lia.
  rewrite lookup_app_r by lia. f_equal. lia.
Qed.

Lemma insert_at (pre l : list byte) (k : nat) (x : byte) :
  <[Z.to_nat (Z.of_nat (length pre) + Z.of_nat k) := x]> (pre ++ l)
  = pre ++ <[k := x]> l.
Proof.
  replace (Z.to_nat (Z.of_nat (length pre) + Z.of_nat k)) with (length pre + k)%nat by lia.
  apply insert_app_r.
Qed.

Lemma wr_at (pre l : list byte) (k : nat) (x : byte) :
  (k < length l)%nat ->
  wr (pre ++ l) (Z.of_nat (length pre) + Z.of_nat k) x = Some (pre ++ <[k := x]> l).
Proof.
  intros Hk. unfold wr. rewrite length_app.
  rewrite (proj2 (Z.leb_le _ _)), (proj2 (Z.ltb_lt _ _)) by lia.
  cbn [andb]. rewrite insert_at. reflexivity.
Qed.

(** The pixel loop, run over [n] pixels [px] of the input and the [n]
    pixel slots [mid] of the line buffer, fills the slots with [px] with
    bytes 0 and 2 of each pixel exchanged. *)
Lemma swap_loop_spec n : forall dpre px dpost pre mid post,
  length px = (3 * n)%nat -> length mid = (3 * n)%nat ->
  swap_loop n (Z.of_nat (length dpre)) (Z.of_nat (length pre))
            (dpre ++ px ++ dpost) (pre ++ mid ++ post)
  = Some (pre ++ swap_rb px ++ post).
Proof.
  induction n as [|n IH]; intros dpre px dpost pre mid post Hpx Hmid.
  - destruct px; [|discriminate]. destruct mid; [|discriminate]. reflexivity.
  - destruct px as [|b0 [|b1 [|b2 px]]]; try (cbn in Hpx; lia).
    destruct mid as [|m0 [|m1 [|m2 mid]]]; try (cbn in Hmid; lia).
    cbn [swap_loop app].
    pose proof (rd_app dpre ((b0 :: b1 :: b2 :: px) ++ dpost) 2) as R2.
    pose proof (rd_app dpre ((b0 :: b1 :: b2 :: px) ++ dpost) 1) as R1.
    pose proof (rd_app dpre ((b0 :: b1 :: b2 :: px) ++ dpost) 0) as R0.
    rewrite Z.add_0_r in R0. cbn in R2, R1, R0.
    change (Z.of_nat 2) with 2 in R2. change (Z.of_nat 1) with 1 in R1.
    rewrite R2, R1, R0.
    pose proof (wr_at pre ((m0 :: m1 :: m2 :: mid) ++ post) 0 b2) as I0.
    rewrite Z.add_0_r in I0. cbn -[wr] in I0. rewrite I0 by lia.
    pose proof (wr_at pre (b2 :: m1 :: m2 :: mid ++ post) 1 b1) as I1.
    change (Z.of_nat 1) with 1 in I1. cbn -[wr] in I1. rewrite I1 by lia.
    pose proof (wr_at pre (b2 :: b1 :: m2 :: mid ++ post) 2 b0) as I2.
    change (Z.of_nat 2) with 2 in I2. cbn -[wr] in I2. rewrite I2 by lia.
    specialize (IH (dpre ++ [b0; b1; b2]) px dpost (pre ++ [b2; b1; b0]) mid post).
    rewrite !length_app in IH. cbn [length] in IH.
    replace (Z.of_nat (length dpre + 3)) with (Z.of_nat (length dpre) + 3) in IH by lia.
    replace (Z.of_nat (length pre + 3)) with (Z.of_nat (length pre) + 3) in IH by lia.
    rewrite <- !app_assoc in IH. cbn in IH. rewrite IH by (cbn in *; lia).
    reflexivity.
Qed.

Lemma length_swap_rb n : forall px,
  length px = (3 * n)%nat -> length (swap_rb px) = length px.
Proof.
  induction n as [|n IH]; intros px H.
  - destruct px; [reflexivity|discriminate].
  - destruct px as [|b0 [|b1 [|b2 px]]]; try (cbn in H; lia).
    cbn. rewrite IH by (cbn in H; lia). reflexivity.
Qed.

Lemma length_image_row data w y :
  ((y + 1) * (3 * w) <= length data)%nat -> length (image_row data w y) = (3 * w)%nat.
Proof. intros H. unfold image_row. rewrite length_take, length_drop. lia. Qed.

(** One pass of the pixel loop over row [y] leaves that row, swapped, in
    the line buffer. *)
Lemma swap_loop_row data (w y : nat) line :
  ((y + 1) * (3 * w) <= length data)%nat -> length line = (3 * w)%nat ->
  swap_loop w (Z.of_nat (y * (3 * w))) 0 data line
  = Some (swap_rb (image_row data w y)).
Proof.
  intros Hd Hl.
  pose proof (swap_loop_spec w (take (y * (3 * w)) data) (image_row data w y)
                (drop (3 * w) (drop (y * (3 * w)) data)) [] line []) as H.
  rewrite length_take in H. rewrite Nat.min_l in H by lia.
  unfold image_row in H at 2. rewrite (take_drop (3 * w)), (take_drop (y * (3 * w))) in H.
  rewrite app_nil_r in H. cbn [app length] in H. change (Z.of_nat 0) with 0 in H.
  rewrite H; [rewrite app_nil_r; reflexivity| |exact Hl].
  apply length_image_row. exact Hd.
Qed.


(** The pixel loop run at any offset [off] of the input. *)
Lemma swap_loop_at data (w off : nat) line :
  (off + 3 * w <= length data)%nat -> length line = (3 * w)%nat ->
  swap_loop w (Z.of_nat off) 0 data line
  = Some (swap_rb (take (3 * w) (drop off data))).
Proof.
  intros Hd Hl.
  pose proof (swap_loop_spec w (take off data) (take (3 * w) (drop off data))
                (drop (3 * w) (drop off data)) [] line []) as H.
  replace (length (take off data)) with off in H by (rewrite length_take; lia).
  rewrite (take_drop (3 * w)), (take_drop off) in H.
  rewrite app_nil_r in H. cbn [app length] in H. change (Z.of_nat 0) with 0 in H.
  rewrite H; [rewrite app_nil_r; reflexivity| |exact Hl].
  rewrite length_take, length_drop. lia.
Qed.

Lemma row_offset_bounds iw y : 0 <= row_offset iw y < 2 ^ 32.
Proof. unfold row_offset. apply Z.mod_pos_bound. lia. Qed.



(** ** An image whose last row lies beyond 2^32 bytes *)


Lemma length_black_then_white w n :
  length (black_then_white w n) = (S n * (3 * w))%nat.
Proof. unfold black_then_white. rewrite length_app, !length_replicate. lia. Qed.

(** Once the image before its last row is at least [2 ^ 32] bytes long,
    every row the loop reads lies inside the image. *)
Lemma black_then_white_fits (w n y : nat) :
  2 ^ 32 <= Z.of_nat (n * (3 * w)) ->
  row_offset (Z.of_nat w) (Z.of_nat y) + 3 * Z.of_nat w
  <= Z.of_nat (length (black_then_white w n)).
Proof.
  intros Hbig. pose proof (row_offset_bounds (Z.of_nat w) (Z.of_nat y)).
  rewrite length_black_then_white. lia.
Qed.


(** ** C6: the stop flag is written in one direction only *)

Lemma preserves_ret {X A} (f : world -> X) (a : A) : preserves f (ret a).
Proof. intros w a' w' [= <- <-]. reflexivity. Qed.

Lemma preserves_fault {X A} (f : world -> X) : preserves f (@fault A).
Proof. intros w a w' H. discriminate H. Qed.

Lemma preserves_bind {X A B} (f : world -> X) (m : M A) (k : A -> M B) :
  preserves f m -> (forall a, preserves f (k a)) -> preserves f (bind m k).
Proof.
  intros Hm Hk w b w' H. apply bind_inv in H as (a & w1 & H1 & H2).
  rewrite (Hk _ _ _ _ H2). exact (Hm _ _ _ H1).
Qed.

(** A step that only rewrites parts of the world the observation does not
    look at. *)
Lemma preserves_update {X A} (f : world -> X) (g : world -> A * world) :
  (forall w, f (snd (g w)) = f w) -> preserves f (fun w => Some (g w)).
Proof. intros Hg w a w' [= H]. rewrite <- (Hg w), H. reflexivity. Qed.

Lemma preserves_read {X A} (f : world -> X) (g : world -> option A) :
  preserves f (fun w => match g w with Some a => Some (a, w) | None => None end).
Proof. intros w a w' H. destruct (g w); [|discriminate]. injection H as _ <-. reflexivity. Qed.

Lemma stop_log e : preserves stop_flag (log e).
Proof. intros w a w' [= _ <-]. reflexivity. Qed.

Lemma stop_get_globals : preserves stop_flag get_globals.
Proof. intros w a w' H. unfold get_globals in H. destruct (pglobal w); [|discriminate].
  injection H as _ <-. reflexivity. Qed.

Lemma stop_get_in i : preserves stop_flag (get_in i).
Proof. intros w a w' H. apply get_in_inv in H as (-> & _). reflexivity. Qed.

Lemma stop_put_in i c : preserves stop_flag (put_in i c).
Proof.
  intros w a w' H. unfold put_in in H.
  apply bind_inv in H as (c0 & w1 & H1 & H).
  apply get_in_inv in H1 as (-> & Hp & _).
  unfold get_globals, put_globals, bind in H. rewrite Hp in H. cbn in H.
  rewrite Hp in H. injection H as _ <-. reflexivity.
Qed.

Lemma stop_malloc ok n : preserves stop_flag (malloc ok n).
Proof. intros w a w' H. unfold malloc in H. destruct ok; injection H as _ <-; reflexivity. Qed.

Lemma stop_free a : preserves stop_flag (free a).
Proof. intros w u w' H. unfold free in H. destruct (heap w !! a); [|discriminate].
  injection H as _ <-. reflexivity. Qed.

Lemma stop_memcpy a src n : preserves stop_flag (memcpy a src n).
Proof.
  intros w u w' H. unfold memcpy in H. destruct (heap w !! a); [|discriminate].
  destruct (_ && _); [|discriminate]. injection H as _ <-. reflexivity.
Qed.

Lemma stop_jpeg_finish_compress enc : preserves stop_flag (jpeg_finish_compress enc).
Proof. intros w a w' [= _ <-]. reflexivity. Qed.

Lemma stop_jpeg_start_compress cinfo : preserves stop_flag (jpeg_start_compress cinfo).
Proof.
  unfold jpeg_start_compress. destruct (_ && _);
    [apply preserves_ret|apply preserves_fault].
Qed.

Lemma stop_get_thread tid : preserves stop_flag (get_thread tid).
Proof. intros w a w' H. unfold get_thread in H. destruct (threads w !! tid); [|discriminate].
  injection H as _ <-. reflexivity. Qed.

Lemma stop_deref_ctx : preserves stop_flag deref_ctx.
Proof. intros w a w' H. unfold deref_ctx in H. destruct (ctx w); [|discriminate].
  injection H as _ <-. reflexivity. Qed.

Create HintDb pres.
#[local] Hint Resolve stop_log stop_get_globals stop_get_in stop_put_in stop_malloc
  stop_free stop_memcpy stop_jpeg_finish_compress stop_jpeg_start_compress
  stop_get_thread stop_deref_ctx : pres.

(** Walks through a computation built from [bind], [ret], case analysis
    and the primitives above. *)
Ltac pres_step :=
  first
    [ apply preserves_ret
    | apply preserves_fault
    | solve [auto with pres]
    | solve [intros ? ? ? [= <- <-]; reflexivity]
    | solve [intros ? ? ? [= _ <-]; reflexivity]
    | apply preserves_bind; [|intros ?]
    | match goal with
      | |- preserves _ (match ?x with _ => _ end) => destruct x
      end ].
Ltac pres := repeat pres_step.

Lemma stop_copy_frame ok now buffer len :
  preserves stop_flag (copy_frame ok now buffer len).
Proof. unfold copy_frame, get_plugin_number. pres. Qed.

Lemma stop_worker_cleanup : preserves stop_flag worker_cleanup.
Proof. unfold worker_cleanup, get_first_run, get_plugin_number. pres. Qed.

Lemma stop_pthread_detach : preserves stop_flag pthread_detach.
Proof.
  unfold pthread_detach. apply preserves_bind; [apply stop_log|]. intros _.
  intros w a w' H. destruct (worker w) as [tid|]; [|discriminate].
  destruct (threads w !! tid); [|discriminate]. injection H as _ <-. reflexivity.
Qed.

Lemma stop_input_run ok junk id : preserves stop_flag (input_run ok junk id).
Proof.
  pose proof stop_worker_cleanup. pose proof stop_pthread_detach.
  unfold input_run, pthread_create. pres.
Qed.

Lemma stop_input_cmd p c g v s : preserves stop_flag (input_cmd p c g v s).
Proof. apply preserves_ret. Qed.

Lemma stop_requestComplete r : preserves stop_flag (requestComplete r).
Proof. unfold requestComplete, get_ctx, put_ctx. pres. Qed.

Lemma stop_stop_camera : preserves stop_flag stop_camera.
Proof. unfold stop_camera, get_ctx, put_ctx. pres. Qed.

Lemma stop_goto tid l : preserves stop_flag (goto tid l).
Proof. unfold goto. pres. Qed.

#[local] Hint Resolve stop_copy_frame stop_worker_cleanup stop_input_run stop_input_cmd
  stop_requestComplete stop_stop_camera stop_goto : pres.

Section Properties.

Variable jpeg_encode : jpeg_compress_struct -> list byte.
Variable atoi : string -> Z.

Lemma stop_rgb_to_jpeg ok data iw ih :
  preserves stop_flag (rgb_to_jpeg jpeg_encode ok data iw ih).
Proof. unfold rgb_to_jpeg, get_params. pres. Qed.

Lemma stop_process_frame v o fb :
  preserves stop_flag (process_frame jpeg_encode v o fb).
Proof.
  pose proof stop_rgb_to_jpeg.
  destruct v; cbn; unfold process_frame_software, process_frame_mjpeg,
    get_frame_num, get_params, get_heap; pres.
Qed.

Lemma stop_create_requests o n : forall i,
  preserves stop_flag (create_requests o n i).
Proof.
  induction n as [|n IH]; intros i; cbn [create_requests]; [apply preserves_ret|].
  pose proof (IH (S i)). unfold get_params. pres.
Qed.

Lemma stop_init_camera o : preserves stop_flag (init_camera o).
Proof.
  pose proof (stop_create_requests o (o_buffers o) 0).
  unfold init_camera, put_ctx, get_params, put_params. cbv zeta. pres.
Qed.

Lemma stop_worker_step v tid o :
  preserves stop_flag (worker_step jpeg_encode v tid o).
Proof.
  pose proof stop_process_frame. pose proof (stop_init_camera o).
  unfold worker_step, get_ctx, put_ctx, get_params, put_params. pres.
Qed.

Lemma stop_take_value argv argc i store :
  preserves stop_flag (take_value atoi argv argc i store).
Proof. unfold take_value, get_params, put_params. pres. Qed.

Lemma stop_parse_loop fuel v argv argc i :
  preserves stop_flag (parse_loop atoi fuel v argv argc i).
Proof.
  pose proof stop_take_value.
  revert i. induction fuel as [|fuel IH]; intros i; cbn.
  - destruct (i <? argc); [apply preserves_fault|apply preserves_ret].
  - pres.
Qed.

Lemma stop_input_init v param id :
  preserves stop_flag (input_init atoi v param id).
Proof.
  unfold input_init. pres_step; [pres|]. pres_step; [pres|]. apply stop_parse_loop.
Qed.

(** [input_stop] is the one operation that writes the flag, and the value
    it writes is 1. *)
Lemma input_stop_sets id w r w' :
  input_stop id w = Some (r, w') ->
  stop (global w') <> 0 /\
  (stop (global w') = stop (global w) \/ stop (global w') = 1).
Proof.
  unfold input_stop, get_globals, put_globals, pthread_join, log, bind, ret.
  destruct (pglobal w) eqn:Hp; [|discriminate].
  destruct (stop (global w) =? 0) eqn:E; cbn.
  - rewrite Hp. intros [= _ <-]. cbn. split; [lia|right; reflexivity].
  - intros [= _ <-]. split; [lia|left; reflexivity].
Qed.

(** No operation clears the flag: each leaves it as it is or writes 1. *)
Lemma exec_op_stop_flag v o w a w' :
  exec_op jpeg_encode atoi v o w = Some (a, w') ->
  stop (global w') = stop (global w) \/ stop (global w') = 1.
Proof.
  destruct o; cbn [exec_op]; unfold discard; intros H.
  - left. apply bind_inv in H as (r & w1 & H & [= _ <-]).
    exact (stop_input_init _ _ _ _ _ _ H).
  - left. apply bind_inv in H as (r & w1 & H & [= _ <-]).
    exact (stop_input_run _ _ _ _ _ _ H).
  - apply bind_inv in H as (r & w1 & H & [= _ <-]).
    apply input_stop_sets in H. tauto.
  - left. apply bind_inv in H as (r & w1 & H & [= _ <-]).
    exact (stop_input_cmd _ _ _ _ _ _ _ _ H).
  - left. exact (stop_worker_step _ _ _ _ _ _ H).
  - left. exact (stop_requestComplete _ _ _ _ H).
Qed.

Lemma exec_ops_keep_stop v os w w' :
  exec_ops jpeg_encode atoi v os w = Some (tt, w') ->
  stop (global w) <> 0 -> stop (global w') <> 0.
Proof.
  revert w. induction os as [|o os IH]; intros w H Hs.
  - injection H as <-. exact Hs.
  - cbn [exec_ops] in H. apply bind_inv in H as (a & w1 & H1 & H2).
    apply (IH _ H2). apply exec_op_stop_flag in H1. lia.
Qed.

Lemma exec_ops_with_stop v os id w w' :
  OpStop id ∈ os ->
  exec_ops jpeg_encode atoi v os w = Some (tt, w') ->
  stop (global w') <> 0.
Proof.
  revert w. induction os as [|o os IH]; intros w Hin H.
  - inversion Hin.
  - cbn [exec_ops] in H. apply bind_inv in H as (a & w1 & H1 & H2).
    apply elem_of_cons in Hin as [<-|Hin].
    + apply (exec_ops_keep_stop _ _ _ _ H2).
      cbn [exec_op] in H1. unfold discard in H1.
      apply bind_inv in H1 as (r & w2 & H1 & [= _ <-]).
      apply input_stop_sets in H1. tauto.
    + exact (IH _ Hin H2).
Qed.

(** C6.  Over any run of plugin operations ([input_init], [input_run],
    [input_stop], [input_cmd]), worker steps and completion callbacks:
    if the stop flag was set at the start of the run, or [input_stop] was
    called during it, the flag is set at its end and is still set after
    any further run.  No operation or worker step writes 0 to it. *)
Theorem C6_stop_flag_one_way v os1 os2 w w1 w2 :
  exec_ops jpeg_encode atoi v os1 w = Some (tt, w1) ->
  exec_ops jpeg_encode atoi v os2 w1 = Some (tt, w2) ->
  stop (global w) <> 0 \/ (exists id, OpStop id ∈ os1) ->
  stop (global w1) <> 0 /\ stop (global w2) <> 0.
Proof.
  intros H1 H2 Hs.
  assert (Hw1 : stop (global w1) <> 0).
  { destruct Hs as [Hs|[id Hin]].
    - exact (exec_ops_keep_stop _ _ _ _ H1 Hs).
    - exact (exec_ops_with_stop _ _ _ _ _ Hin H1). }
  split; [exact Hw1|]. exact (exec_ops_keep_stop _ _ _ _ H2 Hw1).
Qed.

(** ** C7: the capture loop after the stop flag is set *)

Lemma usleeps_app t1 t2 : usleeps (t1 ++ t2) = (usleeps t1 + usleeps t2)%nat.
Proof.
  induction t1 as [|e t1 IH]; [reflexivity|].
  destruct e; cbn; rewrite IH; reflexivity.
Qed.

Lemma slept_no_usleep t : usleeps t = 0%nat -> slept t = 0.
Proof.
  induction t as [|e t IH]; [reflexivity|].
  destruct e; cbn; try exact IH. discriminate.
Qed.

Lemma quiet_ret n {A} (a : A) : quiet n (ret a).
Proof.
  intros w a' w' [= <- <-]. split; [reflexivity|].
  exists []. rewrite app_nil_r. cbn. repeat split. lia.
Qed.

Lemma quiet_fault n {A} : quiet n (@fault A).
Proof. intros w a w' H. discriminate H. Qed.

Lemma quiet_bind n1 n2 {A B} (m : M A) (k : A -> M B) :
  quiet n1 m -> (forall a, quiet n2 (k a)) -> quiet (n1 + n2) (bind m k).
Proof.
  intros Hm Hk w b w' H. apply bind_inv in H as (a & w1 & H1 & H2).
  destruct (Hm _ _ _ H1) as (Ht1 & e1 & Hr1 & Hb1 & Hu1).
  destruct (Hk _ _ _ _ H2) as (Ht2 & e2 & Hr2 & Hb2 & Hu2).
  split; [congruence|]. exists (e1 ++ e2).
  rewrite Hr2, Hr1, <- app_assoc, broadcasts_app, usleeps_app.
  repeat split; lia.
Qed.

Lemma quiet_bind0 {A B} (m : M A) (k : A -> M B) :
  quiet 0 m -> (forall a, quiet 0 (k a)) -> quiet 0 (bind m k).
Proof. apply (quiet_bind 0 0). Qed.

Lemma quiet_weaken n n' {A} (m : M A) : (n <= n')%nat -> quiet n m -> quiet n' m.
Proof.
  intros Hn Hm w a w' H. destruct (Hm _ _ _ H) as (Ht & e & Hr & Hb & Hu).
  split; [exact Ht|]. exists e. repeat split; auto. lia.
Qed.

(** A step that appends nothing to the log and keeps the threads. *)
Lemma quiet_silent {A} (m : M A) :
  (forall w a w', m w = Some (a, w') -> threads w' = threads w /\ trace w' = trace w) ->
  quiet 0 m.
Proof.
  intros Hm w a w' H. destruct (Hm _ _ _ H) as [Ht Hr].
  split; [exact Ht|]. exists []. rewrite app_nil_r. cbn. repeat split; auto.
Qed.

Lemma quiet_log e :
  match e with EvBroadcast _ | EvUsleep _ => False | _ => True end ->
  quiet 0 (log e).
Proof.
  intros He w a w' [= _ <-]. split; [reflexivity|]. exists [e].
  split; [reflexivity|]. destruct e; cbn; try contradiction; auto.
Qed.

Lemma quiet_get_globals : quiet 0 get_globals.
Proof.
  apply quiet_silent. intros w a w' H. unfold get_globals in H.
  destruct (pglobal w); [|discriminate]. injection H as _ <-. auto.
Qed.

Lemma quiet_get_in i : quiet 0 (get_in i).
Proof.
  apply quiet_silent. intros w a w' H. apply get_in_inv in H as (-> & _). auto.
Qed.

Lemma quiet_put_in i c : quiet 0 (put_in i c).
Proof.
  apply quiet_silent. intros w a w' H. unfold put_in in H.
  apply bind_inv in H as (c0 & w1 & H1 & H).
  apply get_in_inv in H1 as (-> & Hp & _).
  unfold get_globals, put_globals, bind in H. rewrite Hp in H. cbn in H.
  rewrite Hp in H. injection H as _ <-. auto.
Qed.

Lemma quiet_malloc ok n : quiet 0 (malloc ok n).
Proof.
  intros w a w' H. unfold malloc in H.
  destruct ok; injection H as _ <-; (split; [reflexivity|]);
    eexists [_]; (split; [reflexivity|]); cbn; auto.
Qed.

Lemma quiet_free a : quiet 0 (free a).
Proof.
  intros w u w' H. unfold free in H. destruct (heap w !! a); [|discriminate].
  injection H as _ <-. split; [reflexivity|]. exists [EvFree a].
  split; [reflexivity|]. cbn. auto.
Qed.

Lemma quiet_memcpy a src n : quiet 0 (memcpy a src n).
Proof.
  apply quiet_silent. intros w u w' H. unfold memcpy in H.
  destruct (heap w !! a); [|discriminate].
  destruct (_ && _); [|discriminate]. injection H as _ <-. auto.
Qed.

Lemma quiet_jpeg_finish_compress enc : quiet 0 (jpeg_finish_compress enc).
Proof. apply quiet_silent. intros w a w' [= _ <-]. auto. Qed.

Lemma quiet_jpeg_start_compress cinfo : quiet 0 (jpeg_start_compress cinfo).
Proof.
  unfold jpeg_start_compress. destruct (_ && _); [apply quiet_ret|apply quiet_fault].
Qed.

Lemma quiet_deref_ctx : quiet 0 deref_ctx.
Proof.
  apply quiet_silent. intros w a w' H. unfold deref_ctx in H.
  destruct (ctx w); [|discriminate]. injection H as _ <-. auto.
Qed.

Create HintDb quiet.
#[local] Hint Resolve quiet_get_globals quiet_get_in quiet_put_in quiet_malloc
  quiet_free quiet_memcpy quiet_jpeg_finish_compress quiet_jpeg_start_compress
  quiet_deref_ctx : quiet.

Ltac quiet_step :=
  first
    [ apply quiet_ret
    | apply quiet_fault
    | solve [auto with quiet]
    | solve [apply quiet_log; exact I]
    | solve [apply quiet_silent; intros ? ? ? [= <- <-]; auto]
    | solve [apply quiet_silent; intros ? ? ? [= _ <-]; auto]
    | apply quiet_bind0; [|intros ?]
    | match goal with
      | |- quiet _ (match ?x with _ => _ end) => destruct x
      end ].
Ltac quiet0 := repeat quiet_step.

(** A publish wakes the waiters at most once. *)
Lemma quiet_copy_frame ok now buffer len : quiet 1 (copy_frame ok now buffer len).
Proof.
  unfold copy_frame.
  apply (quiet_bind 0 1); [quiet0|]. intros i.
  apply (quiet_bind 0 1); [quiet0|]. intros _.
  apply (quiet_bind 0 1); [quiet0|]. intros _.
  apply (quiet_bind 0 1); [quiet0|]. intros c.
  apply (quiet_bind 0 1); [quiet0|]. intros _.
  apply (quiet_bind 0 1); [quiet0|]. intros p.
  apply (quiet_bind 0 1); [quiet0|]. intros _.
  destruct p as [a|].
  - apply (quiet_bind 0 1); [quiet0|]. intros _.
    apply (quiet_bind 0 1); [quiet0|]. intros _.
    apply (quiet_bind 0 1); [quiet0|]. intros _.
    apply (quiet_bind 1 0); [|intros _; quiet0].
    intros w u w' [= _ <-]. split; [reflexivity|]. eexists [_].
    split; [reflexivity|]. cbn. auto.
  - apply (quiet_weaken 0); [lia|]. quiet0.
Qed.

Lemma quiet_stop_camera : quiet 0 stop_camera.
Proof. unfold stop_camera, get_ctx, put_ctx. quiet0. Qed.

Lemma quiet_requestComplete r : quiet 0 (requestComplete r).
Proof. unfold requestComplete, get_ctx, put_ctx. quiet0. Qed.

Lemma quiet_pthread_join : quiet 0 pthread_join.
Proof.
  intros w a w' H. unfold pthread_join, log in H. injection H as _ <-.
  split; [reflexivity|]. eexists [_]. split; [reflexivity|]. cbn. auto.
Qed.

Lemma quiet_input_stop id : quiet 0 (input_stop id).
Proof.
  pose proof quiet_pthread_join as Hj.
  unfold input_stop. quiet_step. quiet_step.
  destruct (negb _); [apply quiet_ret|]. quiet_step.
  - apply quiet_silent. intros w u w' H. unfold put_globals in H.
    destruct (pglobal w); [|discriminate]. injection H as _ <-. auto.
  - quiet0.
Qed.

Lemma quiet_create_requests o n : forall i, quiet 0 (create_requests o n i).
Proof.
  induction n as [|n IH]; intros i; cbn [create_requests]; [apply quiet_ret|].
  destruct (match o_request_fail o with Some k => Nat.eqb k i | None => false end);
    [apply quiet_ret|].
  apply quiet_bind0; [apply quiet_silent; intros ? ? ? [= _ <-]; auto|]. intros p.
  apply quiet_bind0; [destruct (fps p =? 0); [apply quiet_fault|apply quiet_ret]|].
  intros _. apply IH.
Qed.

Lemma quiet_init_camera o : quiet 0 (init_camera o).
Proof.
  pose proof (quiet_create_requests o) as Hc.
  unfold init_camera, put_ctx, get_params, put_params. cbv zeta.
  apply quiet_bind0; [apply quiet_silent; intros ? ? ? [= _ <-]; auto|]. intros _.
  destruct (negb (o_cm_ok o)); [apply quiet_ret|].
  destruct (o_cameras o =? 0)%nat; [apply quiet_ret|].
  apply quiet_bind0; [apply quiet_silent; intros ? ? ? [= _ <-]; auto|]. intros p.
  destruct (_ <=? _); [apply quiet_ret|].
  destruct (_ <? 0); [apply quiet_fault|].
  destruct (negb (o_camera_ok o)); [apply quiet_ret|].
  assert (Hfin : quiet 0
            (if negb (o_configure_ok o) then ret (-1)
             else ok <~ create_requests o (o_buffers o) 0 ;;
                  if ok then ret 0 else ret (-1))).
  { destruct (negb (o_configure_ok o)); [apply quiet_ret|].
    apply quiet_bind0; [apply Hc|]. intros []; apply quiet_ret. }
  destruct (o_validation o); [exact Hfin| |apply quiet_ret].
  apply quiet_bind0; [|intros _; exact Hfin].
  apply quiet_silent. intros ? ? ? [= _ <-]. auto.
Qed.

Lemma quiet_input_cmd p c g v s : quiet 0 (input_cmd p c g v s).
Proof. apply quiet_ret. Qed.

Lemma quiet_rgb_to_jpeg ok data iw ih :
  quiet 0 (rgb_to_jpeg jpeg_encode ok data iw ih).
Proof. unfold rgb_to_jpeg, get_params. quiet0. Qed.

Lemma quiet_process_frame v o fb : quiet 1 (process_frame jpeg_encode v o fb).
Proof.
  pose proof quiet_rgb_to_jpeg as Hj.
  destruct v; cbn [process_frame].
  - unfold process_frame_software, get_frame_num, get_params, get_heap.
    apply (quiet_bind 0 1); [quiet0|]. intros n.
    apply (quiet_bind 0 1); [quiet0|]. intros _.
    destruct (negb _); [apply quiet_ret|].
    destruct (fb !! 0%nat) as [pl|]; [|apply quiet_fault].
    destruct (negb _); [apply quiet_ret|].
    apply (quiet_bind 0 1); [quiet0|]. intros _.
    apply (quiet_bind 0 1); [quiet0|]. intros p.
    apply (quiet_bind 0 1); [apply Hj|]. intros [[status jpeg_data] jpeg_size].
    destruct (status =? 0); [|apply quiet_ret].
    destruct jpeg_data as [a|].
    + apply (quiet_bind 0 1); [quiet0|]. intros h.
      apply (quiet_bind 1 0); [apply quiet_copy_frame|]. intros _. quiet0.
    + apply quiet_copy_frame.
  - unfold process_frame_mjpeg.
    destruct (fb !! 0%nat) as [pl|]; [|apply quiet_fault].
    destruct (negb _); [apply quiet_ret|apply quiet_copy_frame].
Qed.

Lemma lands_goto tid n (P : worker_pc -> Prop) l : P l -> lands tid n P (goto tid l).
Proof.
  intros HP w t u w' Ht H. unfold goto, get_thread, bind in H. rewrite Ht in H.
  injection H as _ <-. exists l, []. split; [exact HP|].
  split; [cbn; apply list_lookup_insert_eq; eapply lookup_lt_Some; eauto|].
  split; [cbn; rewrite app_nil_r; reflexivity|]. cbn. split; [lia|reflexivity].
Qed.

Lemma lands_bind tid n1 n2 P {A} (m : M A) (k : A -> M unit) :
  quiet n1 m -> (forall a, lands tid n2 P (k a)) -> lands tid (n1 + n2) P (bind m k).
Proof.
  intros Hm Hk w t u w' Ht H. apply bind_inv in H as (a & w1 & H1 & H2).
  destruct (Hm _ _ _ H1) as (Ht1 & e1 & Hr1 & Hb1 & Hu1).
  rewrite <- Ht1 in Ht.
  destruct (Hk a _ _ _ _ Ht H2) as (l & e2 & HP & Ht2 & Hr2 & Hb2 & Hu2).
  exists l, (e1 ++ e2). split; [exact HP|]. split; [exact Ht2|].
  rewrite Hr2, Hr1, <- app_assoc, broadcasts_app, usleeps_app.
  repeat split; lia.
Qed.

Lemma lands_bind0 tid n P {A} (m : M A) (k : A -> M unit) :
  quiet 0 m -> (forall a, lands tid n P (k a)) -> lands tid n P (bind m k).
Proof. apply (lands_bind tid 0 n). Qed.

Ltac lands_step :=
  first
    [ apply lands_goto; split; cbn; lia
    | apply lands_bind0; [solve [quiet0]|intros ?]
    | match goal with
      | |- lands _ _ _ (match ?x with _ => _ end) => destruct x
      end ].

Lemma rank_zero l : rank l = 0%nat -> l = PcDone.
Proof. destruct l; cbn; try discriminate. reflexivity. Qed.

(** One step of the worker while the stop flag is set. *)
Lemma worker_step_stopped v tid o w w' t :
  stop (global w) <> 0 -> threads w !! tid = Some t ->
  worker_step jpeg_encode v tid o w = Some (tt, w') ->
  exists t' evs,
    threads w' !! tid = Some t' /\ trace w' = trace w ++ evs /\
    ((rank (pc t') < rank (pc t))%nat \/ (pc t = PcDone /\ pc t' = PcDone)) /\
    (broadcasts evs + usleeps evs + budget (pc t') <= budget (pc t))%nat /\
    slept evs = 1000 * Z.of_nat (usleeps evs).
Proof.
  intros Hs Ht H. unfold worker_step in H.
  apply bind_inv in H as (t1 & w1 & Hg & H).
  unfold get_thread in Hg. rewrite Ht in Hg. injection Hg as <- <-.
  assert (Hfin : forall n (m : M unit),
             lands tid n (closer (pc t) n) m -> m w = Some (tt, w') ->
             exists t' evs,
               threads w' !! tid = Some t' /\ trace w' = trace w ++ evs /\
               ((rank (pc t') < rank (pc t))%nat \/ (pc t = PcDone /\ pc t' = PcDone)) /\
               (broadcasts evs + usleeps evs + budget (pc t') <= budget (pc t))%nat /\
               slept evs = 1000 * Z.of_nat (usleeps evs)).
  { intros n m Hl Hm.
    destruct (Hl _ _ _ _ Ht Hm) as (l & evs & [Hr Hb] & Ht' & Htr & Hbc & Hu).
    eexists _, evs. split; [exact Ht'|]. split; [exact Htr|]. cbn.
    split; [left; exact Hr|]. split; [lia|].
    rewrite Hu. apply slept_no_usleep. exact Hu. }
  destruct (pc t) eqn:Hpc.
  - (* PcInit *)
    apply (Hfin 0%nat _) in H; [exact H|].
    apply lands_bind0; [apply quiet_init_camera|]. intros r.
    destruct (r <? 0); lands_step.
  - (* PcStart *)
    apply (Hfin 0%nat _) in H; [exact H|].
    pose proof quiet_stop_camera. unfold get_ctx, put_ctx.
    repeat first [lands_step | apply lands_bind0; [assumption|intros ?]].
  - (* PcCheck *)
    apply bind_inv in H as (g & w1 & Hg & H).
    unfold get_globals in Hg. destruct (pglobal w); [|discriminate].
    injection Hg as <- <-.
    destruct (stop (global w) =? 0) eqn:E; [lia|]. cbn [negb] in H.
    apply (Hfin 0%nat _) in H; [exact H|]. lands_step.
  - (* PcPop *)
    apply (Hfin 0%nat _) in H; [exact H|]. unfold put_ctx. repeat lands_step.
  - (* PcProcess *)
    apply (Hfin 1%nat _) in H; [exact H|].
    apply (lands_bind tid 1 0); [apply quiet_process_frame|]. intros _.
    apply lands_goto. split; cbn; lia.
  - (* PcRequeue *)
    apply (Hfin 0%nat _) in H; [exact H|]. repeat lands_step.
  - (* PcSleep *)
    unfold log, goto, get_thread, bind in H. cbn in H. rewrite Ht in H.
    injection H as <-. eexists _, [EvUsleep 1000]. cbn.
    split; [apply list_lookup_insert_eq; eapply lookup_lt_Some; eauto|].
    split; [reflexivity|]. cbn. split; [left; lia|]. split; lia.
  - (* PcCleanup *)
    apply (Hfin 0%nat _) in H; [exact H|].
    apply lands_bind0; [apply quiet_stop_camera|]. intros _. lands_step.
  - (* PcDone *)
    injection H as <-. exists t, []. rewrite app_nil_r, Hpc. cbn.
    split; [exact Ht|]. split; [reflexivity|]. split; [right; auto|]. split; lia.
Qed.

Lemma quiet_discard n {A} (m : M A) : quiet n m -> quiet n (discard m).
Proof.
  intros Hm. unfold discard. replace n with (n + 0)%nat by lia.
  apply quiet_bind; [exact Hm|]. intros a. apply quiet_ret.
Qed.

(** Any interleaving of the worker's steps with what may run beside it,
    once the stop flag is set. *)
Lemma wind_down v tid os : forall w w' t,
  stop (global w) <> 0 -> threads w !! tid = Some t ->
  forallb (concurrent_with tid) os = true ->
  exec_ops jpeg_encode atoi v os w = Some (tt, w') ->
  exists t' evs,
    threads w' !! tid = Some t' /\ trace w' = trace w ++ evs /\
    (rank (pc t') <= rank (pc t) - worker_steps os)%nat /\
    (broadcasts evs + usleeps evs + budget (pc t') <= budget (pc t))%nat /\
    slept evs = 1000 * Z.of_nat (usleeps evs).
Proof.
  induction os as [|o os IH]; intros w w' t Hs Ht Hc H.
  - injection H as <-. exists t, []. rewrite app_nil_r. cbn.
    split; [exact Ht|]. split; [reflexivity|]. split; [lia|]. split; lia.
  - cbn [exec_ops] in H. apply bind_inv in H as ([] & w1 & H1 & H2).
    cbn [forallb] in Hc. apply andb_prop in Hc as [Ho Hc].
    assert (Hs1 : stop (global w1) <> 0).
    { pose proof (exec_op_stop_flag _ _ _ _ _ H1). lia. }
    assert (Hq : forall m : M unit, quiet 0 m -> m w = Some (tt, w1) ->
              exists t' evs,
                threads w' !! tid = Some t' /\ trace w' = trace w ++ evs /\
                (rank (pc t') <= rank (pc t) - worker_steps os)%nat /\
                (broadcasts evs + usleeps evs + budget (pc t') <= budget (pc t))%nat /\
                slept evs = 1000 * Z.of_nat (usleeps evs)).
    { intros m Hm Hr. destruct (Hm _ _ _ Hr) as (Hth & e1 & Htr & Hb & Hu).
      rewrite <- Hth in Ht.
      destruct (IH _ _ _ Hs1 Ht Hc H2) as (t' & e2 & Ht' & Htr' & Hrk & Hbd & Hsl).
      exists t', (e1 ++ e2). split; [exact Ht'|].
      rewrite Htr', Htr, <- app_assoc, broadcasts_app, usleeps_app, slept_app.
      rewrite (slept_no_usleep _ Hu). repeat split; lia. }
    destruct o as [param id|ok id|id|p c g val s|tid' o|r];
      cbn [concurrent_with] in Ho; try discriminate Ho; cbn [exec_op] in H1.
    + destruct (Hq _ (quiet_discard 0 _ (quiet_input_stop id)) H1)
        as (t' & evs & ?). exists t', evs. cbn [worker_steps]. assumption.
    + destruct (Hq _ (quiet_discard 0 _ (quiet_input_cmd p c g val s)) H1)
        as (t' & evs & ?). exists t', evs. cbn [worker_steps]. assumption.
    + apply Nat.eqb_eq in Ho as ->.
      destruct (worker_step_stopped _ _ _ _ _ _ Hs Ht H1)
        as (t1 & e1 & Ht1 & Htr1 & Hrk1 & Hbd1 & Hsl1).
      destruct (IH _ _ _ Hs1 Ht1 Hc H2) as (t' & e2 & Ht' & Htr' & Hrk & Hbd & Hsl).
      exists t', (e1 ++ e2). split; [exact Ht'|].
      rewrite Htr', Htr1, <- app_assoc, broadcasts_app, usleeps_app, slept_app.
      cbn [worker_steps]. split; [reflexivity|].
      split; [destruct Hrk1 as [Hrk1|[Hd1 Hd2]];
              [lia|rewrite Hd1; rewrite Hd2 in Hrk; cbn in *; lia]|].
      split; lia.
    + destruct (Hq _ (quiet_requestComplete r) H1) as (t' & evs & ?).
      exists t', evs. cbn [worker_steps]. assumption.
Qed.

Lemma get_thread_eq w tid t :
  threads w !! tid = Some t -> get_thread tid w = Some (t, w).
Proof. intros H. unfold get_thread. rewrite H. reflexivity. Qed.

Lemma goto_eq w tid l t :
  threads w !! tid = Some t ->
  goto tid l w
  = Some (tt, set_threads (<[tid := mk_thread l (detached t)]> (threads w)) w).
Proof.
  intros H. unfold goto. rewrite (bind_eq _ _ _ _ _ (get_thread_eq _ _ _ H)).
  reflexivity.
Qed.

Lemma moved_thread w tid l t :
  threads w !! tid = Some t ->
  threads (set_threads (<[tid := mk_thread l (detached t)]> (threads w)) w) !! tid
  = Some (mk_thread l (detached t)).
Proof.
  intros H. cbn. apply list_lookup_insert_eq. eapply lookup_lt_Some; eauto.
Qed.

Lemma step_check_stopped v tid o w t :
  pglobal w = true -> stop (global w) <> 0 ->
  threads w !! tid = Some t -> pc t = PcCheck ->
  worker_step jpeg_encode v tid o w
  = Some (tt, set_threads (<[tid := mk_thread PcCleanup (detached t)]> (threads w)) w).
Proof.
  intros Hp Hs Ht Hpc. unfold worker_step.
  rewrite (bind_eq _ _ _ _ _ (get_thread_eq _ _ _ Ht)), Hpc.
  assert (Hg : get_globals w = Some (global w, w)).
  { unfold get_globals. rewrite Hp. reflexivity. }
  rewrite (bind_eq _ _ _ _ _ Hg).
  destruct (stop (global w) =? 0) eqn:E; [lia|]. cbn [negb].
  apply goto_eq. exact Ht.
Qed.

Lemma stop_camera_eq w :
  exists w', stop_camera w = Some (tt, w') /\
             threads w' = threads w /\ trace w' = trace w.
Proof.
  unfold stop_camera, get_ctx, put_ctx, bind, ret.
  destruct (ctx w); eexists; (split; [reflexivity|]); split; reflexivity.
Qed.

Lemma step_cleanup v tid o w t :
  threads w !! tid = Some t -> pc t = PcCleanup ->
  exists w',
    worker_step jpeg_encode v tid o w = Some (tt, w') /\
    threads w' !! tid = Some (mk_thread PcDone (detached t)) /\
    trace w' = trace w.
Proof.
  intros Ht Hpc. unfold worker_step.
  rewrite (bind_eq _ _ _ _ _ (get_thread_eq _ _ _ Ht)), Hpc.
  destruct (stop_camera_eq w) as (w1 & H1 & Hth & Htr).
  rewrite (bind_eq _ _ _ _ _ H1). rewrite <- Hth in Ht.
  rewrite (goto_eq _ _ _ t) by exact Ht. eexists. split; [reflexivity|].
  split; [apply moved_thread; exact Ht|exact Htr].
Qed.

Lemma step_pop_empty v tid o w t c :
  threads w !! tid = Some t -> pc t = PcPop ->
  ctx w = Some c -> completed_requests c = [] ->
  worker_step jpeg_encode v tid o w
  = Some (tt, set_threads (<[tid := mk_thread PcSleep (detached t)]> (threads w)) w).
Proof.
  intros Ht Hpc Hc Hq. unfold worker_step.
  rewrite (bind_eq _ _ _ _ _ (get_thread_eq _ _ _ Ht)), Hpc.
  assert (Hd : deref_ctx w = Some (c, w)).
  { unfold deref_ctx. rewrite Hc. reflexivity. }
  rewrite (bind_eq _ _ _ _ _ Hd), Hq. apply goto_eq. exact Ht.
Qed.

Lemma step_sleep v tid o w t :
  threads w !! tid = Some t -> pc t = PcSleep ->
  exists w',
    worker_step jpeg_encode v tid o w = Some (tt, w') /\
    threads w' !! tid = Some (mk_thread PcCheck (detached t)) /\
    trace w' = trace w ++ [EvUsleep 1000].
Proof.
  intros Ht Hpc. unfold worker_step.
  rewrite (bind_eq _ _ _ _ _ (get_thread_eq _ _ _ Ht)), Hpc.
  assert (Hl : log (EvUsleep 1000) w
               = Some (tt, set_trace (trace w ++ [EvUsleep 1000]) w)) by reflexivity.
  rewrite (bind_eq _ _ _ _ _ Hl).
  rewrite (goto_eq _ _ _ t) by exact Ht. eexists. split; [reflexivity|].
  split; [|reflexivity]. cbn. apply list_lookup_insert_eq.
  eapply lookup_lt_Some; eauto.
Qed.

Lemma two_steps v tid o1 o2 w w1 w2 :
  worker_step jpeg_encode v tid o1 w = Some (tt, w1) ->
  worker_step jpeg_encode v tid o2 w1 = Some (tt, w2) ->
  exec_ops jpeg_encode atoi v [OpWorker tid o1; OpWorker tid o2] w = Some (tt, w2).
Proof.
  intros H1 H2. cbn [exec_ops exec_op].
  rewrite (bind_eq _ _ _ _ _ H1), (bind_eq _ _ _ _ _ H2). reflexivity.
Qed.

(** At the loop head with the flag set the worker is two steps from
    having returned, and these two steps are always defined. *)
Lemma loop_head_stopped v tid o1 o2 w t :
  pglobal w = true -> stop (global w) <> 0 ->
  threads w !! tid = Some t -> pc t = PcCheck ->
  exists w2,
    exec_ops jpeg_encode atoi v [OpWorker tid o1; OpWorker tid o2] w = Some (tt, w2) /\
    threads w2 !! tid = Some (mk_thread PcDone (detached t)) /\
    trace w2 = trace w.
Proof.
  intros Hp Hs Ht Hpc.
  pose proof (step_check_stopped v tid o1 w t Hp Hs Ht Hpc) as H1.
  destruct (step_cleanup v tid o2 _ _ (moved_thread w tid PcCleanup t Ht) eq_refl)
    as (w2 & H2 & Ht2 & Htr2).
  exists w2. split; [exact (two_steps _ _ _ _ _ _ _ H1 H2)|].
  split; [exact Ht2|exact Htr2].
Qed.

(** With the flag clear and no completed request pending, the worker
    sleeps for 1000 microseconds and is back at the loop head. *)
Lemma idle_iteration v tid o1 o2 w t c :
  threads w !! tid = Some t -> pc t = PcPop ->
  ctx w = Some c -> completed_requests c = [] ->
  exists w2,
    exec_ops jpeg_encode atoi v [OpWorker tid o1; OpWorker tid o2] w = Some (tt, w2) /\
    threads w2 !! tid = Some (mk_thread PcCheck (detached t)) /\
    trace w2 = trace w ++ [EvUsleep 1000].
Proof.
  intros Ht Hpc Hc Hq.
  pose proof (step_pop_empty v tid o1 w t c Ht Hpc Hc Hq) as H1.
  destruct (step_sleep v tid o2 _ _ (moved_thread w tid PcSleep t Ht) eq_refl)
    as (w2 & H2 & Ht2 & Htr2).
  exists w2. split; [exact (two_steps _ _ _ _ _ _ _ H1 H2)|].
  split; [exact Ht2|exact Htr2].
Qed.

(** C7.  The capture loop reads the stop flag at its head.  (1) With no
    completed request pending, an iteration consists of one [usleep] of
    1000 microseconds, after which the worker is back at the head.
    (2) With the flag set, a worker at the head has returned after two
    steps, publishing nothing and sleeping not at all.  (3) Wherever the
    worker stands when the flag is set, and whatever runs beside it
    (completion callbacks, [input_stop], [input_cmd]), from then on it
    publishes at most one frame or sleeps at most once, never both, each
    sleep lasting 1000 microseconds, and it has returned once it has taken
    five steps. *)
Theorem C7_capture_loop_winds_down v tid w t :
  threads w !! tid = Some t ->
  (forall o1 o2 c,
      pc t = PcPop -> ctx w = Some c -> completed_requests c = [] ->
      exists w2,
        exec_ops jpeg_encode atoi v [OpWorker tid o1; OpWorker tid o2] w
          = Some (tt, w2) /\
        threads w2 !! tid = Some (mk_thread PcCheck (detached t)) /\
        trace w2 = trace w ++ [EvUsleep 1000]) /\
  (forall o1 o2,
      pglobal w = true -> stop (global w) <> 0 -> pc t = PcCheck ->
      exists w2,
        exec_ops jpeg_encode atoi v [OpWorker tid o1; OpWorker tid o2] w
          = Some (tt, w2) /\
        threads w2 !! tid = Some (mk_thread PcDone (detached t)) /\
        trace w2 = trace w) /\
  (forall os w',
      stop (global w) <> 0 ->
      forallb (concurrent_with tid) os = true ->
      exec_ops jpeg_encode atoi v os w = Some (tt, w') ->
      exists t' evs,
        threads w' !! tid = Some t' /\ trace w' = trace w ++ evs /\
        (broadcasts evs + usleeps evs <= 1)%nat /\
        slept evs = 1000 * Z.of_nat (usleeps evs) /\
        ((5 <= worker_steps os)%nat -> pc t' = PcDone)).
Proof.
  intros Ht. split; [|split].
  - intros o1 o2 c Hpc Hc Hq. eapply idle_iteration; eauto.
  - intros o1 o2 Hp Hs Hpc. apply loop_head_stopped; auto.
  - intros os w' Hs Hc H.
    destruct (wind_down _ _ _ _ _ _ Hs Ht Hc H) as (t' & evs & Ht' & Htr & Hrk & Hbd & Hsl).
    exists t', evs. split; [exact Ht'|]. split; [exact Htr|].
    assert (budget (pc t) <= 1)%nat by (destruct (pc t); cbn; lia).
    split; [lia|]. split; [exact Hsl|].
    intros H5. apply rank_zero.
    assert (rank (pc t) <= 5)%nat by (destruct (pc t); cbn; lia). lia.
Qed.

(** ** C9: rgb_to_jpeg *)


Lemma fresh_after_insert (h : gmap addr (list byte)) (a : addr) (blk : list byte) :
  fresh (dom (<[a := blk]> h)) <> a /\ h !! fresh (dom (<[a := blk]> h)) = None.
Proof.
  pose proof (is_fresh (dom (<[a := blk]> h))) as Hf.
  split.
  - intros E. apply Hf. rewrite E. apply elem_of_dom.
    rewrite lookup_insert_eq. eauto.
  - destruct (h !! fresh (dom (<[a := blk]> h))) as [x|] eqn:Hx; [|reflexivity].
    exfalso. apply Hf. apply elem_of_dom.
    destruct (decide (a = fresh (dom (<[a := blk]> h)))) as [E|E].
    + rewrite <- E. rewrite lookup_insert_eq. eauto.
    + rewrite lookup_insert_ne by exact E. rewrite Hx. eauto.
Qed.








End Properties.


(** * The theorems at concrete inputs *)

Example copy_frame_publishes :
  copy_frame true (mk_timeval 5 6) [x01; x02; x03] 3 idle_world
  = Some (tt, after_publish idle_world (mk_input None 0 t0 []) (mk_timeval 5 6)
                [x01; x02; x03] 3).
Proof. vm_compute. reflexivity. Qed.

Example rgb_to_jpeg_sample :
  exists w',
    rgb_to_jpeg rows_encoder true (Some sample_image) 2 2 idle_world
    = Some ((0, Some 1%N, 12), w') /\
    heap w' !! 1%N = Some [x00; x00; xff; x00; xff; x00;
                           xff; x00; x00; x80; x80; x80].
Proof. eexists. split; vm_compute; reflexivity. Qed.

Example input_init_reads_fps :
  exists w',
    input_init toy_atoi Software
      (mk_param [None; Some "-fps"; Some "15"]%string true) 1 idle_world
    = Some (0, w') /\
    fps (params w') = 15 /\ plugin_number w' = 1.
Proof. eexists. split; [vm_compute; reflexivity|]. split; reflexivity. Qed.

Example worker_publishes_then_returns :
  exists w',
    exec_ops rows_encoder toy_atoi Mjpeg five_steps stopping_world = Some (tt, w') /\
    channel w' = Some (mk_input (Some 0%N) 4 (mk_timeval 7 0) []) /\
    heap w' !! 0%N = Some [xff; xd8; xff; xd9] /\
    threads w' = [mk_thread PcDone true] /\
    trace w' = [EvLock 0; EvMalloc 4 (Some 0%N); EvBroadcast 0; EvUnlock 0].
Proof. eexists. split; [vm_compute; reflexivity|]. repeat split. Qed.

Example short_plane_is_read_through_its_page :
  exists w',
    process_frame_software rows_encoder all_ok [mk_plane 12 page_of_sample 12]
      small_world = Some (tt, w') /\
    holds_frame w' [x00; x00; xff; x00; xff; x00; xff; x00; x00; x80; x80; x80].
Proof.
  eexists. split; [vm_compute; reflexivity|].
  eexists. split; [vm_compute; reflexivity|]. split; vm_compute; reflexivity.
Qed.

Example input_init_missing_value :
  exists w',
    input_init toy_atoi Mjpeg (mk_param [Some "-x"]%string true) 0 idle_world
    = Some (1, w').
Proof. eexists. vm_compute. reflexivity. Qed.

Lemma C2_witness :
  channel_ready one_frame_world (mk_input (Some 0%N) 3 (mk_timeval 5 6) []) /\
  0 <= 2 <= Z.of_nat (length [x0a; x0b]) /\
  exists w' a,
    copy_frame true (mk_timeval 7 0) [x0a; x0b] 2 one_frame_world = Some (tt, w') /\
    heap_free (Some 0%N) (heap one_frame_world) !! a = None /\
    channel w' = Some (mk_input (Some a) 2 (mk_timeval 7 0) []) /\
    heap w' !! a = Some (take (Z.to_nat 2) [x0a; x0b]) /\
    exists w0',
      copy_frame true (mk_timeval 7 0) [x0a; x0b] 2 idle_world = Some (tt, w0') /\
      channel w0' = channel w'.
Proof.
  assert (Hr : channel_ready one_frame_world (mk_input (Some 0%N) 3 (mk_timeval 5 6) [])).
  { repeat split. - simpl. lia. - exists [x01; x02; x03]. reflexivity. }
  assert (Hr0 : channel_ready idle_world (mk_input None 0 t0 [])).
  { repeat split. simpl. lia. }
  assert (Hl : 0 <= 2 <= Z.of_nat (length [x0a; x0b])) by (simpl; lia).
  assert (Hd : dom (heap_free (buf (mk_input None 0 t0 [])) (heap idle_world))
               = dom (heap_free (buf (mk_input (Some 0%N) 3 (mk_timeval 5 6) []))
                        (heap one_frame_world))).
  { cbn. rewrite delete_singleton_eq. reflexivity. }
  split; [exact Hr|]. split; [exact Hl|].
  destruct (C2_publish_stores_no_sequence_number one_frame_world _
              (mk_timeval 7 0) [x0a; x0b] 2 Hr Hl)
    as (w' & a & Hc & Hfresh & Hch & Hh & Hind).
  exists w', a. split; [exact Hc|]. split; [exact Hfresh|]. split; [exact Hch|].
  split; [exact Hh|].
  exact (Hind idle_world (mk_input None 0 t0 []) Hr0 eq_refl Hd).
Defined.

Lemma C3_witness :
  exec_ops rows_encoder toy_atoi Mjpeg [OpRun true None 0] idle_world
    = Some (tt, activated_world) /\
  worker activated_world = Some 0%nat /\
  threads activated_world !! 0%nat = Some (mk_thread PcInit true) /\
  pglobal activated_world = true /\
  (exists w',
     input_stop 0 activated_world = Some (0, w') /\
     stop (global w') = 1 /\
     trace w' = trace activated_world ++ [EvJoin 1]) /\
  input_stop 0 (host_sets_stop activated_world)
    = Some (0, host_sets_stop activated_world).
Proof.
  split; [vm_compute; reflexivity|]. split; [reflexivity|]. split; [reflexivity|].
  split; [reflexivity|].
  destruct (C3_input_stop_behaviour 0 activated_world eq_refl) as [_ Hclear].
  destruct (C3_input_stop_behaviour 0 (host_sets_stop activated_world) eq_refl)
    as [Hset _].
  split.
  - destruct (Hclear eq_refl) as (w' & H1 & H2 & H3 & _).
    exists w'. split; [exact H1|]. split; [exact H2|exact H3].
  - apply Hset. simpl. lia.
Defined.

Lemma C4_witness :
  channel_ready one_frame_world (mk_input (Some 0%N) 3 (mk_timeval 5 6) []) /\
  0 <= 1 <= Z.of_nat (length [xff]) /\
  exists w',
    copy_frame true (mk_timeval 9 9) [xff] 1 one_frame_world = Some (tt, w') /\
    holds_frame w' (take (Z.to_nat 1) [xff]) /\
    broadcasts (trace w') = S (broadcasts (trace one_frame_world)).
Proof.
  assert (Hr : channel_ready one_frame_world (mk_input (Some 0%N) 3 (mk_timeval 5 6) [])).
  { repeat split. - simpl. lia. - exists [x01; x02; x03]. reflexivity. }
  assert (Hl : 0 <= 1 <= Z.of_nat (length [xff])) by (simpl; lia).
  split; [exact Hr|]. split; [exact Hl|].
  exact (C4_publish_is_unconditional one_frame_world _ (mk_timeval 9 9) [xff] 1 Hr Hl).
Defined.

Lemma C6_witness :
  exec_ops rows_encoder toy_atoi Mjpeg startup_and_stop idle_world
    = Some (tt, after_startup) /\
  exec_ops rows_encoder toy_atoi Mjpeg later_activity after_startup
    = Some (tt, after_activity) /\
  (stop (global idle_world) <> 0 \/ exists id, OpStop id ∈ startup_and_stop) /\
  stop (global after_startup) <> 0 /\ stop (global after_activity) <> 0.
Proof.
  assert (H1 : exec_ops rows_encoder toy_atoi Mjpeg startup_and_stop idle_world
               = Some (tt, after_startup)) by (vm_compute; reflexivity).
  assert (H2 : exec_ops rows_encoder toy_atoi Mjpeg later_activity after_startup
               = Some (tt, after_activity)) by (vm_compute; reflexivity).
  assert (H3 : stop (global idle_world) <> 0 \/ exists id, OpStop id ∈ startup_and_stop).
  { right. exists 0. unfold startup_and_stop. do 3 apply list_elem_of_further.
    apply list_elem_of_here. }
  split; [exact H1|]. split; [exact H2|]. split; [exact H3|].
  exact (C6_stop_flag_one_way rows_encoder toy_atoi Mjpeg _ _ _ _ _ H1 H2 H3).
Defined.

Lemma C7_witness :
  threads stopping_world !! 0%nat = Some (mk_thread PcPop true) /\
  exists w' t' evs,
    exec_ops rows_encoder toy_atoi Mjpeg five_steps stopping_world = Some (tt, w') /\
    threads w' !! 0%nat = Some t' /\
    trace w' = trace stopping_world ++ evs /\
    (broadcasts evs + usleeps evs <= 1)%nat /\
    slept evs = 1000 * Z.of_nat (usleeps evs) /\
    pc t' = PcDone.
Proof.
  assert (Ht : threads stopping_world !! 0%nat = Some (mk_thread PcPop true))
    by reflexivity.
  split; [exact Ht|].
  assert (H : exec_ops rows_encoder toy_atoi Mjpeg five_steps stopping_world
              = Some (tt, _)) by (vm_compute; reflexivity).
  destruct (C7_capture_loop_winds_down rows_encoder toy_atoi Mjpeg 0 stopping_world
              _ Ht) as (_ & _ & H3).
  assert (Hs : stop (global stopping_world) <> 0) by (simpl; lia).
  destruct (H3 five_steps _ Hs eq_refl H) as (t' & evs & Ht' & Htr & Hb & Hsl & Hd).
  eexists _, t', evs. split; [exact H|]. split; [exact Ht'|]. split; [exact Htr|].
  split; [exact Hb|]. split; [exact Hsl|]. apply Hd. simpl. lia.
Defined.

Lemma C8_witness :
  channel_ready one_frame_world (mk_input (Some 0%N) 3 (mk_timeval 5 6) []) /\
  0 <= 1 <= Z.of_nat (length [xff]) /\
  exists w' evs,
    copy_frame true (mk_timeval 9 9) [xff] 1 one_frame_world = Some (tt, w') /\
    trace w' = trace one_frame_world ++ evs /\
    in_ (global w') !! 1%nat = Some (mk_input None 0 t0 []) /\
    stop (global w') = 0.
Proof.
  assert (Hr : channel_ready one_frame_world (mk_input (Some 0%N) 3 (mk_timeval 5 6) [])).
  { repeat split. - simpl. lia. - exists [x01; x02; x03]. reflexivity. }
  assert (Hl : 0 <= 1 <= Z.of_nat (length [xff])) by (simpl; lia).
  split; [exact Hr|]. split; [exact Hl|].
  destruct (C8_publish_touches_only_its_channel true (mk_timeval 9 9) [xff] 1
              one_frame_world _ Hr Hl)
    as (w' & evs & Hc & Htr & _ & Hother & _ & _ & Hstop & _).
  exists w', evs. split; [exact Hc|]. split; [exact Htr|].
  split; [rewrite (Hother 1%nat) by (simpl; lia); reflexivity|].
  rewrite Hstop. reflexivity.
Defined.


Lemma C10_witness :
  channel_ready one_frame_world (mk_input (Some 0%N) 3 (mk_timeval 5 6) []) /\
  first_run one_frame_world <> 0 /\
  exists w1,
    repeat_m 3 worker_cleanup one_frame_world = Some (tt, w1) /\
    channel w1 = Some (mk_input None 3 (mk_timeval 5 6) []) /\
    trace w1 = [EvFree 0%N].
Proof.
  assert (Hr : channel_ready one_frame_world (mk_input (Some 0%N) 3 (mk_timeval 5 6) [])).
  { repeat split. - simpl. lia. - exists [x01; x02; x03]. reflexivity. }
  assert (Hf : first_run one_frame_world <> 0) by (simpl; lia).
  split; [exact Hr|]. split; [exact Hf|].
  destruct (C10_worker_cleanup_idempotent 2 one_frame_world _ Hr Hf)
    as (w1 & _ & _ & Htr & Hch & _ & Hrep & _).
  exists w1. split; [exact Hrep|]. split; [exact Hch|exact Htr].
Defined.

(** * Further properties of the plugin *)

(** ** Publishing: lock discipline, sequences, memory *)

Lemma heap_free_live_insert (h : gmap addr (list byte)) (bs : list byte) :
  delete (fresh (dom h)) (<[fresh (dom h) := bs]> h) = h.
Proof.
  apply delete_insert_id. apply (not_elem_of_dom h). apply is_fresh.
Qed.

(** X1.  Whatever [malloc] answers, a call of [copy_frame] takes the
    channel's mutex first, releases it last, and takes or releases no
    mutex in between: it never returns holding the lock. *)
Theorem X1_copy_frame_releases_lock ok now buffer len w c :
  channel_ready w c -> 0 <= len <= Z.of_nat (length buffer) ->
  exists w' mid,
    copy_frame ok now buffer len w = Some (tt, w') /\
    trace w' = trace w ++ EvLock (plugin_number w) :: mid
                 ++ [EvUnlock (plugin_number w)] /\
    forallb (fun e => negb (is_lock_event e)) mid = true.
Proof.
  intros Hr Hlen. destruct ok.
  - eexists _, (ev_free (buf c) ++ [EvMalloc len (Some _); EvBroadcast _]).
    split; [apply copy_frame_published; eauto|].
    unfold after_publish. cbn [trace set_trace]. split.
    + rewrite <- !app_assoc. reflexivity.
    + destruct (buf c); reflexivity.
  - eexists _, (ev_free (buf c) ++ [EvMalloc len None]).
    split; [apply copy_frame_failed; eauto|].
    unfold after_failed_publish. cbn [trace set_trace]. split.
    + rewrite <- !app_assoc. reflexivity.
    + destruct (buf c); reflexivity.
Qed.

(** One attempt on a ready channel: it is defined, the channel is ready
    again, and the heap outside the frame store is as before. *)
Lemma publish_step a w c :
  channel_ready w c ->
  exists w' c',
    publish a w = Some (tt, w') /\
    channel_ready w' c' /\
    foreign_heap w' c' = foreign_heap w c /\
    match a with
    | (true, now, bs) =>
        stored_bytes w' c' = Some bs /\ size c' = Z.of_nat (length bs)
        /\ timestamp c' = now
    | (false, _, _) =>
        buf c' = None /\ size c' = size c /\ timestamp c' = timestamp c
    end.
Proof.
  intros Hr. destruct a as [[ok now] bs]. unfold publish.
  assert (Hlen : 0 <= Z.of_nat (length bs) <= Z.of_nat (length bs)) by lia.
  pose proof Hr as (Hp & Hi & Hc & Hl).
  assert (Hlt : (Z.to_nat (plugin_number w) < length (in_ (global w)))%nat)
    by (eapply lookup_lt_Some; eauto).
  destruct ok.
  - exists (after_publish w c now bs (Z.of_nat (length bs))),
      (mk_input (Some (fresh (dom (heap_free (buf c) (heap w)))))
                (Z.of_nat (length bs)) now (in_other c)).
    split; [apply copy_frame_published; eauto|].
    unfold after_publish, channel_ready, foreign_heap, stored_bytes, live.
    cbn [pglobal plugin_number global heap set_trace set_heap with_in set_global
         in_ buf size timestamp].
    split; [|split; [|split; [|split]]].
    + split; [exact Hp|]. split; [exact Hi|]. split.
      * apply list_lookup_insert_eq. exact Hlt.
      * rewrite lookup_insert_eq. eauto.
    + apply heap_free_live_insert.
    + rewrite lookup_insert_eq, Nat2Z.id, take_ge by lia. reflexivity.
    + reflexivity.
    + reflexivity.
  - exists (after_failed_publish w c (Z.of_nat (length bs))),
      (mk_input None (size c) (timestamp c) (in_other c)).
    split; [apply copy_frame_failed; eauto|].
    unfold after_failed_publish, channel_ready, foreign_heap, live.
    cbn [pglobal plugin_number global heap set_trace set_heap with_in set_global
         in_ buf size timestamp].
    split; [|split; [|repeat split]].
    + split; [exact Hp|]. split; [exact Hi|]. split; [|exact I].
      apply list_lookup_insert_eq. exact Hlt.
    + reflexivity.
Qed.

Lemma publish_all_ready fs : forall w c,
  channel_ready w c ->
  exists w' c',
    publish_all fs w = Some (tt, w') /\ channel_ready w' c' /\
    foreign_heap w' c' = foreign_heap w c.
Proof.
  induction fs as [|a fs IH]; intros w c Hr.
  - exists w, c. split; [reflexivity|]. split; [exact Hr|reflexivity].
  - destruct (publish_step a w c Hr) as (w1 & c1 & H1 & Hr1 & Hf1 & _).
    destruct (IH w1 c1 Hr1) as (w' & c' & H2 & Hr' & Hf').
    exists w', c'. cbn [publish_all]. rewrite (bind_eq _ _ _ _ _ H1).
    split; [exact H2|]. split; [exact Hr'|]. congruence.
Qed.

Lemma publish_all_app fs1 fs2 w w1 :
  publish_all fs1 w = Some (tt, w1) ->
  publish_all (fs1 ++ fs2) w = publish_all fs2 w1.
Proof.
  revert w. induction fs1 as [|a fs1 IH]; intros w H.
  - injection H as <-. reflexivity.
  - cbn [publish_all app] in *. apply bind_inv in H as ([] & w0 & Ha & H).
    rewrite (bind_eq _ _ _ _ _ Ha). apply IH. exact H.
Qed.

(** X2.  Any sequence of publish attempts on a ready channel is defined,
    whatever [malloc] answers to each, and the store shows the outcome of
    the last attempt alone: if its allocation succeeded the store holds
    exactly its bytes, with its length and its timestamp; if it failed the
    buffer pointer is null.  Earlier frames leave no trace in the store. *)
Theorem X2_last_publish_wins fs ok now bs w c :
  channel_ready w c ->
  exists w' c',
    publish_all (fs ++ [(ok, now, bs)]) w = Some (tt, w') /\
    channel w' = Some c' /\
    if ok then
      stored_bytes w' c' = Some bs /\ size c' = Z.of_nat (length bs)
      /\ timestamp c' = now
    else buf c' = None.
Proof.
  intros Hr.
  destruct (publish_all_ready fs w c Hr) as (w1 & c1 & H1 & Hr1 & _).
  destruct (publish_step (ok, now, bs) w1 c1 Hr1) as (w' & c' & H2 & Hr' & _ & Hlast).
  exists w', c'. rewrite (publish_all_app _ _ _ _ H1). cbn [publish_all].
  rewrite (bind_eq _ _ _ _ _ H2). split; [reflexivity|].
  split; [apply Hr'|]. destruct ok; [exact Hlast|apply Hlast].
Qed.

(** X3.  Over any sequence of publish attempts the plugin's frame store
    owns at most the one block its buffer points to: every other block of
    the heap is exactly as before (nothing leaks, nothing foreign is
    freed), and the buffer pointer is null or points to a live block. *)
Theorem X3_publishing_never_leaks fs w c :
  channel_ready w c ->
  exists w' c',
    publish_all fs w = Some (tt, w') /\
    channel w' = Some c' /\ live w' (buf c') /\
    heap_free (buf c') (heap w') = heap_free (buf c) (heap w).
Proof.
  intros Hr.
  destruct (publish_all_ready fs w c Hr) as (w' & c' & H & Hr' & Hf).
  exists w', c'. split; [exact H|]. split; [apply Hr'|]. split; [apply Hr'|exact Hf].
Qed.

(** ** Processing a frame: the MJPEG variant *)

(** X4.  In the MJPEG variant a processed frame whose mapping and
    allocation succeed is published as the first [bytesused] bytes of the
    first plane, not the whole mapping; the store's size is [bytesused]
    and its timestamp the time of the call.  Further planes are ignored. *)
Theorem X4_mjpeg_publishes_bytes_used o pl rest w c :
  channel_ready w c ->
  o_mmap_ok o = true -> o_frame_ok o = true ->
  0 <= bytesused pl <= Z.of_nat (length (plane_mem pl)) ->
  exists w' c',
    process_frame_mjpeg o (pl :: rest) w = Some (tt, w') /\
    channel w' = Some c' /\
    stored_bytes w' c' = Some (take (Z.to_nat (bytesused pl)) (plane_mem pl)) /\
    size c' = bytesused pl /\ timestamp c' = o_now o.
Proof.
  intros Hr Hm Hf Hlen. unfold process_frame_mjpeg. cbn [lookup list_lookup].
  rewrite Hm, Hf. cbn [negb].
  rewrite (copy_frame_published w c (o_now o) _ _ Hr Hlen).
  destruct (after_publish_holds w c (o_now o) _ _ Hr Hlen) as [Hch _].
  eexists _, _. split; [reflexivity|]. split; [exact Hch|].
  split; [|split; reflexivity].
  unfold stored_bytes, after_publish. cbn. apply lookup_insert_eq.
Qed.


(** ** The pixel loop and the encoder call *)

Lemma swap_rb_twice n : forall px,
  length px = (3 * n)%nat -> swap_rb (swap_rb px) = px.
Proof.
  induction n as [|n IH]; intros px H.
  - destruct px; [reflexivity|discriminate].
  - destruct px as [|b0 [|b1 [|b2 px]]]; try (cbn in H; lia).
    cbn. rewrite IH by (cbn in H; lia). reflexivity.
Qed.

Lemma image_row_whole (row : list byte) (w : nat) :
  length row = (3 * w)%nat -> image_row row w 0 = row.
Proof. intros H. unfold image_row. cbn [Nat.mul drop]. apply take_ge. lia. Qed.

(** X6.  The pixel loop of [rgb_to_jpeg] is its own inverse: run over a
    row of [w] pixels it is defined, keeps the row's length, and run again
    over its own output it gives back the row it started from, whatever
    the line buffers held before. *)
Theorem X6_pixel_loop_is_an_involution (w : nat) (row line1 line2 : list byte) :
  length row = (3 * w)%nat ->
  length line1 = (3 * w)%nat -> length line2 = (3 * w)%nat ->
  exists row',
    swap_loop w 0 0 row line1 = Some row' /\
    length row' = length row /\
    swap_loop w 0 0 row' line2 = Some row.
Proof.
  intros Hrow H1 H2.
  pose proof (swap_loop_row row w 0 line1) as Ha.
  rewrite image_row_whole in Ha by exact Hrow.
  cbn [Nat.mul Z.of_nat] in Ha.
  assert (Hl : length (swap_rb row) = (3 * w)%nat).
  { rewrite (length_swap_rb w) by exact Hrow. exact Hrow. }
  exists (swap_rb row). split; [apply Ha; [cbn; lia|exact H1]|].
  split; [lia|].
  pose proof (swap_loop_row (swap_rb row) w 0 line2) as Hb.
  rewrite image_row_whole in Hb by exact Hl.
  cbn [Nat.mul Z.of_nat] in Hb.
  rewrite (swap_rb_twice w) in Hb by exact Hrow.
  apply Hb; [cbn; lia|exact H2].
Qed.

(** A row that reaches past the end of the input cannot be read. *)
Lemma swap_loop_short n : forall src dst data line,
  0 <= src -> (1 <= n)%nat ->
  Z.of_nat (length data) < src + 3 * Z.of_nat n ->
  swap_loop n src dst data line = None.
Proof.
  induction n as [|n IH]; intros src dst data line Hs Hn Hlen; [lia|].
  cbn [swap_loop]. unfold rd.
  rewrite !(proj2 (Z.leb_le _ _)) by lia.
  destruct (data !! Z.to_nat (src + 2)) as [b2|] eqn:E2; [|reflexivity].
  apply lookup_lt_Some in E2.
  destruct (data !! Z.to_nat (src + 1)) as [b1|] eqn:E1; [|reflexivity].
  destruct (data !! Z.to_nat src) as [b0|] eqn:E0; [|reflexivity].
  destruct (wr line dst b2) as [l1|]; [|reflexivity].
  destruct (wr l1 (dst + 1) b1) as [l2|]; [|reflexivity].
  destruct (wr l2 (dst + 2) b0) as [l3|]; [|reflexivity].
  apply IH; lia.
Qed.

Lemma scan_loop_overrun data (W H : nat) q (bad : nat) : forall k y rows line fuel,
  (y + k = H)%nat -> (1 <= W)%nat -> (y <= bad < H)%nat ->
  Z.of_nat (length data)
  < row_offset (Z.of_nat W) (Z.of_nat bad) + Z.of_nat W * 3 ->
  length line = (3 * W)%nat ->
  scan_loop fuel data (Z.of_nat W)
            (mk_cinfo (Z.of_nat W) (Z.of_nat H) 3 q (Z.of_nat y) rows) line
  = None.
Proof.
  induction k as [|k IH]; intros y rows line fuel Hy HW Hbad Hshort Hl; [lia|].
  destruct fuel as [|fuel]; cbn [scan_loop next_scanline image_height];
    rewrite (proj2 (Z.ltb_lt _ _)) by lia; [reflexivity|].
  pose proof (row_offset_bounds (Z.of_nat W) (Z.of_nat y)) as Hb.
  assert (Hsrc : (Z.of_nat y * Z.of_nat W * 3) mod 2 ^ 32
                 = Z.of_nat (Z.to_nat (row_offset (Z.of_nat W) (Z.of_nat y)))).
  { rewrite Z2Nat.id by lia. reflexivity. }
  rewrite Hsrc, Nat2Z.id.
  set (off := Z.to_nat (row_offset (Z.of_nat W) (Z.of_nat y))) in *.
  destruct (le_lt_dec (off + 3 * W) (length data)) as [Hfit|Hover].
  - rewrite (swap_loop_at data W off line) by assumption.
    assert (Hrow : length (swap_rb (take (3 * W) (drop off data))) = (3 * W)%nat).
    { rewrite (length_swap_rb W); rewrite length_take, length_drop; lia. }
    unfold jpeg_write_scanlines. cbn [image_width image_height input_components
      jpeg_quality next_scanline scanlines].
    replace (Z.of_nat y + 1) with (Z.of_nat (S y)) by lia.
    apply IH; try assumption; try lia.
    destruct (Nat.eq_dec bad y) as [->|Hne]; [|lia].
    exfalso. unfold off in Hfit. lia.
  - rewrite swap_loop_short; [reflexivity|lia|lia|lia].
Qed.

(** ** The completion callback *)

Lemma set_ctx_twice a b w : set_ctx a (set_ctx b w) = set_ctx a w.
Proof. destruct w; reflexivity. Qed.

Lemma run_callbacks_no_ctx rs w :
  ctx w = None -> run_callbacks rs w = Some (tt, w).
Proof.
  intros Hc. induction rs as [|r rs IH]; [reflexivity|]. cbn [run_callbacks].
  assert (H1 : requestComplete r w = Some (tt, w)).
  { unfold requestComplete, get_ctx, bind. rewrite Hc. reflexivity. }
  rewrite (bind_eq _ _ _ _ _ H1). exact IH.
Qed.

Lemma run_callbacks_append rs : forall w c,
  ctx w = Some c ->
  run_callbacks rs w
  = Some (tt, set_ctx (Some (mk_ctx (completed_requests c ++ List.filter is_complete rs)
                                    (running c))) w).
Proof.
  induction rs as [|r rs IH]; intros w c Hc.
  - cbn [run_callbacks List.filter]. rewrite app_nil_r.
    destruct w, c. cbn in Hc. subst. reflexivity.
  - cbn [run_callbacks List.filter]. unfold is_complete at 1.
    destruct (req_status r) eqn:Hs.
    + set (c1 := mk_ctx (completed_requests c ++ [r]) (running c)).
      assert (H1 : requestComplete r w = Some (tt, set_ctx (Some c1) w)).
      { unfold requestComplete, get_ctx, put_ctx, bind. rewrite Hc, Hs. reflexivity. }
      rewrite (bind_eq _ _ _ _ _ H1).
      rewrite (IH (set_ctx (Some c1) w) c1 eq_refl).
      rewrite set_ctx_twice. cbn [c1 completed_requests running].
      rewrite <- app_assoc. reflexivity.
    + assert (H1 : requestComplete r w = Some (tt, w)).
      { unfold requestComplete, get_ctx, bind, ret. rewrite Hc, Hs. reflexivity. }
      rewrite (bind_eq _ _ _ _ _ H1). apply IH. exact Hc.
Qed.

(** X11.  The completion callback queues requests in arrival order and
    drops cancelled ones: run for a list of requests while the camera
    context exists, it appends exactly the completed requests of the
    list, in order, behind what was queued, and touches nothing else; when
    there is no camera context it does nothing at all. *)
Theorem X11_callbacks_queue_in_order rs w :
  (ctx w = None -> run_callbacks rs w = Some (tt, w)) /\
  (forall c, ctx w = Some c ->
     exists w',
       run_callbacks rs w = Some (tt, w') /\
       ctx w' = Some (mk_ctx (completed_requests c ++ List.filter is_complete rs)
                             (running c)) /\
       global w' = global w /\ heap w' = heap w /\
       threads w' = threads w /\ trace w' = trace w).
Proof.
  split; [apply run_callbacks_no_ctx|].
  intros c Hc. eexists. split; [apply run_callbacks_append; exact Hc|].
  repeat split; reflexivity.
Qed.

(** ** input_stop and input_run *)



(** X13.  [input_run] empties channel [id] by overwriting its buffer
    pointer and size; it frees nothing, so the heap is as before.  When
    the thread is created the call returns 0, the new thread stands
    detached at the entry of [worker_thread], [worker] names it and the
    threads that existed are untouched. *)
Theorem X13_input_run_starts_worker junk id w c :
  pglobal w = true -> 0 <= id -> in_ (global w) !! Z.to_nat id = Some c ->
  exists w1,
    input_run true junk id w = Some (0, w1) /\
    in_ (global w1) !! Z.to_nat id = Some (mk_input None 0 (timestamp c) (in_other c)) /\
    heap w1 = heap w /\ frees (trace w1) = frees (trace w) /\
    threads w1 = threads w ++ [mk_thread PcInit true] /\
    worker w1 = Some (length (threads w)) /\
    stop (global w1) = stop (global w).
Proof.
  intros Hp Hi Hc. unfold input_run.
  assert (Hlt : (Z.to_nat id < length (in_ (global w)))%nat)
    by (eapply lookup_lt_Some; eauto).
  rewrite (bind_eq _ _ _ _ _ (get_in_eq _ _ _ Hp Hi Hc)).
  erewrite bind_eq by (eapply put_in_eq; eauto).
  erewrite bind_eq.
  2:{ eapply put_in_eq; cbn; eauto. apply list_lookup_insert_eq. exact Hlt. }
  unfold pthread_create, pthread_detach, log, bind, ret. cbn.
  rewrite lookup_app_r by lia. rewrite Nat.sub_diag. cbn.
  eexists. split; [reflexivity|]. cbn.
  split; [rewrite list_insert_insert_eq; apply list_lookup_insert_eq; exact Hlt|].
  split; [reflexivity|]. split; [rewrite !frees_app; cbn; lia|].
  split; [|split; reflexivity].
  rewrite insert_app_r_alt by lia. rewrite Nat.sub_diag. reflexivity.
Qed.

(** X14.  When the thread cannot be created, [input_run] returns -1 with
    no thread made, whatever the failed call has left in the handle
    [worker].  Called for the plugin's own channel it has emptied that
    channel first, so the clean-up it runs finds nothing to free; the
    one-shot flag of [worker_cleanup] is spent afterwards. *)
Theorem X14_input_run_failure junk id w c :
  pglobal w = true -> 0 <= id -> in_ (global w) !! Z.to_nat id = Some c ->
  plugin_number w = id ->
  exists w1,
    input_run false junk id w = Some (-1, w1) /\
    threads w1 = threads w /\
    heap w1 = heap w /\ frees (trace w1) = frees (trace w) /\
    channel w1 = Some (mk_input None 0 (timestamp c) (in_other c)) /\
    first_run w1 = 0.
Proof.
  intros Hp Hi Hc Hn. unfold input_run.
  assert (Hlt : (Z.to_nat id < length (in_ (global w)))%nat)
    by (eapply lookup_lt_Some; eauto).
  rewrite (bind_eq _ _ _ _ _ (get_in_eq _ _ _ Hp Hi Hc)).
  erewrite bind_eq by (eapply put_in_eq; eauto).
  erewrite bind_eq.
  2:{ eapply put_in_eq; cbn; eauto. apply list_lookup_insert_eq. exact Hlt. }
  set (wc := with_in id _ (with_in id _ w)).
  set (w0 := set_worker junk (set_trace (trace wc ++ [EvCreate false]) wc)).
  assert (Hcr : pthread_create false junk wc = Some (false, w0)) by reflexivity.
  rewrite (bind_eq _ _ _ _ _ Hcr). cbn [negb].
  set (c0 := mk_input None 0 (timestamp c) (in_other c)).
  assert (Hr : channel_ready w0 c0).
  { unfold channel_ready. cbn. split; [exact Hp|]. split; [lia|].
    split; [|exact I].
    rewrite Hn, list_insert_insert_eq. apply list_lookup_insert_eq. exact Hlt. }
  assert (Hch : channel w0 = Some c0) by apply Hr.
  destruct (Z.eq_dec (first_run w0) 0) as [Hf|Hf].
  - rewrite (bind_eq _ _ _ _ _ (worker_cleanup_done w0 Hf)).
    eexists. split; [reflexivity|].
    split; [reflexivity|]. split; [reflexivity|].
    split; [cbn; rewrite frees_app; cbn; lia|]. split; [exact Hch|exact Hf].
  - rewrite (bind_eq _ _ _ _ _ (worker_cleanup_first w0 c0 Hr Hf)). cbn [buf c0].
    eexists. split; [reflexivity|].
    split; [reflexivity|]. split; [reflexivity|].
    split; [cbn; rewrite frees_app; cbn; lia|]. split; [exact Hch|reflexivity].
Qed.

Section Coverage.

Variable jpeg_encode : jpeg_compress_struct -> list byte.
Variable atoi : string -> Z.

(** X7.  [rgb_to_jpeg] does not know how many bytes lie behind
    [rgb_data].  For dimensions libjpeg accepts, whenever the
    [img_width * 3] bytes of some row, read at the offset
    [y * img_width * 3] reduced modulo [2 ^ 32] as [unsigned int]
    arithmetic does, do not all lie inside the input, the scanline loop
    reads outside it, which is undefined.  In particular this happens for
    every input shorter than [img_width * img_height * 3] bytes when that
    product is at most [2 ^ 32]. *)
Theorem X7_rgb_to_jpeg_reads_past_short_input data iw ih w :
  1 <= iw <= JPEG_MAX_DIMENSION -> 1 <= ih <= JPEG_MAX_DIMENSION ->
  (exists y, 0 <= y < ih /\
             Z.of_nat (length data) < row_offset iw y + iw * 3) \/
  (ih * iw * 3 <= 2 ^ 32 /\ Z.of_nat (length data) < iw * ih * 3) ->
  rgb_to_jpeg jpeg_encode true (Some data) iw ih w = None.
Proof.
  intros Hw Hh Hbad.
  assert (Hrow : exists y, 0 <= y < ih /\
                   Z.of_nat (length data) < row_offset iw y + iw * 3).
  { destruct Hbad as [Hbad|[H32 Hd]]; [exact Hbad|].
    exists (ih - 1). split; [lia|]. unfold row_offset.
    rewrite Z.mod_small by nia. nia. }
  destruct Hrow as (y & Hy & Hshort).
  unfold rgb_to_jpeg.
  unfold bind at 1, malloc.
  unfold bind at 1, get_params.
  unfold bind at 1, jpeg_start_compress. cbn [image_width image_height].
  rewrite !(proj2 (Z.leb_le _ _)) by lia. cbn [andb]. unfold ret at 1.
  pose proof (scan_loop_overrun data (Z.to_nat iw) (Z.to_nat ih)
                (quality (params w)) (Z.to_nat y) (Z.to_nat ih) 0 []
                (replicate (Z.to_nat (iw * 3)) x00) (Z.to_nat ih)) as Hs.
  rewrite !Z2Nat.id in Hs by lia. change (Z.of_nat 0) with 0 in Hs.
  cbn [params set_trace set_heap].
  rewrite Hs; [reflexivity|lia|lia|lia|lia|].
  rewrite length_replicate. lia.
Qed.

(** X8.  Whenever [rgb_to_jpeg] returns, it returns 0 or -1.  With -1 the
    output pointer and size are as the caller initialised them and the
    heap is as before.  With 0 the output pointer is a block that was not
    live before, the heap differs from the old one by that block alone
    (the line buffer has been freed again), and the output size is the
    length of that block.  The globals are untouched either way. *)
Theorem X8_rgb_to_jpeg_outcomes ok data iw ih w st p n w' :
  rgb_to_jpeg jpeg_encode ok data iw ih w = Some ((st, p, n), w') ->
  global w' = global w /\
  ((st = -1 /\ p = None /\ n = 0 /\ heap w' = heap w) \/
   (st = 0 /\ exists out enc,
       p = Some out /\ heap w !! out = None /\
       heap w' = <[out := enc]> (heap w) /\ n = Z.of_nat (length enc))).
Proof.
  unfold rgb_to_jpeg. destruct data as [data|].
  2:{ intros [= <- <- <- <-]. split; [reflexivity|]. left. auto. }
  destruct ok.
  2:{ unfold bind, malloc, ret. intros [= <- <- <- <-].
      split; [reflexivity|]. left. auto. }
  unfold bind at 1, malloc. unfold bind at 1, get_params.
  unfold bind at 1, jpeg_start_compress.
  destruct (_ && _); [|discriminate]. unfold ret at 1.
  destruct (scan_loop _ _ _ _ _) as [[cinfo' line']|]; [|discriminate].
  unfold bind at 1, jpeg_finish_compress. unfold bind at 1, free.
  cbn [heap set_trace set_heap fst snd].
  set (h := heap w). set (lb := fresh (dom h)).
  set (blk := replicate (Z.to_nat (iw * 3)) x00).
  set (out := fresh (dom (<[lb := blk]> h))).
  destruct (fresh_after_insert h lb blk) as [Hne Hout]. fold out in Hne, Hout.
  rewrite lookup_insert_ne by congruence. rewrite lookup_insert_eq.
  unfold ret. intros [= <- <- <- <-]. cbn [global heap set_trace set_heap].
  split; [reflexivity|]. right. split; [reflexivity|].
  exists out, (jpeg_encode cinfo'). split; [reflexivity|]. split; [exact Hout|].
  split; [|reflexivity].
  rewrite delete_insert_ne by congruence.
  rewrite delete_insert_eq, delete_id; [reflexivity|].
  apply (not_elem_of_dom h). apply is_fresh.
Qed.

(** ** Processing a frame: the software variant *)




(** ** input_init *)

Lemma set_params_same w : set_params (params w) w = w.
Proof. destruct w; reflexivity. Qed.

Lemma take_value_frame argv argc i store w r w' :
  take_value atoi argv argc i store w = Some (r, w') ->
  (r = None \/ r = Some (i + 1)) /\ w' = set_params (params w') w.
Proof.
  unfold take_value. destruct (argc <=? i + 1).
  - intros [= <- <-]. split; [auto|]. symmetry. apply set_params_same.
  - destruct (argv !! Z.to_nat (i + 1)) as [[s|]|]; try discriminate.
    unfold get_params, put_params, bind, ret. intros [= <- <-].
    split; [auto|]. destruct w; reflexivity.
Qed.

Lemma parse_loop_frame v argv argc fuel : forall i w r w',
  parse_loop atoi fuel v argv argc i w = Some (r, w') ->
  (r = 0 \/ r = 1) /\ w' = set_params (params w') w.
Proof.
  assert (Hret : forall (x : Z) w r w', (x = 0 \/ x = 1) -> ret x w = Some (r, w') ->
            (r = 0 \/ r = 1) /\ w' = set_params (params w') w).
  { intros x w r w' Hx [= <- <-]. split; [exact Hx|]. symmetry. apply set_params_same. }
  induction fuel as [|fuel IH]; intros i w r w'; cbn [parse_loop];
    (destruct (i <? argc); [|apply Hret; auto]); [discriminate|].
  assert (Hopt : forall store,
    (r0 <~ take_value atoi argv argc i store ;;
     match r0 with
     | None => ret 1
     | Some i' => parse_loop atoi fuel v argv argc (i' + 1)
     end) w = Some (r, w') ->
    (r = 0 \/ r = 1) /\ w' = set_params (params w') w).
  { intros store H. apply bind_inv in H. destruct H as (r0 & w0 & Ht & Hk).
    apply take_value_frame in Ht. destruct Ht as [_ Hw0].
    assert (Hk' : (r = 0 \/ r = 1) /\ w' = set_params (params w') w0).
    { destruct r0 as [i'|]; [apply (IH _ _ _ _ Hk)|apply (Hret 1); auto]. }
    destruct Hk' as [Hr Hw']. split; [exact Hr|].
    rewrite Hw' at 1. rewrite Hw0. destruct w; reflexivity. }
  destruct (argv !! Z.to_nat i) as [[arg|]|]; [|destruct v; [apply IH|discriminate]|discriminate].
  destruct (is_opt arg "-h" "--help"); [apply Hret; auto|].
  destruct (is_opt arg "-fps" "--framerate"); [apply Hopt|].
  destruct (is_opt arg "-x" "--width"); [apply Hopt|].
  destruct (is_opt arg "-y" "--height"); [apply Hopt|].
  destruct (String.eqb arg "-quality"); [apply Hopt|].
  destruct (String.eqb arg "-camera"); [apply Hopt|].
  apply IH.
Qed.

(** X15.  Whenever [input_init] returns, its result is 0 or 1 and the
    only things it has changed are the plugin's channel index, its
    pointer to the host's globals and the five parsed parameters: the
    globals themselves, the heap, the threads, the camera context and the
    log are as they were. *)
Theorem X15_input_init_footprint v param id w r w' :
  input_init atoi v param id w = Some (r, w') ->
  (r = 0 \/ r = 1) /\
  w' = set_params (params w')
         (set_pglobal (param_global param) (set_plugin_number id w)).
Proof.
  unfold input_init. unfold bind at 1. unfold bind at 1.
  apply parse_loop_frame.
Qed.

Lemma plain_tests s :
  plain (Some s) = true ->
  is_opt s "-h" "--help" = false /\ is_opt s "-fps" "--framerate" = false /\
  is_opt s "-x" "--width" = false /\ is_opt s "-y" "--height" = false /\
  String.eqb s "-quality" = false /\ String.eqb s "-camera" = false.
Proof.
  unfold plain, is_help, takes_value. intros H.
  apply andb_prop in H. destruct H as [H1 H2].
  apply negb_true_iff in H1, H2.
  apply orb_false_elim in H2. destruct H2 as [H2 Hc].
  apply orb_false_elim in H2. destruct H2 as [H2 Hq].
  apply orb_false_elim in H2. destruct H2 as [H2 Hy].
  apply orb_false_elim in H2. destruct H2 as [Hf Hx].
  repeat split; assumption.
Qed.

Lemma parse_loop_skip v argv argc w n : forall fuel i,
  argc = Z.of_nat (length argv) -> 0 <= i ->
  (forall k, (k < n)%nat -> exists s,
     argv !! (Z.to_nat i + k)%nat = Some (Some s) /\ plain (Some s) = true) ->
  parse_loop atoi (n + fuel) v argv argc i w
  = parse_loop atoi fuel v argv argc (i + Z.of_nat n) w.
Proof.
  induction n as [|n IH]; intros fuel i Hargc Hi Hpl.
  - cbn. rewrite Z.add_0_r. reflexivity.
  - destruct (Hpl 0%nat ltac:(lia)) as (s & Hs & Hp). rewrite Nat.add_0_r in Hs.
    apply plain_tests in Hp. destruct Hp as (H1 & H2 & H3 & H4 & H5 & H6).
    assert (Hlt : i < argc).
    { apply lookup_lt_Some in Hs. lia. }
    cbn [Nat.add parse_loop]. rewrite (proj2 (Z.ltb_lt _ _) Hlt), Hs.
    rewrite H1, H2, H3, H4, H5, H6.
    rewrite IH; [f_equal; lia|exact Hargc|lia|].
    intros k Hk. destruct (Hpl (S k) ltac:(lia)) as (s' & Hs' & Hp').
    exists s'. split; [|exact Hp'].
    replace (Z.to_nat (i + 1) + k)%nat with (Z.to_nat i + S k)%nat by lia. exact Hs'.
Qed.

Lemma plain_prefix (pre rest : list (option string)) k :
  Forall (fun a => plain a = true) pre -> (k < length pre)%nat ->
  exists s, (pre ++ rest) !! (Z.to_nat 0 + k)%nat = Some (Some s) /\ plain (Some s) = true.
Proof.
  intros Hall Hk. cbn. rewrite lookup_app_l by exact Hk.
  destruct (lookup_lt_is_Some_2 pre k Hk) as [a Ha].
  pose proof (proj1 (Forall_lookup _ _) Hall k a Ha) as Hp. cbn in Hp.
  destruct a as [s|]; [|discriminate]. exists s. auto.
Qed.

(** X16.  Arguments that [input_init] does not recognise are ignored: when
    no argument is one of its options it returns 0 and the five parameters
    keep their values; only the channel index and the pointer to the
    globals are set. *)
Theorem X16_input_init_ignores_unknown_arguments v args g id w :
  Forall (fun a => plain a = true) args ->
  input_init atoi v (mk_param args g) id w
  = Some (0, set_pglobal g (set_plugin_number id w)).
Proof.
  intros Hall. unfold input_init. unfold bind at 1. unfold bind at 1.
  cbn [argv param_global].
  set (w0 := set_pglobal g _).
  pose proof (parse_loop_skip v args (Z.of_nat (length args)) w0 (length args) 0%nat 0
                eq_refl (Z.le_refl 0)) as Hskip.
  rewrite Nat.add_0_r in Hskip. rewrite Hskip.
  - cbn [parse_loop Z.add]. rewrite Z.ltb_irrefl. reflexivity.
  - intros k Hk. rewrite <- (app_nil_r args). apply plain_prefix; assumption.
Qed.

Lemma take_value_missing argv argc i store w :
  argc <= i + 1 -> take_value atoi argv argc i store w = Some (None, w).
Proof.
  intros H. unfold take_value. rewrite (proj2 (Z.leb_le _ _) H). reflexivity.
Qed.

(** X17.  [input_init] returns 1 without changing a parameter when, after
    arguments it ignores, it meets the help option (whatever follows it,
    null pointers included) or meets as last argument an option that
    needs a value. *)
Theorem X17_input_init_help_or_missing_value v pre o rest g id w :
  Forall (fun a => plain a = true) pre ->
  is_help o = true \/ (takes_value o = true /\ rest = []) ->
  input_init atoi v (mk_param (pre ++ Some o :: rest) g) id w
  = Some (1, set_pglobal g (set_plugin_number id w)).
Proof.
  intros Hall Ho. unfold input_init. unfold bind at 1. unfold bind at 1.
  cbn [argv param_global]. set (w0 := set_pglobal g _).
  rewrite length_app. cbn [length].
  rewrite parse_loop_skip; [|rewrite length_app; reflexivity|lia|].
  2:{ intros k Hk. apply plain_prefix; assumption. }
  cbn [parse_loop]. rewrite Z.add_0_l.
  rewrite (proj2 (Z.ltb_lt _ _)) by (cbn [length]; lia).
  rewrite Nat2Z.id, list_lookup_middle by reflexivity.
  destruct Ho as [Hh|[Hv ->]].
  - unfold is_help in Hh. rewrite Hh. reflexivity.
  - destruct (is_opt o "-h" "--help"); [reflexivity|].
    assert (Hm : forall store,
      take_value atoi (pre ++ [Some o]) (Z.of_nat (length pre + 1))
        (Z.of_nat (length pre)) store w0 = Some (None, w0))
      by (intros store; apply take_value_missing; lia).
    unfold takes_value in Hv.
    destruct (is_opt o "-fps" "--framerate");
      [rewrite (bind_eq _ _ _ _ _ (Hm _)); reflexivity|].
    destruct (is_opt o "-x" "--width");
      [rewrite (bind_eq _ _ _ _ _ (Hm _)); reflexivity|].
    destruct (is_opt o "-y" "--height");
      [rewrite (bind_eq _ _ _ _ _ (Hm _)); reflexivity|].
    destruct (String.eqb o "-quality");
      [rewrite (bind_eq _ _ _ _ _ (Hm _)); reflexivity|].
    destruct (String.eqb o "-camera");
      [rewrite (bind_eq _ _ _ _ _ (Hm _)); reflexivity|].
    discriminate.
Qed.

Lemma take_value_defined argv argc i store w :
  argc = Z.of_nat (length argv) -> 0 <= i ->
  Forall (fun a => a <> None) argv ->
  exists r w', take_value atoi argv argc i store w = Some (r, w') /\
               (r = None \/ r = Some (i + 1)).
Proof.
  intros Hargc Hi Hall. unfold take_value.
  destruct (argc <=? i + 1) eqn:E; [exists None, w; auto|].
  apply Z.leb_gt in E.
  destruct (lookup_lt_is_Some_2 argv (Z.to_nat (i + 1)) ltac:(lia)) as [a Ha].
  pose proof (proj1 (Forall_lookup _ _) Hall _ _ Ha) as Hn. cbn in Hn.
  rewrite Ha. destruct a as [s|]; [|congruence].
  unfold get_params, put_params, bind, ret. eauto.
Qed.

Lemma parse_loop_defined v argv argc :
  argc = Z.of_nat (length argv) -> Forall (fun a => a <> None) argv ->
  forall fuel i w, 0 <= i -> (Z.to_nat (argc - i) <= fuel)%nat ->
  exists r w', parse_loop atoi fuel v argv argc i w = Some (r, w').
Proof.
  intros Hargc Hall. induction fuel as [|fuel IH]; intros i w Hi Hf; cbn [parse_loop];
    (destruct (i <? argc) eqn:E; [apply Z.ltb_lt in E|unfold ret; eauto]); [lia|].
  destruct (lookup_lt_is_Some_2 argv (Z.to_nat i) ltac:(lia)) as [a Ha].
  pose proof (proj1 (Forall_lookup _ _) Hall _ _ Ha) as Hn. cbn in Hn.
  rewrite Ha. destruct a as [arg|]; [|congruence].
  assert (Hopt : forall store, exists r w',
    (r0 <~ take_value atoi argv argc i store ;;
     match r0 with
     | None => ret 1
     | Some i' => parse_loop atoi fuel v argv argc (i' + 1)
     end) w = Some (r, w')).
  { intros store.
    destruct (take_value_defined argv argc i store w Hargc Hi Hall)
      as (r0 & w0 & Ht & Hr0).
    rewrite (bind_eq _ _ _ _ _ Ht).
    destruct Hr0 as [-> | ->]; [unfold ret; eauto|]. apply IH; lia. }
  destruct (is_opt arg "-h" "--help"); [unfold ret; eauto|].
  destruct (is_opt arg "-fps" "--framerate"); [apply Hopt|].
  destruct (is_opt arg "-x" "--width"); [apply Hopt|].
  destruct (is_opt arg "-y" "--height"); [apply Hopt|].
  destruct (String.eqb arg "-quality"); [apply Hopt|].
  destruct (String.eqb arg "-camera"); [apply Hopt|].
  apply IH; lia.
Qed.

(** X18.  The argument loop of [input_init] stays inside [argv]: when no
    entry of the argument vector is a null pointer the call returns, in
    both variants, whatever the arguments are. *)
Theorem X18_input_init_returns v param id w :
  Forall (fun a => a <> None) (argv param) ->
  exists r w', input_init atoi v param id w = Some (r, w').
Proof.
  intros Hall. unfold input_init. unfold bind at 1. unfold bind at 1.
  apply parse_loop_defined; [reflexivity|exact Hall|lia|lia].
Qed.

Lemma help_takes_no_value o : takes_value o = true -> is_opt o "-h" "--help" = false.
Proof.
  intros Hv. destruct (is_opt o "-h" "--help") eqn:E; [|reflexivity].
  unfold is_opt in E. apply orb_prop in E.
  destruct E as [E|E]; apply String.eqb_eq in E; subst o; discriminate Hv.
Qed.

(** X19.  The argument after an option that needs a value is consumed as
    that value and never read as an option: between arguments that are
    ignored, an option followed by any string at all (the help option
    included) makes [input_init] return 0, having stored [atoi] of that
    string in one of the five parameters. *)
Theorem X19_option_value_is_consumed v pre o s post g id w :
  Forall (fun a => plain a = true) pre ->
  Forall (fun a => plain a = true) post ->
  takes_value o = true ->
  exists w' store,
    input_init atoi v (mk_param (pre ++ Some o :: Some s :: post) g) id w = Some (0, w') /\
    In store [store_fps; store_width; store_height; store_quality; store_camera_id] /\
    w' = set_params (store (atoi s) (params w))
           (set_pglobal g (set_plugin_number id w)).
Proof.
  intros Hpre Hpost Hv. unfold input_init. unfold bind at 1. unfold bind at 1.
  cbn [argv param_global]. set (w0 := set_pglobal g _).
  set (args := pre ++ Some o :: Some s :: post).
  assert (Hlen : length args = (length pre + S (S (length post)))%nat).
  { unfold args. rewrite length_app. reflexivity. }
  rewrite Hlen.
  rewrite parse_loop_skip; [|rewrite Hlen; reflexivity|lia|].
  2:{ intros k Hk. apply plain_prefix; assumption. }
  cbn [parse_loop]. rewrite Z.add_0_l.
  rewrite (proj2 (Z.ltb_lt _ _)) by lia.
  assert (Ho : args !! Z.to_nat (Z.of_nat (length pre)) = Some (Some o)).
  { rewrite Nat2Z.id. apply list_lookup_middle. reflexivity. }
  rewrite Ho, (help_takes_no_value o Hv).
  assert (Htake : forall store,
    take_value atoi args (Z.of_nat (length pre + S (S (length post))))
      (Z.of_nat (length pre)) store w0
    = Some (Some (Z.of_nat (length pre) + 1),
            set_params (store (atoi s) (params w0)) w0)).
  { intros store. unfold take_value.
    rewrite (proj2 (Z.leb_gt _ _)) by lia.
    replace (Z.to_nat (Z.of_nat (length pre) + 1)) with (S (length pre)) by lia.
    unfold args. rewrite (lookup_app_r pre) by lia.
    replace (S (length pre) - length pre)%nat with 1%nat by lia.
    reflexivity. }
  assert (Hrest : forall w1,
    parse_loop atoi (S (length post)) v args
      (Z.of_nat (length pre + S (S (length post))))
      (Z.of_nat (length pre) + 1 + 1) w1 = Some (0, w1)).
  { intros w1.
    remember (Z.of_nat (length pre + S (S (length post)))) as argc eqn:Hargc.
    pose proof (parse_loop_skip v args argc
                  w1 (length post) 1%nat (Z.of_nat (length pre) + 1 + 1)) as Hskip.
    replace (S (length post)) with (length post + 1)%nat by lia.
    rewrite Hskip; [|rewrite Hlen; exact Hargc|lia|].
    - cbn [parse_loop]. rewrite (proj2 (Z.ltb_ge _ _)) by lia. reflexivity.
    - intros k Hk.
      replace (Z.to_nat (Z.of_nat (length pre) + 1 + 1) + k)%nat
        with (length pre + S (S k))%nat by lia.
      unfold args. rewrite lookup_app_r by lia.
      replace (length pre + S (S k) - length pre)%nat with (S (S k)) by lia.
      cbn [lookup list_lookup].
      destruct (lookup_lt_is_Some_2 post k Hk) as [a Ha].
      pose proof (proj1 (Forall_lookup _ _) Hpost k a Ha) as Hp. cbn in Hp.
      change (post !! k = Some a) in Ha.
      destruct a as [s'|]; [|discriminate]. exists s'. split; [exact Ha|exact Hp]. }
  assert (Hgo : forall store,
    In store [store_fps; store_width; store_height; store_quality; store_camera_id] ->
    exists w' store',
      (r0 <~ take_value atoi args (Z.of_nat (length pre + S (S (length post))))
               (Z.of_nat (length pre)) store ;;
       match r0 with
       | None => ret 1
       | Some i' => parse_loop atoi (S (length post)) v args
                      (Z.of_nat (length pre + S (S (length post)))) (i' + 1)
       end) w0 = Some (0, w') /\
      In store' [store_fps; store_width; store_height; store_quality; store_camera_id] /\
      w' = set_params (store' (atoi s) (params w)) w0).
  { intros store Hin. rewrite (bind_eq _ _ _ _ _ (Htake store)).
    rewrite Hrest. eexists _, store. split; [reflexivity|]. split; [exact Hin|reflexivity]. }
  replace (length pre + S (S (length post)) - length pre)%nat
    with (S (S (length post))) in * by lia.
  unfold takes_value in Hv.
  destruct (is_opt o "-fps" "--framerate"); [apply Hgo; cbn; auto|].
  destruct (is_opt o "-x" "--width"); [apply Hgo; cbn; auto|].
  destruct (is_opt o "-y" "--height"); [apply Hgo; cbn; auto|].
  destruct (String.eqb o "-quality"); [apply Hgo; cbn; auto|].
  destruct (String.eqb o "-camera"); [apply Hgo; cbn; auto 10|].
  discriminate.
Qed.

(** X20.  The two variants differ on null pointers in the argument
    vector: the software-encoding variant skips them, so arguments that
    are null or ignored give 0; the MJPEG variant passes the first null
    pointer it reaches to [strcmp], which is undefined behaviour. *)
Theorem X20_null_arguments pre rest g id w :
  (Forall (fun a => a = None \/ plain a = true) pre ->
   input_init atoi Software (mk_param pre g) id w
   = Some (0, set_pglobal g (set_plugin_number id w))) /\
  (Forall (fun a => plain a = true) pre ->
   input_init atoi Mjpeg (mk_param (pre ++ None :: rest) g) id w = None).
Proof.
  split; intros Hall; unfold input_init; unfold bind at 1; unfold bind at 1;
    cbn [argv param_global]; set (w0 := set_pglobal g _).
  - assert (Hgen : forall n fuel i, 0 <= i ->
              Z.of_nat n = Z.of_nat (length pre) - i ->
              parse_loop atoi (n + fuel) Software pre (Z.of_nat (length pre)) i w0
              = Some (0, w0)).
    { induction n as [|n IH]; intros fuel i Hi Hn.
      - destruct fuel; cbn [Nat.add parse_loop];
          rewrite (proj2 (Z.ltb_ge _ _)) by lia; reflexivity.
      - cbn [Nat.add parse_loop]. rewrite (proj2 (Z.ltb_lt _ _)) by lia.
        destruct (lookup_lt_is_Some_2 pre (Z.to_nat i) ltac:(lia)) as [a Ha].
        pose proof (proj1 (Forall_lookup _ _) Hall _ _ Ha) as Hp. cbn in Hp.
        rewrite Ha. destruct a as [s|].
        + destruct Hp as [Hp|Hp]; [discriminate|].
          apply plain_tests in Hp. destruct Hp as (H1 & H2 & H3 & H4 & H5 & H6).
          rewrite H1, H2, H3, H4, H5, H6. apply IH; lia.
        + apply IH; lia. }
    rewrite <- (Hgen (length pre) 0%nat 0); [rewrite Nat.add_0_r; reflexivity|lia|lia].
  - rewrite length_app. cbn [length].
    rewrite parse_loop_skip; [|rewrite length_app; reflexivity|lia|].
    2:{ intros k Hk. apply plain_prefix; assumption. }
    cbn [parse_loop]. rewrite Z.add_0_l.
    rewrite (proj2 (Z.ltb_lt _ _)) by lia.
    rewrite Nat2Z.id, list_lookup_middle by reflexivity. reflexivity.
Qed.

(** ** The worker thread *)

Lemma exec_ops_app v os1 os2 w w1 :
  exec_ops jpeg_encode atoi v os1 w = Some (tt, w1) ->
  exec_ops jpeg_encode atoi v (os1 ++ os2) w = exec_ops jpeg_encode atoi v os2 w1.
Proof.
  revert w. induction os1 as [|o os1 IH]; intros w H.
  - injection H as <-. reflexivity.
  - cbn [app exec_ops] in *. apply bind_inv in H. destruct H as ([] & w0 & H0 & H).
    rewrite (bind_eq _ _ _ _ _ H0). apply IH. exact H.
Qed.

Lemma goto_inv tid l w u w' t :
  threads w !! tid = Some t -> goto tid l w = Some (u, w') ->
  threads w' !! tid = Some (mk_thread l (detached t)) /\
  w' = set_threads (<[tid := mk_thread l (detached t)]> (threads w)) w.
Proof.
  intros Ht H. rewrite (goto_eq _ _ _ _ Ht) in H. injection H as H. subst w'.
  split; [apply moved_thread; exact Ht|reflexivity].
Qed.

Lemma create_requests_eq o n : forall i w,
  fps (params w) <> 0 ->
  create_requests o n i w
  = Some (match o_request_fail o with
          | Some k => negb ((i <=? k)%nat && (k <? i + n)%nat)
          | None => true
          end, w).
Proof.
  induction n as [|n IH]; intros i w Hf; cbn [create_requests].
  - destruct (o_request_fail o) as [k|]; [|reflexivity].
    replace ((i <=? k)%nat && (k <? i + 0)%nat) with false; [reflexivity|].
    destruct (i <=? k)%nat eqn:E1; [|reflexivity].
    destruct (k <? i + 0)%nat eqn:E2; [|reflexivity].
    apply Nat.leb_le in E1. apply Nat.ltb_lt in E2. lia.
  - destruct (o_request_fail o) as [k|] eqn:Hk.
    + destruct (Nat.eqb k i) eqn:E.
      * apply Nat.eqb_eq in E. subst k.
        rewrite Nat.leb_refl, (proj2 (Nat.ltb_lt _ _)) by lia. reflexivity.
      * apply Nat.eqb_neq in E. unfold get_params. unfold bind at 1.
        destruct (fps (params w) =? 0) eqn:Ef; [lia|].
        unfold bind, ret. rewrite IH by exact Hf.
        do 2 f_equal. f_equal.
        destruct (i <=? k)%nat eqn:E1, (S i <=? k)%nat eqn:E2,
          (k <? i + S n)%nat eqn:E3, (k <? S i + n)%nat eqn:E4; try reflexivity;
          repeat match goal with
                 | H : (_ <=? _)%nat = true |- _ => apply Nat.leb_le in H
                 | H : (_ <=? _)%nat = false |- _ => apply Nat.leb_gt in H
                 | H : (_ <? _)%nat = true |- _ => apply Nat.ltb_lt in H
                 | H : (_ <? _)%nat = false |- _ => apply Nat.ltb_ge in H
                 end; lia.
    + unfold get_params. unfold bind at 1.
      destruct (fps (params w) =? 0) eqn:Ef; [lia|].
      unfold bind, ret. rewrite IH by exact Hf. reflexivity.
Qed.

Lemma set_params_twice p q w : set_params p (set_params q w) = set_params p w.
Proof. destruct w; reflexivity. Qed.

(** With a camera number that is not negative and a frame rate that is
    not zero, [init_camera] returns 0 or -1 as libcamera's answers
    decide; it leaves a new context behind either way and changes the
    parameters at most. *)
Lemma init_camera_eq o w :
  0 <= camera_id (params w) -> fps (params w) <> 0 ->
  exists w1,
    init_camera o w
    = Some ((if init_answers_ok o (params w) then 0 else -1), w1) /\
    w1 = set_params (params w1) (set_ctx (Some (mk_ctx [] false)) w).
Proof.
  intros Hc Hf. unfold init_camera, init_answers_ok, no_request_fails, put_ctx.
  unfold bind at 1. set (w0 := set_ctx _ w).
  assert (Hsame : w0 = set_params (params w0) w0)
    by (symmetry; apply set_params_same).
  assert (Hret : forall z : Z, exists w1,
             ret z w0 = Some (z, w1) /\ w1 = set_params (params w1) w0).
  { intros z. exists w0. split; [reflexivity|exact Hsame]. }
  destruct (o_cm_ok o); cbn [negb andb]; [|apply Hret].
  destruct (o_cameras o) as [|cams] eqn:Hcams.
  { cbn [Nat.eqb]. replace (camera_id (params w) <? Z.of_nat 0) with false
      by (symmetry; apply Z.ltb_ge; lia). apply Hret. }
  cbn [Nat.eqb]. unfold get_params. unfold bind at 1.
  change (params w0) with (params w).
  destruct (Z.of_nat (S cams) <=? camera_id (params w)) eqn:E1.
  { apply Z.leb_le in E1. rewrite (proj2 (Z.ltb_ge _ _)) by lia. apply Hret. }
  apply Z.leb_gt in E1. rewrite (proj2 (Z.ltb_lt _ _) E1).
  rewrite (proj2 (Z.ltb_ge _ _) Hc). cbn [andb].
  destruct (o_camera_ok o); cbn [negb andb]; [|apply Hret].
  assert (Hfin : forall w2, fps (params w2) <> 0 ->
            (if negb (o_configure_ok o) then ret (-1)
             else ok <~ create_requests o (o_buffers o) 0 ;;
                  if ok then ret 0 else ret (-1)) w2
            = Some ((if o_configure_ok o &&
                        match o_request_fail o with
                        | Some k => (o_buffers o <=? k)%nat
                        | None => true
                        end then 0 else -1), w2)).
  { intros w2 Hf2. destruct (o_configure_ok o); cbn [negb andb]; [|reflexivity].
    rewrite (bind_eq _ _ _ _ _ (create_requests_eq o (o_buffers o) 0 w2 Hf2)).
    destruct (o_request_fail o) as [k|]; [|reflexivity].
    cbn [Nat.leb Nat.add]. unfold Nat.ltb.
    destruct (o_buffers o <=? k)%nat eqn:E2.
    - apply Nat.leb_le in E2. rewrite (proj2 (Nat.leb_gt _ _)) by lia. reflexivity.
    - apply Nat.leb_gt in E2. rewrite (proj2 (Nat.leb_le _ _)) by lia. reflexivity. }
  destruct (o_validation o) as [|aw ah|]; cbn [andb].
  - rewrite Hfin by exact Hf. exists w0. split; [reflexivity|exact Hsame].
  - unfold put_params. unfold bind at 1. rewrite Hfin by exact Hf.
    eexists. split; [reflexivity|]. cbn [params set_params]. reflexivity.
  - apply Hret.
Qed.

(** X21.  How the worker starts, when the camera number is not negative
    and the frame rate is not zero.  [init_camera] returns 0 exactly when
    all of libcamera's answers let it, and -1 otherwise.  The worker's
    first two steps log nothing and leave the globals and the heap alone,
    and they end in one of three ways: when [init_camera] fails the
    thread returns and the camera context it allocated is still there (it
    is never deleted); when [start_camera] fails the thread returns after
    [stop_camera] has deleted the context; otherwise the thread stands at
    the head of the capture loop with a running camera and an empty
    queue. *)
Theorem X21_worker_startup_outcomes v tid o w t :
  threads w !! tid = Some t -> pc t = PcInit ->
  0 <= camera_id (params w) -> fps (params w) <> 0 ->
  exists w1 w2 l,
    init_camera o w = Some ((if init_answers_ok o (params w) then 0 else -1), w1) /\
    exec_ops jpeg_encode atoi v [OpWorker tid o; OpWorker tid o] w = Some (tt, w2) /\
    threads w2 !! tid = Some (mk_thread l (detached t)) /\
    trace w2 = trace w /\ global w2 = global w /\ heap w2 = heap w /\
    (if init_answers_ok o (params w)
     then if o_start_ok o
          then l = PcCheck /\ ctx w2 = Some (mk_ctx [] true)
          else l = PcDone /\ ctx w2 = None
     else l = PcDone /\ ctx w2 = Some (mk_ctx [] false)).
Proof.
  intros Ht Hpc Hcam Hfps.
  destruct (init_camera_eq o w Hcam Hfps) as (w1 & Hinit & Hw1).
  set (ok := init_answers_ok o (params w)) in *.
  assert (Hth1 : threads w1 = threads w) by (rewrite Hw1; reflexivity).
  assert (Hctx1 : ctx w1 = Some (mk_ctx [] false)) by (rewrite Hw1; reflexivity).
  assert (Htr1 : trace w1 = trace w) by (rewrite Hw1; reflexivity).
  assert (Hg1 : global w1 = global w) by (rewrite Hw1; reflexivity).
  assert (Hh1 : heap w1 = heap w) by (rewrite Hw1; reflexivity).
  assert (Ht1 : threads w1 !! tid = Some t) by (rewrite Hth1; exact Ht).
  assert (Hlt : (tid < length (threads w1))%nat) by (eapply lookup_lt_Some; eauto).
  set (l1 := if ok then PcStart else PcDone).
  set (wa := set_threads (<[tid := mk_thread l1 (detached t)]> (threads w1)) w1).
  assert (H1 : worker_step jpeg_encode v tid o w = Some (tt, wa)).
  { unfold worker_step. rewrite (bind_eq _ _ _ _ _ (get_thread_eq _ _ _ Ht)), Hpc.
    rewrite (bind_eq _ _ _ _ _ Hinit). unfold wa, l1.
    destruct ok; cbn [Z.ltb Z.compare]; apply goto_eq; exact Ht1. }
  assert (Hta : threads wa !! tid = Some (mk_thread l1 (detached t)))
    by (apply list_lookup_insert_eq; exact Hlt).
  assert (H2 : exists w2 l,
    worker_step jpeg_encode v tid o wa = Some (tt, w2) /\
    threads w2 !! tid = Some (mk_thread l (detached t)) /\
    trace w2 = trace w /\ global w2 = global w /\ heap w2 = heap w /\
    (if ok
     then if o_start_ok o
          then l = PcCheck /\ ctx w2 = Some (mk_ctx [] true)
          else l = PcDone /\ ctx w2 = None
     else l = PcDone /\ ctx w2 = Some (mk_ctx [] false))).
  { unfold worker_step. rewrite (bind_eq _ _ _ _ _ (get_thread_eq _ _ _ Hta)).
    cbn [pc]. unfold l1 in *. destruct ok.
    - unfold get_ctx. unfold bind at 1.
      change (ctx wa) with (ctx w1). rewrite Hctx1.
      destruct (o_start_ok o).
      + unfold put_ctx. unfold bind at 1. cbn [completed_requests].
        erewrite goto_eq by exact Hta.
        eexists _, PcCheck. split; [reflexivity|].
        split; [cbn; rewrite list_insert_insert_eq; apply list_lookup_insert_eq;
                exact Hlt|].
        cbn. auto.
      + assert (Hsc : stop_camera wa = Some (tt, set_ctx None wa)).
        { unfold stop_camera, get_ctx, put_ctx, bind.
          change (ctx wa) with (ctx w1). rewrite Hctx1. reflexivity. }
        rewrite (bind_eq _ _ _ _ _ Hsc).
        rewrite (goto_eq (set_ctx None wa) tid PcDone _ Hta).
        eexists _, PcDone. split; [reflexivity|].
        split; [cbn; rewrite list_insert_insert_eq; apply list_lookup_insert_eq;
                exact Hlt|].
        cbn. auto.
    - unfold ret. eexists _, PcDone. split; [reflexivity|].
      split; [exact Hta|]. cbn. auto. }
  destruct H2 as (w2 & l & H2 & Hrest). exists w1, w2, l.
  split; [exact Hinit|].
  split; [exact (two_steps jpeg_encode atoi _ _ _ _ _ _ _ H1 H2)|exact Hrest].
Qed.

(** X26.  Two parameter values make [init_camera] undefined: a negative
    camera number indexes the camera list out of range as soon as the
    camera manager has started and the list is not empty, and a frame
    rate of zero is divided by ([1000000 / fps]) as soon as the request
    for the first buffer has been made. *)
Theorem X26_init_camera_undefined_parameters o w :
  o_cm_ok o = true -> (0 < o_cameras o)%nat ->
  (camera_id (params w) < 0 -> init_camera o w = None) /\
  (0 <= camera_id (params w) < Z.of_nat (o_cameras o) ->
   o_camera_ok o = true -> o_validation o <> ConfigInvalid ->
   o_configure_ok o = true ->
   (0 < o_buffers o)%nat -> o_request_fail o <> Some 0%nat ->
   fps (params w) = 0 ->
   init_camera o w = None).
Proof.
  intros Hcm Hcams.
  set (w0 := set_ctx (Some (mk_ctx [] false)) w).
  assert (Hhead : forall k : parameters -> M Z,
            k (params w) w0 = None ->
            ((fun w1 => Some (tt, set_ctx (Some (mk_ctx [] false)) w1)) ;;;
             p <~ get_params ;; k p) w = None).
  { intros k Hk. unfold get_params, bind. exact Hk. }
  destruct (o_cameras o) as [|cams] eqn:Hc; [lia|].
  split.
  - intros Hneg. unfold init_camera, put_ctx. rewrite Hcm, Hc. cbn [negb Nat.eqb].
    apply Hhead. rewrite (proj2 (Z.leb_gt _ _)) by lia.
    rewrite (proj2 (Z.ltb_lt _ _) Hneg). reflexivity.
  - intros Hid Hcam Hval Hconf Hbuf Hreq Hfps.
    unfold init_camera, put_ctx. rewrite Hcm, Hc. cbn [negb Nat.eqb].
    apply Hhead.
    rewrite (proj2 (Z.leb_gt _ _)) by lia. rewrite (proj2 (Z.ltb_ge _ _)) by lia.
    rewrite Hcam, Hconf. cbn [negb].
    assert (Hloop : forall w2, fps (params w2) = 0 ->
              create_requests o (o_buffers o) 0 w2 = None).
    { intros w2 Hf2. destruct (o_buffers o) as [|n]; [lia|]. cbn [create_requests].
      replace (match o_request_fail o with
               | Some k => Nat.eqb k 0
               | None => false
               end) with false.
      - unfold get_params. unfold bind at 1. rewrite Hf2. reflexivity.
      - destruct (o_request_fail o) as [[|k]|]; [congruence|reflexivity|reflexivity]. }
    destruct (o_validation o) as [|aw ah|]; [| |congruence].
    + unfold bind. rewrite Hloop by exact Hfps. reflexivity.
    + unfold put_params. unfold bind at 1. unfold bind.
      rewrite Hloop by exact Hfps. reflexivity.
Qed.

Lemma loop_step v tid o w w' t :
  stop (global w) = 0 -> threads w !! tid = Some t -> in_loop (pc t) = true ->
  o_queue_ok o = true ->
  worker_step jpeg_encode v tid o w = Some (tt, w') ->
  exists t', threads w' !! tid = Some t' /\ in_loop (pc t') = true /\
             stop (global w') = 0.
Proof.
  intros Hs Ht Hl Hq H.
  pose proof (stop_worker_step jpeg_encode v tid o w tt w' H) as Hst.
  unfold stop_flag in Hst. rewrite Hs in Hst.
  unfold worker_step in H. rewrite (bind_eq _ _ _ _ _ (get_thread_eq _ _ _ Ht)) in H.
  assert (Hfin : forall l w1, threads w1 = threads w -> in_loop l = true ->
            goto tid l w1 = Some (tt, w') ->
            exists t', threads w' !! tid = Some t' /\ in_loop (pc t') = true /\
                       stop (global w') = 0).
  { intros l w1 Hth Hin Hg. rewrite <- Hth in Ht.
    destruct (goto_inv _ _ _ _ _ _ Ht Hg) as [Ht' _].
    eexists. split; [exact Ht'|]. split; [exact Hin|exact Hst]. }
  destruct (pc t) eqn:Hpc; try discriminate Hl.
  - apply bind_inv in H. destruct H as (g & w1 & Hg & H).
    unfold get_globals in Hg. destruct (pglobal w); [|discriminate].
    injection Hg as <- <-. rewrite Hs in H. cbn in H.
    apply (Hfin PcPop w); auto.
  - apply bind_inv in H. destruct H as (c & w1 & Hd & H).
    destruct (quiet_deref_ctx _ _ _ Hd) as [Hth _].
    destruct (completed_requests c) as [|r rest].
    + apply (Hfin PcSleep w1); auto.
    + apply bind_inv in H. destruct H as ([] & w2 & Hp & H).
      unfold put_ctx in Hp. injection Hp as <-.
      apply (Hfin (PcProcess r) (set_ctx (Some (mk_ctx rest (running c))) w1)); auto.
  - apply bind_inv in H. destruct H as ([] & w1 & Hp & H).
    destruct (quiet_process_frame jpeg_encode _ _ _ _ _ _ Hp) as [Hth _].
    apply (Hfin (PcRequeue r) w1); auto.
  - apply bind_inv in H. destruct H as (c & w1 & Hd & H).
    destruct (quiet_deref_ctx _ _ _ Hd) as [Hth _]. rewrite Hq in H.
    apply (Hfin PcCheck w1); auto.
  - apply bind_inv in H. destruct H as ([] & w1 & Hlog & H).
    unfold log in Hlog. injection Hlog as <-.
    apply (Hfin PcCheck (set_trace (trace w ++ [EvUsleep 1000]) w)); auto.
Qed.

(** X22.  The worker leaves the capture loop only when the stop flag is
    set or a request cannot be queued again: while the flag is clear,
    whatever the worker's steps with accepted requests, the completion
    callbacks and the calls of [input_cmd] that run, and however they are
    interleaved, the thread is still inside the loop afterwards and the
    flag is still clear. *)
Theorem X22_worker_stays_in_loop v tid os : forall w w' t,
  stop (global w) = 0 -> threads w !! tid = Some t -> in_loop (pc t) = true ->
  forallb (loop_op tid) os = true ->
  exec_ops jpeg_encode atoi v os w = Some (tt, w') ->
  exists t', threads w' !! tid = Some t' /\ in_loop (pc t') = true /\
             stop (global w') = 0.
Proof.
  induction os as [|o os IH]; intros w w' t Hs Ht Hl Hall H.
  - injection H as <-. eauto.
  - cbn [forallb] in Hall. apply andb_prop in Hall. destruct Hall as [Ho Hall].
    cbn [exec_ops] in H. apply bind_inv in H. destruct H as ([] & w1 & H1 & H).
    assert (Hnext : exists t1, threads w1 !! tid = Some t1 /\ in_loop (pc t1) = true /\
                               stop (global w1) = 0).
    { destruct o as [| | |p c g x s|tid' o'|r]; cbn [loop_op] in Ho; try discriminate Ho.
      - cbn [exec_op] in H1. unfold discard, input_cmd, bind, ret in H1.
        injection H1 as <-. eauto.
      - apply andb_prop in Ho. destruct Ho as [Ho Hq].
        apply Nat.eqb_eq in Ho. subst tid'.
        exact (loop_step _ _ _ _ _ _ Hs Ht Hl Hq H1).
      - cbn [exec_op] in H1.
        destruct (quiet_requestComplete _ _ _ _ H1) as [Hth _].
        pose proof (stop_requestComplete r w tt w1 H1) as Hst. unfold stop_flag in Hst.
        exists t. rewrite Hth, Hst. auto. }
    destruct Hnext as (t1 & Ht1 & Hl1 & Hs1).
    exact (IH _ _ _ Hs1 Ht1 Hl1 Hall H).
Qed.

Lemma exec_callbacks v rs w :
  exec_ops jpeg_encode atoi v (map OpRequestComplete rs) w = run_callbacks rs w.
Proof.
  revert w. induction rs as [|r rs IH]; intros w; [reflexivity|].
  cbn [map exec_ops exec_op run_callbacks]. unfold bind.
  destruct (requestComplete r w) as [[[] w1]|]; [apply IH|reflexivity].
Qed.

Lemma step_pop_some v tid o w t c r rest :
  threads w !! tid = Some t -> pc t = PcPop ->
  ctx w = Some c -> completed_requests c = r :: rest ->
  worker_step jpeg_encode v tid o w
  = Some (tt, set_threads (<[tid := mk_thread (PcProcess r) (detached t)]> (threads w))
                (set_ctx (Some (mk_ctx rest (running c))) w)).
Proof.
  intros Ht Hpc Hc Hq. unfold worker_step.
  rewrite (bind_eq _ _ _ _ _ (get_thread_eq _ _ _ Ht)), Hpc.
  assert (Hd : deref_ctx w = Some (c, w)).
  { unfold deref_ctx. rewrite Hc. reflexivity. }
  rewrite (bind_eq _ _ _ _ _ Hd), Hq. unfold put_ctx. unfold bind at 1.
  apply (goto_eq (set_ctx _ w)). exact Ht.
Qed.

Lemma step_process v tid o w w1 t r :
  threads w !! tid = Some t -> pc t = PcProcess r ->
  process_frame jpeg_encode v o (planes r) w = Some (tt, w1) ->
  worker_step jpeg_encode v tid o w
  = Some (tt, set_threads (<[tid := mk_thread (PcRequeue r) (detached t)]> (threads w1)) w1).
Proof.
  intros Ht Hpc Hp. unfold worker_step.
  rewrite (bind_eq _ _ _ _ _ (get_thread_eq _ _ _ Ht)), Hpc.
  rewrite (bind_eq _ _ _ _ _ Hp).
  destruct (quiet_process_frame jpeg_encode _ _ _ _ _ _ Hp) as [Hth _].
  apply goto_eq. rewrite Hth. exact Ht.
Qed.

Lemma step_requeue v tid o w t c r :
  threads w !! tid = Some t -> pc t = PcRequeue r -> ctx w = Some c ->
  worker_step jpeg_encode v tid o w
  = Some (tt, set_threads
                (<[tid := mk_thread (if o_queue_ok o then PcCheck else PcCleanup)
                                    (detached t)]> (threads w)) w).
Proof.
  intros Ht Hpc Hc. unfold worker_step.
  rewrite (bind_eq _ _ _ _ _ (get_thread_eq _ _ _ Ht)), Hpc.
  assert (Hd : deref_ctx w = Some (c, w)).
  { unfold deref_ctx. rewrite Hc. reflexivity. }
  rewrite (bind_eq _ _ _ _ _ Hd).
  destruct (o_queue_ok o); apply goto_eq; exact Ht.
Qed.

(** X23.  Requests are processed in the order they completed: after the
    callbacks of a list of requests have run against an empty queue, the
    next step of a worker that is about to take a request takes the first
    completed request of the list and leaves the later ones queued in
    order. *)
Theorem X23_worker_takes_oldest_request v tid o rs r rest w t c :
  threads w !! tid = Some t -> pc t = PcPop ->
  ctx w = Some c -> completed_requests c = [] ->
  List.filter is_complete rs = r :: rest ->
  exists w',
    exec_ops jpeg_encode atoi v (map OpRequestComplete rs ++ [OpWorker tid o]) w
    = Some (tt, w') /\
    threads w' !! tid = Some (mk_thread (PcProcess r) (detached t)) /\
    ctx w' = Some (mk_ctx rest (running c)).
Proof.
  intros Ht Hpc Hc Hq Hrs.
  pose proof (run_callbacks_append rs w c Hc) as Hcb.
  rewrite Hq, Hrs in Hcb. cbn [app] in Hcb. rewrite <- (exec_callbacks v) in Hcb.
  rewrite (exec_ops_app _ _ _ _ _ Hcb). cbn [exec_ops exec_op].
  erewrite bind_eq.
  2:{ apply (step_pop_some v tid o _ t (mk_ctx (r :: rest) (running c)) r rest);
        [exact Ht|exact Hpc|reflexivity|reflexivity]. }
  eexists. split; [reflexivity|]. split; [|reflexivity].
  apply list_lookup_insert_eq. eapply lookup_lt_Some; eauto.
Qed.

(** X24.  A frame from completion to publication, MJPEG variant: when a
    request completes while the worker is about to look at an empty
    queue, three steps of the worker take the request, publish the bytes
    used of its first plane in the plugin's channel with one wake-up of
    the waiters, queue the request again and are back at the head of the
    loop with the queue empty. *)
Theorem X24_mjpeg_frame_end_to_end tid o r pl rest w t c cx :
  channel_ready w c ->
  threads w !! tid = Some t -> pc t = PcPop ->
  ctx w = Some cx -> completed_requests cx = [] ->
  req_status r = RequestComplete -> planes r = pl :: rest ->
  o_mmap_ok o = true -> o_frame_ok o = true -> o_queue_ok o = true ->
  0 <= bytesused pl <= Z.of_nat (length (plane_mem pl)) ->
  exists w' c',
    exec_ops jpeg_encode atoi Mjpeg
      [OpRequestComplete r; OpWorker tid o; OpWorker tid o; OpWorker tid o] w
    = Some (tt, w') /\
    channel w' = Some c' /\
    stored_bytes w' c' = Some (take (Z.to_nat (bytesused pl)) (plane_mem pl)) /\
    size c' = bytesused pl /\ timestamp c' = o_now o /\
    threads w' !! tid = Some (mk_thread PcCheck (detached t)) /\
    ctx w' = Some (mk_ctx [] (running cx)) /\
    broadcasts (trace w') = S (broadcasts (trace w)).
Proof.
  intros Hr Ht Hpc Hc Hq Hs Hpl Hm Hf Hqo Hlen.
  assert (Hlt : (tid < length (threads w))%nat) by (eapply lookup_lt_Some; eauto).
  set (w1 := set_ctx (Some (mk_ctx [r] (running cx))) w).
  assert (H1 : requestComplete r w = Some (tt, w1)).
  { unfold requestComplete, get_ctx, put_ctx, bind. rewrite Hc, Hs, Hq. reflexivity. }
  set (w2 := set_threads (<[tid := mk_thread (PcProcess r) (detached t)]> (threads w1))
               (set_ctx (Some (mk_ctx [] (running cx))) w1)).
  assert (H2 : worker_step jpeg_encode Mjpeg tid o w1 = Some (tt, w2)).
  { apply (step_pop_some Mjpeg tid o w1 t (mk_ctx [r] (running cx)) r []);
      [exact Ht|exact Hpc|reflexivity|reflexivity]. }
  assert (Ht2 : threads w2 !! tid = Some (mk_thread (PcProcess r) (detached t))).
  { apply list_lookup_insert_eq. exact Hlt. }
  assert (Hr2 : channel_ready w2 c) by exact Hr.
  set (w3 := after_publish w2 c (o_now o) (plane_mem pl) (bytesused pl)).
  assert (Hp : process_frame jpeg_encode Mjpeg o (planes r) w2 = Some (tt, w3)).
  { cbn [process_frame]. unfold process_frame_mjpeg. rewrite Hpl.
    cbn [lookup list_lookup]. rewrite Hm, Hf. cbn [negb].
    apply copy_frame_published; assumption. }
  set (w4 := set_threads (<[tid := mk_thread (PcRequeue r) (detached t)]> (threads w3)) w3).
  assert (H3 : worker_step jpeg_encode Mjpeg tid o w2 = Some (tt, w4)).
  { exact (step_process Mjpeg tid o w2 w3 _ r Ht2 eq_refl Hp). }
  assert (Hlt3 : (tid < length (threads w3))%nat).
  { change (threads w3) with (threads w2). eapply lookup_lt_Some; eauto. }
  assert (Ht4 : threads w4 !! tid = Some (mk_thread (PcRequeue r) (detached t))).
  { apply list_lookup_insert_eq. exact Hlt3. }
  pose proof (step_requeue Mjpeg tid o w4 _ (mk_ctx [] (running cx)) r Ht4 eq_refl eq_refl)
    as H4.
  rewrite Hqo in H4. cbn [detached] in H4.
  cbn [exec_ops exec_op].
  rewrite (bind_eq _ _ _ _ _ H1), (bind_eq _ _ _ _ _ H2), (bind_eq _ _ _ _ _ H3),
    (bind_eq _ _ _ _ _ H4).
  destruct (after_publish_holds w2 c (o_now o) _ _ Hr2 Hlen) as [Hch _].
  eexists _, _. split; [reflexivity|]. split; [exact Hch|].
  split; [unfold stored_bytes; cbn; apply lookup_insert_eq|].
  split; [reflexivity|]. split; [reflexivity|].
  split; [cbn; rewrite list_insert_insert_eq; apply list_lookup_insert_eq; exact Hlt3|].
  split; [reflexivity|].
  cbn. rewrite broadcasts_app. destruct (buf c); cbn; lia.
Qed.

(** X25.  When libcamera refuses the request that is queued again the
    worker ends on its own: two steps later it has deleted the camera
    context and returned, without a log entry and with the globals, the
    stop flag among them, and the heap as they were, so the channel keeps
    the frame published last. *)
Theorem X25_requeue_failure_ends_worker v tid o o' r w t c :
  threads w !! tid = Some t -> pc t = PcRequeue r -> ctx w = Some c ->
  o_queue_ok o = false ->
  exists w2,
    exec_ops jpeg_encode atoi v [OpWorker tid o; OpWorker tid o'] w = Some (tt, w2) /\
    threads w2 !! tid = Some (mk_thread PcDone (detached t)) /\
    ctx w2 = None /\ global w2 = global w /\ heap w2 = heap w /\ trace w2 = trace w.
Proof.
  intros Ht Hpc Hc Hq.
  pose proof (step_requeue v tid o w t c r Ht Hpc Hc) as H1. rewrite Hq in H1.
  set (w1 := set_threads _ w) in H1.
  assert (Hlt : (tid < length (threads w))%nat) by (eapply lookup_lt_Some; eauto).
  assert (Ht1 : threads w1 !! tid = Some (mk_thread PcCleanup (detached t))).
  { apply list_lookup_insert_eq. exact Hlt. }
  assert (H2 : worker_step jpeg_encode v tid o' w1
               = Some (tt, set_threads (<[tid := mk_thread PcDone (detached t)]> (threads w1))
                             (set_ctx None w1))).
  { unfold worker_step. rewrite (bind_eq _ _ _ _ _ (get_thread_eq _ _ _ Ht1)).
    cbn [pc].
    assert (Hsc : stop_camera w1 = Some (tt, set_ctx None w1)).
    { unfold stop_camera, get_ctx, put_ctx, bind.
      change (ctx w1) with (ctx w). rewrite Hc. reflexivity. }
    rewrite (bind_eq _ _ _ _ _ Hsc).
    rewrite (goto_eq (set_ctx None w1) tid PcDone _ Ht1). reflexivity. }
  eexists. split; [exact (two_steps jpeg_encode atoi _ _ _ _ _ _ _ H1 H2)|].
  split; [cbn; rewrite list_insert_insert_eq; apply list_lookup_insert_eq; exact Hlt|].
  repeat split; reflexivity.
Qed.
End Coverage.

(** ** The properties above at sample inputs *)

Lemma idle_ready : channel_ready idle_world (mk_input None 0 t0 []).
Proof. repeat split. simpl. lia. Qed.

Lemma one_frame_ready :
  channel_ready one_frame_world (mk_input (Some 0%N) 3 (mk_timeval 5 6) []).
Proof. repeat split. - simpl. lia. - exists [x01; x02; x03]. reflexivity. Qed.

Lemma X1_witness :
  channel_ready one_frame_world (mk_input (Some 0%N) 3 (mk_timeval 5 6) []) /\
  0 <= 1 <= Z.of_nat (length [xff]) /\
  exists w' mid,
    copy_frame false (mk_timeval 9 9) [xff] 1 one_frame_world = Some (tt, w') /\
    trace w' = trace one_frame_world ++ EvLock 0 :: mid ++ [EvUnlock 0] /\
    forallb (fun e => negb (is_lock_event e)) mid = true.
Proof.
  assert (Hl : 0 <= 1 <= Z.of_nat (length [xff])) by (simpl; lia).
  split; [exact one_frame_ready|]. split; [exact Hl|].
  exact (X1_copy_frame_releases_lock false (mk_timeval 9 9) [xff] 1 one_frame_world _
           one_frame_ready Hl).
Defined.

Lemma X2_witness :
  channel_ready one_frame_world (mk_input (Some 0%N) 3 (mk_timeval 5 6) []) /\
  exists w' c',
    publish_all ([(true, t0, [x01]); (false, t0, [x02])] ++ [(true, mk_timeval 9 9, [xff])])
      one_frame_world = Some (tt, w') /\
    channel w' = Some c' /\
    stored_bytes w' c' = Some [xff] /\ size c' = 1 /\ timestamp c' = mk_timeval 9 9.
Proof.
  split; [exact one_frame_ready|].
  exact (X2_last_publish_wins [(true, t0, [x01]); (false, t0, [x02])] true
           (mk_timeval 9 9) [xff] one_frame_world _ one_frame_ready).
Defined.

Lemma X3_witness :
  channel_ready one_frame_world (mk_input (Some 0%N) 3 (mk_timeval 5 6) []) /\
  exists w' c',
    publish_all [(true, t0, [x01]); (false, t0, [x02]); (true, t0, [x03; x04])]
      one_frame_world = Some (tt, w') /\
    channel w' = Some c' /\ live w' (buf c') /\
    heap_free (buf c') (heap w') = heap_free (Some 0%N) (heap one_frame_world).
Proof.
  split; [exact one_frame_ready|].
  exact (X3_publishing_never_leaks
           [(true, t0, [x01]); (false, t0, [x02]); (true, t0, [x03; x04])]
           one_frame_world _ one_frame_ready).
Defined.

Lemma X4_witness :
  channel_ready idle_world (mk_input None 0 t0 []) /\
  0 <= 4 <= Z.of_nat (length [xff; xd8; xff; xd9; x00; x00]) /\
  exists w' c',
    process_frame_mjpeg all_ok (planes sample_request) idle_world = Some (tt, w') /\
    channel w' = Some c' /\
    stored_bytes w' c' = Some [xff; xd8; xff; xd9] /\
    size c' = 4 /\ timestamp c' = mk_timeval 7 0.
Proof.
  assert (Hl : 0 <= 4 <= Z.of_nat (length [xff; xd8; xff; xd9; x00; x00]))
    by (simpl; lia).
  split; [exact idle_ready|]. split; [exact Hl|].
  exact (X4_mjpeg_publishes_bytes_used all_ok
           (mk_plane 6 [xff; xd8; xff; xd9; x00; x00] 4) [] idle_world _
           idle_ready eq_refl eq_refl Hl).
Defined.


Lemma X6_witness :
  exists row',
    swap_loop 2 0 0 [x01; x02; x03; x04; x05; x06] (replicate 6 x00) = Some row' /\
    length row' = 6%nat /\
    swap_loop 2 0 0 row' (replicate 6 xff) = Some [x01; x02; x03; x04; x05; x06].
Proof.
  exact (X6_pixel_loop_is_an_involution 2 [x01; x02; x03; x04; x05; x06]
           (replicate 6 x00) (replicate 6 xff) eq_refl eq_refl eq_refl).
Defined.

Lemma X7_witness :
  Z.of_nat (length [x01; x02; x03; x04; x05]) < 2 * 1 * 3 /\
  rgb_to_jpeg rows_encoder true (Some [x01; x02; x03; x04; x05]) 2 1 idle_world = None.
Proof.
  assert (H1 : 1 <= 2 <= JPEG_MAX_DIMENSION) by (unfold JPEG_MAX_DIMENSION; lia).
  assert (H2 : 1 <= 1 <= JPEG_MAX_DIMENSION) by (unfold JPEG_MAX_DIMENSION; lia).
  assert (H3 : 1 * 2 * 3 <= 2 ^ 32) by (simpl; lia).
  assert (H4 : Z.of_nat (length [x01; x02; x03; x04; x05]) < 2 * 1 * 3) by (simpl; lia).
  split; [exact H4|].
  exact (X7_rgb_to_jpeg_reads_past_short_input rows_encoder
           [x01; x02; x03; x04; x05] 2 1 idle_world H1 H2
           (or_intror (conj H3 H4))).
Defined.

Lemma X8_witness :
  exists st p n w',
    rgb_to_jpeg rows_encoder true (Some sample_image) 2 2 idle_world
    = Some ((st, p, n), w') /\
    global w' = global idle_world.
Proof.
  assert (H : rgb_to_jpeg rows_encoder true (Some sample_image) 2 2 idle_world
              = Some ((_, _, _), _)) by (vm_compute; reflexivity).
  eexists _, _, _, _. split; [exact H|].
  exact (proj1 (X8_rgb_to_jpeg_outcomes rows_encoder _ _ _ _ _ _ _ _ _ H)).
Defined.



Lemma X11_witness :
  ctx (looping_world PcPop [sample_request]) = Some (mk_ctx [sample_request] true) /\
  exists w',
    run_callbacks [cancelled_request; sample_request]
      (looping_world PcPop [sample_request]) = Some (tt, w') /\
    ctx w' = Some (mk_ctx [sample_request; sample_request] true).
Proof.
  split; [reflexivity|].
  destruct (proj2 (X11_callbacks_queue_in_order [cancelled_request; sample_request]
                     (looping_world PcPop [sample_request])) _ eq_refl)
    as (w' & Hrun & Hq & _).
  exists w'. split; [exact Hrun|exact Hq].
Defined.


Lemma X13_witness :
  pglobal one_frame_world = true /\ 0 <= 0 /\
  exists w1,
    input_run true None 0 one_frame_world = Some (0, w1) /\
    in_ (global w1) !! Z.to_nat 0 = Some (mk_input None 0 (mk_timeval 5 6) []) /\
    heap w1 = heap one_frame_world /\
    frees (trace w1) = frees (trace one_frame_world) /\
    threads w1 = threads one_frame_world ++ [mk_thread PcInit true] /\
    worker w1 = Some (length (threads one_frame_world)) /\
    stop (global w1) = stop (global one_frame_world).
Proof.
  split; [reflexivity|]. split; [lia|].
  exact (X13_input_run_starts_worker None 0 one_frame_world
           (mk_input (Some 0%N) 3 (mk_timeval 5 6) []) eq_refl (Z.le_refl 0) eq_refl).
Defined.

Lemma X14_witness :
  pglobal one_frame_world = true /\ plugin_number one_frame_world = 0 /\
  exists w1,
    input_run false (Some 7%nat) 0 one_frame_world = Some (-1, w1) /\
    threads w1 = threads one_frame_world /\
    heap w1 = heap one_frame_world /\
    frees (trace w1) = frees (trace one_frame_world) /\
    channel w1 = Some (mk_input None 0 (mk_timeval 5 6) []) /\
    first_run w1 = 0.
Proof.
  split; [reflexivity|]. split; [reflexivity|].
  exact (X14_input_run_failure (Some 7%nat) 0 one_frame_world
           (mk_input (Some 0%N) 3 (mk_timeval 5 6) []) eq_refl (Z.le_refl 0) eq_refl
           eq_refl).
Defined.

Lemma X15_witness :
  exists r w',
    input_init toy_atoi Mjpeg (mk_param [Some "-fps"; Some "15"]%string true) 1 idle_world
    = Some (r, w') /\
    (r = 0 \/ r = 1) /\
    w' = set_params (params w') (set_pglobal true (set_plugin_number 1 idle_world)).
Proof.
  assert (H : input_init toy_atoi Mjpeg (mk_param [Some "-fps"; Some "15"]%string true)
                1 idle_world = Some (_, _)) by (vm_compute; reflexivity).
  eexists _, _. split; [exact H|].
  exact (X15_input_init_footprint toy_atoi _ _ _ _ _ _ H).
Defined.

Lemma X16_witness :
  Forall (fun a => plain a = true) [Some "-v"; Some "800"]%string /\
  input_init toy_atoi Mjpeg (mk_param [Some "-v"; Some "800"]%string true) 1 idle_world
  = Some (0, set_pglobal true (set_plugin_number 1 idle_world)).
Proof.
  assert (H : Forall (fun a => plain a = true) [Some "-v"; Some "800"]%string)
    by (repeat constructor).
  split; [exact H|].
  exact (X16_input_init_ignores_unknown_arguments toy_atoi Mjpeg _ true 1 idle_world H).
Defined.

Lemma X17_witness :
  Forall (fun a => plain a = true) [Some "-v"]%string /\
  input_init toy_atoi Software (mk_param ([Some "-v"%string] ++ Some "--help"%string :: [None]) true)
    1 idle_world
  = Some (1, set_pglobal true (set_plugin_number 1 idle_world)).
Proof.
  assert (H : Forall (fun a => plain a = true) [Some "-v"]%string)
    by (repeat constructor).
  split; [exact H|].
  exact (X17_input_init_help_or_missing_value toy_atoi Software _ "--help" [None] true 1
           idle_world H (or_introl eq_refl)).
Defined.

Lemma X18_witness :
  Forall (fun a : option string => a <> None) [Some "-x"; Some "-h"; Some "-y"]%string /\
  exists r w',
    input_init toy_atoi Mjpeg (mk_param [Some "-x"; Some "-h"; Some "-y"]%string true)
      0 idle_world = Some (r, w').
Proof.
  assert (H : Forall (fun a : option string => a <> None)
                [Some "-x"; Some "-h"; Some "-y"]%string)
    by (repeat constructor; discriminate).
  split; [exact H|].
  exact (X18_input_init_returns toy_atoi Mjpeg
           (mk_param [Some "-x"; Some "-h"; Some "-y"]%string true) 0 idle_world H).
Defined.

Lemma X19_witness :
  takes_value "--width" = true /\
  exists w' store,
    input_init toy_atoi Mjpeg
      (mk_param ([] ++ Some "--width"%string :: Some "--help"%string :: [Some "-v"%string])
         true)
      0 idle_world = Some (0, w') /\
    In store [store_fps; store_width; store_height; store_quality; store_camera_id] /\
    w' = set_params (store (toy_atoi "--help") (params idle_world))
           (set_pglobal true (set_plugin_number 0 idle_world)).
Proof.
  assert (H0 : Forall (fun a => plain a = true) []) by constructor.
  assert (H1 : Forall (fun a => plain a = true) [Some "-v"%string])
    by (repeat constructor).
  split; [reflexivity|].
  exact (X19_option_value_is_consumed toy_atoi Mjpeg [] "--width" "--help"
           [Some "-v"%string] true 0 idle_world H0 H1 eq_refl).
Defined.

Lemma X20_witness :
  Forall (fun a => a = None \/ plain a = true) [None; Some "-v"%string] /\
  input_init toy_atoi Software (mk_param [None; Some "-v"%string] true) 0 idle_world
  = Some (0, set_pglobal true (set_plugin_number 0 idle_world)) /\
  input_init toy_atoi Mjpeg (mk_param ([] ++ None :: [Some "-v"%string]) true) 0 idle_world
  = None.
Proof.
  assert (H : Forall (fun a => a = None \/ plain a = true) [None; Some "-v"%string])
    by (repeat constructor; auto).
  split; [exact H|]. split.
  - exact (proj1 (X20_null_arguments toy_atoi [None; Some "-v"%string] [] true 0
                    idle_world) H).
  - assert (H0 : Forall (fun a => plain a = true) []) by constructor.
    exact (proj2 (X20_null_arguments toy_atoi [] [Some "-v"%string] true 0 idle_world)
             H0).
Defined.

Lemma X21_witness :
  threads started_world !! 0%nat = Some (mk_thread PcInit true) /\
  0 <= camera_id (params started_world) /\ fps (params started_world) <> 0 /\
  exists w2 l,
    exec_ops rows_encoder toy_atoi Mjpeg [OpWorker 0 all_ok; OpWorker 0 all_ok]
      started_world = Some (tt, w2) /\
    threads w2 !! 0%nat = Some (mk_thread l true) /\
    l = PcCheck /\ ctx w2 = Some (mk_ctx [] true).
Proof.
  assert (Hc : 0 <= camera_id (params started_world)) by (simpl; lia).
  assert (Hf : fps (params started_world) <> 0) by (simpl; lia).
  split; [reflexivity|]. split; [exact Hc|]. split; [exact Hf|].
  destruct (X21_worker_startup_outcomes rows_encoder toy_atoi Mjpeg 0 all_ok
              started_world _ eq_refl eq_refl Hc Hf)
    as (w1 & w2 & l & _ & Hrun & Ht & _ & _ & _ & Hl & Hctx).
  exists w2, l. split; [exact Hrun|]. split; [exact Ht|]. split; [exact Hl|exact Hctx].
Defined.

Lemma X22_witness :
  stop (global (looping_world PcPop [])) = 0 /\
  forallb (loop_op 0) loop_run = true /\
  exists w' t',
    exec_ops rows_encoder toy_atoi Mjpeg loop_run (looping_world PcPop [])
    = Some (tt, w') /\
    threads w' !! 0%nat = Some t' /\ in_loop (pc t') = true /\ stop (global w') = 0.
Proof.
  split; [reflexivity|]. split; [reflexivity|].
  assert (H : exec_ops rows_encoder toy_atoi Mjpeg loop_run (looping_world PcPop [])
              = Some (tt, _)) by (vm_compute; reflexivity).
  destruct (X22_worker_stays_in_loop rows_encoder toy_atoi Mjpeg 0 loop_run
              (looping_world PcPop []) _ _ eq_refl eq_refl eq_refl eq_refl H)
    as (t' & Ht & Hl & Hs).
  eexists _, t'. split; [exact H|]. split; [exact Ht|]. split; [exact Hl|exact Hs].
Defined.

Lemma X23_witness :
  List.filter is_complete [cancelled_request; sample_request; sample_request]
  = [sample_request; sample_request] /\
  exists w',
    exec_ops rows_encoder toy_atoi Mjpeg
      (map OpRequestComplete [cancelled_request; sample_request; sample_request]
       ++ [OpWorker 0 all_ok]) (looping_world PcPop []) = Some (tt, w') /\
    threads w' !! 0%nat = Some (mk_thread (PcProcess sample_request) true) /\
    ctx w' = Some (mk_ctx [sample_request] true).
Proof.
  split; [reflexivity|].
  exact (X23_worker_takes_oldest_request rows_encoder toy_atoi Mjpeg 0 all_ok
           [cancelled_request; sample_request; sample_request] sample_request
           [sample_request] (looping_world PcPop []) _ _ eq_refl eq_refl eq_refl
           eq_refl eq_refl).
Defined.

Lemma X24_witness :
  channel_ready (looping_world PcPop []) (mk_input None 0 t0 []) /\
  0 <= 4 <= Z.of_nat (length [xff; xd8; xff; xd9; x00; x00]) /\
  exists w' c',
    exec_ops rows_encoder toy_atoi Mjpeg
      [OpRequestComplete sample_request; OpWorker 0 all_ok; OpWorker 0 all_ok;
       OpWorker 0 all_ok] (looping_world PcPop []) = Some (tt, w') /\
    channel w' = Some c' /\
    stored_bytes w' c' = Some [xff; xd8; xff; xd9] /\
    threads w' !! 0%nat = Some (mk_thread PcCheck true) /\
    broadcasts (trace w') = 1%nat.
Proof.
  assert (Hr : channel_ready (looping_world PcPop []) (mk_input None 0 t0 [])).
  { repeat split. simpl. lia. }
  assert (Hl : 0 <= 4 <= Z.of_nat (length [xff; xd8; xff; xd9; x00; x00]))
    by (simpl; lia).
  split; [exact Hr|]. split; [exact Hl|].
  destruct (X24_mjpeg_frame_end_to_end rows_encoder toy_atoi 0 all_ok sample_request
              (mk_plane 6 [xff; xd8; xff; xd9; x00; x00] 4) [] (looping_world PcPop [])
              _ _ _ Hr eq_refl eq_refl eq_refl eq_refl eq_refl eq_refl eq_refl eq_refl
              eq_refl Hl)
    as (w' & c' & Hrun & Hch & Hst & _ & _ & Ht & _ & Hb).
  exists w', c'. split; [exact Hrun|]. split; [exact Hch|]. split; [exact Hst|].
  split; [exact Ht|exact Hb].
Defined.

Lemma X25_witness :
  o_queue_ok refusing = false /\
  exists w2,
    exec_ops rows_encoder toy_atoi Mjpeg [OpWorker 0 refusing; OpWorker 0 all_ok]
      (looping_world (PcRequeue sample_request) []) = Some (tt, w2) /\
    threads w2 !! 0%nat = Some (mk_thread PcDone true) /\
    ctx w2 = None /\
    global w2 = global (looping_world (PcRequeue sample_request) []) /\
    heap w2 = heap (looping_world (PcRequeue sample_request) []) /\
    trace w2 = trace (looping_world (PcRequeue sample_request) []).
Proof.
  split; [reflexivity|].
  exact (X25_requeue_failure_ends_worker rows_encoder toy_atoi Mjpeg 0 refusing all_ok
           sample_request (looping_world (PcRequeue sample_request) []) _ _
           eq_refl eq_refl eq_refl eq_refl).
Defined.

Lemma X26_witness :
  camera_id (params (set_params (mk_parameters 640 480 30 85 (-1)) started_world)) < 0 /\
  fps (params (set_params (mk_parameters 640 480 0 85 0) started_world)) = 0 /\
  init_camera all_ok (set_params (mk_parameters 640 480 30 85 (-1)) started_world)
  = None /\
  init_camera all_ok (set_params (mk_parameters 640 480 0 85 0) started_world)
  = None.
Proof.
  assert (Hcams : (0 < o_cameras all_ok)%nat) by (simpl; lia).
  assert (Hneg : camera_id (params (set_params (mk_parameters 640 480 30 85 (-1))
                                      started_world)) < 0) by (simpl; lia).
  assert (Hid : 0 <= camera_id (params (set_params (mk_parameters 640 480 0 85 0)
                                          started_world))
                < Z.of_nat (o_cameras all_ok)) by (simpl; lia).
  assert (Hbuf : (0 < o_buffers all_ok)%nat) by (simpl; lia).
  assert (Hval : o_validation all_ok <> ConfigInvalid) by discriminate.
  assert (Hreq : o_request_fail all_ok <> Some 0%nat) by discriminate.
  split; [exact Hneg|]. split; [reflexivity|]. split.
  - exact (proj1 (X26_init_camera_undefined_parameters all_ok _ eq_refl Hcams) Hneg).
  - exact (proj2 (X26_init_camera_undefined_parameters all_ok _ eq_refl Hcams)
             Hid eq_refl Hval eq_refl Hbuf Hreq eq_refl).
Defined.
